(** * Shrine Bowl player-evaluation dashboard: the statistics, filtering and
    formatting logic of [player_evaluation_app.py]

    The dashboard is a Streamlit script over pandas tables.  This file embeds
    the parts of it that compute something:

    - [Tracking]: [calculate_tracking_stats] and the zone analysis of the
      heat-map view, over a per-frame tracking table;
    - [Rankings]: the sidebar filter pipeline, the sort selection of the
      rankings tab, the row ordering of [create_great_table] and
      [format_draft_pick];
    - [Compare]: [highlight_cells] of [style_comparison_table];
    - [Binary64]: the speed and direction blocks of
      [calculate_tracking_stats] over IEEE binary64 numbers;
    - [TrackingViews] and [HeadingArrow]: the displayed table (play selection
      and timestamp sort), the speed chart and the frame stepper of the
      tracking tab;
    - [RankingsViews]: the category bar chart, the KPI cards, the player
      options and the column texts of the rankings table;
    - [CompareCells]: the cell texts of the comparison table.

    Conventions.  A pandas float column is a [list (option Q)]: [None] is NaN
    (the missing value) and a present sample is an exact rational, so the
    arithmetic below is the real-number reading of the float code; rounding
    is not modelled there.  Where a statement depends on the rounding (the
    order of the mean and the maximum, a heading delta at the 45 degree
    threshold), [Binary64] computes what the program computes, on binary64
    numbers ([PrimFloat]).  [highlight_cells] parses text with Python's
    [float] and compares the results, so there the values are IEEE binary64
    numbers too.  A Python [dict] is a [gmap]; an exception is a value of
    [exn] carried by [result]. *)

From Stdlib Require Import QArith Qabs Qminmax Qfield Lqa ZArith String Ascii DecimalString.
From Stdlib Require Import Sorted Permutation.
From Stdlib Require PrimFloat Reals Lra.
From stdpp Require Import gmap strings list fin_maps.

(** ** Python exceptions *)

Module Py.

Inductive exn : Set :=
| KeyError
| ValueError
| IndexError
| ZeroDivisionError.

Inductive result (A : Type) : Type :=
| Ok (a : A)
| Raise (e : exn).

Arguments Ok {A} a.
Arguments Raise {A} e.

Definition bind {A B : Type} (r : result A) (k : A -> result B) : result B :=
  match r with
  | Ok a => k a
  | Raise e => Raise e
  end.

(** [x > y], [x >= y] and [x == y] on exact samples. *)
Definition Qgtb (x y : Q) : bool := negb (Qle_bool x y).
Definition Qgeb (x y : Q) : bool := Qle_bool y x.
Definition Qltb (x y : Q) : bool := negb (Qle_bool y x).

(** Python's [min(a, b)] and [max(a, b)]: the first argument wins a tie. *)
Definition py_min (a b : Q) : Q := if Qltb b a then b else a.
Definition py_max (a b : Q) : Q := if Qgtb b a then b else a.

(** [int(x)] on a finite float: truncation toward zero. *)
Definition int_of (x : Q) : Z := Z.quot (Qnum x) (Zpos (Qden x)).

(** [str(n)] for an [int]. *)
Definition str_of_int (n : Z) : string := NilZero.string_of_int (Z.to_int n).

End Py.

(** ** pandas series *)

Module Series.
Import Py.

(** [series.dropna()] *)
Fixpoint dropna (col : list (option Q)) : list Q :=
  match col with
  | [] => []
  | Some v :: col' => v :: dropna col'
  | None :: col' => dropna col'
  end.

(** [series.max()], [series.min()], [series.sum()] and [series.mean()] of a
    series without missing values.  On the empty series pandas gives NaN for
    [max], [min] and [mean]; the callers below guard that case, and the
    definitions return 0 there.  The sum and the mean are exact; the rounded
    ones of the program are [Binary64.series_sum] and
    [Binary64.series_mean]. *)
Definition series_max (l : list Q) : Q :=
  match l with
  | [] => 0%Q
  | v :: l' => fold_left py_max l' v
  end.

Definition series_min (l : list Q) : Q :=
  match l with
  | [] => 0%Q
  | v :: l' => fold_left py_min l' v
  end.

Definition series_sum (l : list Q) : Q := fold_left Qplus l 0%Q.

Definition series_mean (l : list Q) : Q :=
  (series_sum l / inject_Z (Z.of_nat (length l)))%Q.

(** [series.nunique()]: the number of distinct non-missing values. *)
Fixpoint distinct (l : list Q) : list Q :=
  match l with
  | [] => []
  | v :: l' =>
      if existsb (Qeq_bool v) l' then distinct l' else v :: distinct l'
  end.

Definition nunique (col : list (option Q)) : nat := length (distinct (dropna col)).

(** [series.diff()] on a series without missing values: the first entry has
    no predecessor and is NaN. *)
Fixpoint diff_from (prev : Q) (l : list Q) : list (option Q) :=
  match l with
  | [] => []
  | v :: l' => Some (v - prev)%Q :: diff_from v l'
  end.

Definition diff (l : list Q) : list (option Q) :=
  match l with
  | [] => []
  | v :: l' => None :: diff_from v l'
  end.

(** [series.abs()] *)
Definition series_abs (l : list (option Q)) : list (option Q) :=
  map (option_map Qabs) l.

(** [lambda x: min(x, 360 - x) if pd.notna(x) else 0] *)
Definition wraparound (x : option Q) : Q :=
  match x with
  | Some v => py_min v (360 - v)%Q
  | None => 0%Q
  end.

(** [(series > t).sum()] *)
Definition count_gt (t : Q) (l : list Q) : nat :=
  length (filter (fun v => Is_true (Qgtb v t)) l).

Definition of_nat (n : nat) : Q := inject_Z (Z.of_nat n).

End Series.

(** ** The tracking table and its statistics *)

Module Tracking.
Import Py Series.

(** A tracking table: its row count and its columns by name.  Every column
    that [calculate_tracking_stats] and the heat map read ([s], [a], [dis],
    [ts], [play_id], [playId], [dir], [x], [y]) is numeric; [ts] is the
    timestamp in seconds. *)
Record DataFrame : Type := mkDF {
  nrows : nat;
  columns : gmap string (list (option Q))
}.

(** Every column has one entry per row. *)
Definition df_wf (df : DataFrame) : Prop :=
  map_Forall (fun _ col => length col = nrows df) (columns df).

(** [df.empty]: no rows or no columns. *)
Definition df_empty (df : DataFrame) : bool :=
  (nrows df =? 0)%nat || bool_decide (columns df = ∅).

(** Yards per second to miles per hour. *)
Definition MPH : Q := 2.045%Q.

(** The blocks of [calculate_tracking_stats], in source order.  Each one
    extends the [stats] dict built so far. *)
Definition speed_stats (df : DataFrame) (stats : gmap string Q) : gmap string Q :=
  match columns df !! "s" with
  | Some col =>
      let speeds := dropna col in
      if (0 <? length speeds)%nat then
        <["min_speed_mph" := (series_min speeds * MPH)%Q]>
          (<["avg_speed_mph" := (series_mean speeds * MPH)%Q]>
             (<["max_speed_mph" := (series_max speeds * MPH)%Q]> stats))
      else stats
  | None => stats
  end.

Definition acceleration_stats (df : DataFrame) (stats : gmap string Q) : gmap string Q :=
  match columns df !! "a" with
  | Some col =>
      let accels := dropna col in
      if (0 <? length accels)%nat then
        <["avg_acceleration" := series_mean accels]>
          (<["max_acceleration" := series_max accels]> stats)
      else stats
  | None => stats
  end.

Definition distance_stats (df : DataFrame) (stats : gmap string Q) : gmap string Q :=
  match columns df !! "dis" with
  | Some col =>
      let distances := dropna col in
      if (0 <? length distances)%nat then
        <["avg_distance_per_frame" := series_mean distances]>
          (<["total_distance" := series_sum distances]> stats)
      else stats
  | None => stats
  end.

Definition frame_stats (df : DataFrame) (stats : gmap string Q) : gmap string Q :=
  <["total_frames" := of_nat (nrows df)]> stats.

Definition time_stats (df : DataFrame) (stats : gmap string Q) : gmap string Q :=
  match columns df !! "ts" with
  | Some col =>
      let ts := dropna col in
      if (1 <? length ts)%nat then
        <["total_time_seconds" := (series_max ts - series_min ts)%Q]> stats
      else stats
  | None => stats
  end.

Definition play_stats (df : DataFrame) (stats : gmap string Q) : gmap string Q :=
  match columns df !! "play_id" with
  | Some col => <["play_count" := of_nat (nunique col)]> stats
  | None =>
      match columns df !! "playId" with
      | Some col => <["play_count" := of_nat (nunique col)]> stats
      | None => stats
      end
  end.

(** The deltas are exact here; [Binary64.significant_changes] rounds them as
    the program does. *)
Definition significant_changes (dirs : list Q) : nat :=
  let dir_changes := series_abs (diff dirs) in
  let dir_changes := map wraparound dir_changes in
  count_gt 45 dir_changes.

Definition direction_stats (df : DataFrame) (stats : gmap string Q) : gmap string Q :=
  match columns df !! "dir" with
  | Some col =>
      let dirs := dropna col in
      if (1 <? length dirs)%nat then
        <["direction_changes" := of_nat (significant_changes dirs)]> stats
      else stats
  | None => stats
  end.

Definition calculate_tracking_stats (df : DataFrame) : gmap string Q :=
  if df_empty df then ∅
  else
    direction_stats df
      (play_stats df
         (time_stats df
            (frame_stats df
               (distance_stats df
                  (acceleration_stats df
                     (speed_stats df ∅)))))).

(** *** Zone analysis of the heat-map view *)

(** [(mask).sum()] over a coordinate array. *)
Definition count_if (p : Q -> bool) (coords : list Q) : nat :=
  length (List.filter p coords).

(** The locals of the zone analysis.  [right_side] is computed by the source
    and not displayed. *)
Record ZoneCounts : Type := mkZones {
  left_side : nat;
  right_side : nat;
  total : nat;
  deep : nat;
  middle : nat
}.

(** The heat-map branch runs when both coordinate columns exist; [total] is
    the number of valid x coordinates. *)
Definition zone_counts (display_tracking : DataFrame) : option ZoneCounts :=
  match columns display_tracking !! "x", columns display_tracking !! "y" with
  | Some xs, Some ys =>
      let x_coords := dropna xs in
      let y_coords := dropna ys in
      Some {|
        left_side := count_if (fun x => Qltb x 60) x_coords;
        right_side := count_if (fun x => Qgeb x 60) x_coords;
        total := length x_coords;
        deep := count_if (fun x => Qltb x 30 || Qgtb x 90) x_coords;
        middle := count_if (fun y => Qgtb y 20 && Qltb y 33.3) y_coords
      |}
  | _, _ => None
  end.

(** [count / total * 100] with a numpy integer count: a zero [total] gives
    NaN or infinity (with a warning), here [None]. *)
Definition percent (count total : nat) : option Q :=
  if (total =? 0)%nat then None
  else Some (of_nat count / of_nat total * 100)%Q.

(** The three displayed metrics. *)
Definition left_side_pct (z : ZoneCounts) : option Q := percent (left_side z) (total z).
Definition end_zone_area_pct (z : ZoneCounts) : option Q := percent (deep z) (total z).
Definition middle_of_field_pct (z : ZoneCounts) : option Q := percent (middle z) (total z).

End Tracking.

(** ** The rankings table: filters, sorting and draft-pick text *)

Module Rankings.
Import Py Series.

(** One row of the rankings table.  A missing value (NaN) is [None]. *)
Record Prospect : Type := mkProspect {
  player_display_name : string;
  position : string;
  player_category : option string;
  draft_season : option Q;
  RAS : option Q;
  athletic_potential_rank : option Q;
  college_production_rank : option Q;
  nfl_production_rank : option Q;
  composite_rank : option Q
}.

(** The table: the names of its columns and its rows.  [position] and
    [player_category] are read without a guard, [draft_season] and [RAS]
    only when the column exists. *)
Record RankingsDF : Type := mkRankings {
  rk_columns : list string;
  rk_rows : list Prospect
}.

Definition CATEGORY_ORDER : list string :=
  ["Elite"; "Producer"; "Prospect"; "Riser"; "Risk"; "Developmental"].

(** [series.unique().tolist()]: the distinct values in order of first
    appearance, NaN included. *)
Fixpoint unique_from (seen l : list (option string)) : list (option string) :=
  match l with
  | [] => []
  | c :: l' =>
      if bool_decide (c ∈ seen) then unique_from seen l'
      else c :: unique_from (c :: seen) l'
  end.

Definition unique (l : list (option string)) : list (option string) :=
  unique_from [] l.

Definition all_categories_in_data (rankings_df : RankingsDF) : list (option string) :=
  unique (map player_category (rk_rows rankings_df)).

(** The options of the category multiselect, and its default value. *)
Definition available_categories (rankings_df : RankingsDF) : list (option string) :=
  match filter (fun c => Some c ∈ all_categories_in_data rankings_df) CATEGORY_ORDER with
  | [] => all_categories_in_data rankings_df
  | known => map Some known
  end.

(** The values of the four sidebar widgets. *)
Record FilterSpec : Type := mkSpec {
  position_filter : string;
  selected_categories : list (option string);
  year_range : Z * Z;
  ras_range : Q * Q
}.

Definition apply_position (position_filter : string) (rows : list Prospect) : list Prospect :=
  if bool_decide (position_filter <> "All") then
    filter (fun r => position r = position_filter) rows
  else rows.

Definition apply_categories (selected : list (option string))
    (rows : list Prospect) : list Prospect :=
  match selected with
  | [] => rows
  | _ => filter (fun r => player_category r ∈ selected) rows
  end.

(** [sorted(filtered_df['draft_season'].dropna().unique())]; only its length
    and its extremes are used. *)
Definition years (rows : list Prospect) : list Q :=
  distinct (dropna (map draft_season rows)).

(** The slider is shown, and the year filter applied, when the column exists
    and more than one distinct year is left. *)
Definition year_filter_active (cols : list string) (rows : list Prospect) : bool :=
  bool_decide ("draft_season" ∈ cols) && (1 <? length (years rows))%nat.

(** [(col >= lo) & (col <= hi)]; a comparison with NaN is false. *)
Definition between (lo hi : Q) (v : option Q) : bool :=
  match v with
  | Some x => Qgeb x lo && Qle_bool x hi
  | None => false
  end.

Definition isna (v : option Q) : bool :=
  match v with
  | Some _ => false
  | None => true
  end.

Definition apply_year (cols : list string) (year_range : Z * Z)
    (rows : list Prospect) : list Prospect :=
  if year_filter_active cols rows then
    filter (fun r => Is_true
      (between (inject_Z year_range.1) (inject_Z year_range.2) (draft_season r))) rows
  else rows.

(** [(RAS >= lo) & (RAS <= hi) | RAS.isna()]: [&] binds tighter than [|]. *)
Definition apply_ras (cols : list string) (ras_range : Q * Q)
    (rows : list Prospect) : list Prospect :=
  if bool_decide ("RAS" ∈ cols) then
    filter (fun r => Is_true
      (between ras_range.1 ras_range.2 (RAS r) || isna (RAS r))) rows
  else rows.

(** The stages of the sidebar, in source order. *)
Definition after_categories (spec : FilterSpec) (rankings_df : RankingsDF) : list Prospect :=
  apply_categories (selected_categories spec)
    (apply_position (position_filter spec) (rk_rows rankings_df)).

Definition after_year (spec : FilterSpec) (rankings_df : RankingsDF) : list Prospect :=
  apply_year (rk_columns rankings_df) (year_range spec)
    (after_categories spec rankings_df).

Definition filter_pipeline (spec : FilterSpec) (rankings_df : RankingsDF) : list Prospect :=
  apply_ras (rk_columns rankings_df) (ras_range spec) (after_year spec rankings_df).

(** *** Sorting *)

(** The order of [sort_values] on one float column: NaN last in either
    direction. *)
Definition key_le (ascending : bool) (a b : option Q) : bool :=
  match a, b with
  | Some x, Some y => if ascending then Qle_bool x y else Qle_bool y x
  | Some _, None => true
  | None, Some _ => false
  | None, None => true
  end.

(** A stable sort.  Rows with equal keys keep their order, which is what the
    two-column sort of [create_great_table] does; the one-column sort of the
    rankings tab leaves the order of equal keys to the algorithm. *)
Fixpoint insert_by {A : Type} (le : A -> A -> bool) (x : A) (l : list A) : list A :=
  match l with
  | [] => [x]
  | y :: l' => if le x y then x :: y :: l' else y :: insert_by le x l'
  end.

Definition sort_by {A : Type} (le : A -> A -> bool) (l : list A) : list A :=
  fold_right (insert_by le) [] l.

Definition sort_values (key : Prospect -> option Q) (ascending : bool)
    (rows : list Prospect) : list Prospect :=
  sort_by (fun a b => key_le ascending (key a) (key b)) rows.

(** The choices of the "Sort By" box and [sort_map]. *)
Inductive SortBy : Set :=
| CompositeRank
| ByRAS
| AthleticRank
| CollegeRank
| NFLRank.

Definition sort_map (sort_by : SortBy) : (Prospect -> option Q) * bool :=
  match sort_by with
  | CompositeRank => (composite_rank, true)
  | ByRAS => (RAS, false)
  | AthleticRank => (athletic_potential_rank, true)
  | CollegeRank => (college_production_rank, true)
  | NFLRank => (nfl_production_rank, true)
  end.

Definition sorted_df (sort_by : SortBy) (filtered_df : list Prospect) : list Prospect :=
  let '(sort_col, ascending) := sort_map sort_by in
  sort_values sort_col ascending filtered_df.

(** [CATEGORY_ORDER.index(x) if x in CATEGORY_ORDER else 99] *)
Fixpoint index_of (x : string) (l : list string) : option nat :=
  match l with
  | [] => None
  | y :: l' => if bool_decide (x = y) then Some 0%nat else S <$> index_of x l'
  end.

Definition Category_Order (c : option string) : nat :=
  match c with
  | Some x => default 99%nat (index_of x CATEGORY_ORDER)
  | None => 99%nat
  end.

(** [sort_values(['Category_Order', 'Overall'], ascending=[True, True])],
    where [Overall] is the renamed [composite_rank]. *)
Definition table_le (a b : Prospect) : bool :=
  let ca := Category_Order (player_category a) in
  let cb := Category_Order (player_category b) in
  (ca <? cb)%nat || ((ca =? cb)%nat && key_le true (composite_rank a) (composite_rank b)).

(** The row order of the table that [create_great_table] hands to the
    renderer.  The column formatting that follows maps each row on its own
    and keeps the order. *)
Definition create_great_table (df : list Prospect) : list Prospect :=
  sort_by table_le df.

(** The rankings tab: sort by the chosen key, then build the table. *)
Definition rankings_table (sort_by : SortBy) (filtered_df : list Prospect) : list Prospect :=
  create_great_table (sorted_df sort_by filtered_df).

(** *** Draft-pick text *)

(** The numeric entries of a row (a pandas [Series]) by column name. *)
Definition getitem (row : gmap string (option Q)) (k : string) : result (option Q) :=
  match row !! k with
  | Some v => Ok v
  | None => Raise KeyError
  end.

(** [pd.isna(row.get(k))]: an absent key reads as [None], which is missing. *)
Definition isna_get (row : gmap string (option Q)) (k : string) : bool :=
  match row !! k with
  | Some (Some _) => false
  | _ => true
  end.

(** [int(x)] of a float: NaN raises [ValueError]. *)
Definition py_int (v : option Q) : result Z :=
  match v with
  | Some x => Ok (int_of x)
  | None => Raise ValueError
  end.

Definition format_draft_pick (row : gmap string (option Q)) : result string :=
  if isna_get row "draft_round" then Ok "UDFA"
  else
    bind (getitem row "draft_round") (fun r =>
    bind (py_int r) (fun round =>
    bind (getitem row "draft_overall_selection") (fun p =>
    bind (py_int p) (fun pick =>
    Ok ("R" +:+ str_of_int round +:+ " #" +:+ str_of_int pick))))).

End Rankings.

(** ** The comparison table: [highlight_cells] *)

Module Compare.
Import Py.
Import PrimFloat.

(** A cell of the comparison table: NaN or [None], a text, or a float. *)
Inductive cell : Type :=
| CMissing
| CStr (s : string)
| CNum (f : PrimFloat.float).

(** [s.replace(c, '')] for a one-character [c]. *)
Fixpoint remove_char (c : ascii) (s : string) : string :=
  match s with
  | EmptyString => EmptyString
  | String a s' =>
      if Ascii.eqb a c then remove_char c s' else String a (remove_char c s')
  end.

(** The ASCII characters that [str.strip()] removes.  Strings are UTF-8 byte
    strings here, and the whitespace characters beyond ASCII are left in
    place; [float] skips surrounding whitespace itself, so the parse result
    is the same. *)
Definition is_space (a : ascii) : bool :=
  let n := nat_of_ascii a in
  ((9 <=? n) && (n <=? 13) || (28 <=? n) && (n <=? 32))%nat.

Fixpoint lstrip (s : string) : string :=
  match s with
  | EmptyString => EmptyString
  | String a s' => if is_space a then lstrip s' else s
  end.

Fixpoint rstrip (s : string) : string :=
  match s with
  | EmptyString => EmptyString
  | String a s' =>
      match rstrip s' with
      | EmptyString => if is_space a then EmptyString else String a EmptyString
      | t => String a t
      end
  end.

Definition strip (s : string) : string := rstrip (lstrip s).

(** [str(val).replace('%', '').replace('#', '').strip()] *)
Definition clean (s : string) : string :=
  strip (remove_char "#" (remove_char "%" s)).

(** Python's [max] and [min] of a non-empty list of floats: the running
    extreme is replaced when the next item compares strictly beyond it. *)
Definition py_max_list (values : list PrimFloat.float) : PrimFloat.float :=
  match values with
  | [] => PrimFloat.nan
  | v :: rest => fold_left (fun m x => if PrimFloat.ltb m x then x else m) rest v
  end.

Definition py_min_list (values : list PrimFloat.float) : PrimFloat.float :=
  match values with
  | [] => PrimFloat.nan
  | v :: rest => fold_left (fun m x => if PrimFloat.ltb x m then x else m) rest v
  end.

(** Float division: a zero divisor raises. *)
Definition py_div (x y : PrimFloat.float) : result PrimFloat.float :=
  if PrimFloat.eqb y PrimFloat.zero then Raise ZeroDivisionError
  else Ok (PrimFloat.div x y).

Definition BEST : string :=
  "background-color: #28a745; color: white; font-weight: bold".
Definition NEAR : string :=
  "background-color: #d4edda; color: #155724".

(** The float literal [0.7]. *)
Definition ratio_threshold : PrimFloat.float := 0x1.6666666666666p-1%float.

Section Highlight.

(** The builtins [float(s)] ([None] when it raises [ValueError]) and [str(x)]
    of a float. *)
Variable py_float : string -> option PrimFloat.float.
Variable py_str : PrimFloat.float -> string.

(** [pd.notna(val)] *)
Definition notna (c : cell) : bool :=
  match c with
  | CMissing => false
  | CStr _ => true
  | CNum f => negb (PrimFloat.is_nan f)
  end.

(** [str(val)] of a cell that is not missing. *)
Definition str (c : cell) : string :=
  match c with
  | CMissing => "nan"
  | CStr s => s
  | CNum f => py_str f
  end.

(** The body of the [try] block for one cell: the number appended to
    [values], or [None] when the cell is skipped or [float] raises. *)
Definition parse_cell (c : cell) : option PrimFloat.float :=
  if notna c && negb (bool_decide (str c ∈ ["N/A"; "—"; ""])) then
    py_float (clean (str c))
  else None.

(** The loop [for idx in range(1, len(row))] run on the cells from index
    [idx] on: the lists [values] and [indices]. *)
Fixpoint numeric_cells (idx : nat) (cells : list cell)
    : list PrimFloat.float * list nat :=
  match cells with
  | [] => ([], [])
  | c :: cells' =>
      let '(values, indices) := numeric_cells (S idx) cells' in
      match parse_cell c with
      | Some v => (v :: values, idx :: indices)
      | None => (values, indices)
      end
  end.

(** The style chosen for one numeric cell, [None] when it keeps its style. *)
Definition style_cell (higher_better : bool) (best_val : PrimFloat.float)
    (values : list PrimFloat.float) (val : PrimFloat.float) : result (option string) :=
  if PrimFloat.eqb val best_val then Ok (Some BEST)
  else if higher_better && negb (PrimFloat.eqb best_val (py_min_list values)) then
    bind (py_div (PrimFloat.sub val (py_min_list values))
                 (PrimFloat.sub best_val (py_min_list values)))
      (fun ratio =>
         Ok (if PrimFloat.ltb ratio_threshold ratio then Some NEAR else None))
  else if negb higher_better && negb (PrimFloat.eqb best_val (py_max_list values)) then
    bind (py_div (PrimFloat.sub (py_max_list values) val)
                 (PrimFloat.sub (py_max_list values) best_val))
      (fun ratio =>
         Ok (if PrimFloat.ltb ratio_threshold ratio then Some NEAR else None))
  else Ok None.

(** [for idx, val in zip(indices, values)] *)
Fixpoint style_loop (higher_better : bool) (best_val : PrimFloat.float)
    (values : list PrimFloat.float) (todo : list (nat * PrimFloat.float))
    (styles : list string) : result (list string) :=
  match todo with
  | [] => Ok styles
  | (idx, val) :: todo' =>
      bind (style_cell higher_better best_val values val) (fun st =>
        style_loop higher_better best_val values todo'
          (match st with
           | Some s => <[idx := s]> styles
           | None => styles
           end))
  end.

(** [metrics_config[metric]] when [metric in metrics_config]; the keys are
    the metric names, so a cell that is not a text is not a key. *)
Definition config_of (metrics_config : gmap string bool) (metric : cell) : option bool :=
  match metric with
  | CStr m => metrics_config !! m
  | _ => None
  end.

Definition highlight_cells (metrics_config : gmap string bool) (row : list cell)
    : result (list string) :=
  let styles := replicate (length row) "" in
  match row with
  | [] => Raise IndexError
  | metric :: cells =>
      match config_of metrics_config metric with
      | None => Ok styles
      | Some higher_better =>
          let '(values, indices) := numeric_cells 1 cells in
          if (length values <? 2)%nat then Ok styles
          else
            let best_val :=
              if higher_better then py_max_list values else py_min_list values in
            style_loop higher_better best_val values (zip indices values) styles
      end
  end.

End Highlight.

(** *** A concrete [float] on plain decimal numerals

    The comparison table holds texts such as ["85.3"], ["#12"] and ["N/A"].
    [decimal_float] reads an optional sign, digits and an optional fraction;
    the quotient of two exactly represented integers is correctly rounded, so
    on short numerals it is the value of [float].  It rejects the other
    spellings that [float] accepts (exponents, [inf], [nan], underscores). *)

Fixpoint float_of_pos (p : positive) : PrimFloat.float :=
  match p with
  | xH => PrimFloat.one
  | xO p' => PrimFloat.mul PrimFloat.two (float_of_pos p')
  | xI p' => PrimFloat.add (PrimFloat.mul PrimFloat.two (float_of_pos p')) PrimFloat.one
  end.

Definition float_of_N (n : N) : PrimFloat.float :=
  match n with
  | N0 => PrimFloat.zero
  | Npos p => float_of_pos p
  end.

Definition digit_of (a : ascii) : option N :=
  let n := N_of_ascii a in
  if ((48 <=? n) && (n <=? 57))%N then Some (n - 48)%N else None.

(** The digits of [s] appended to [acc]; [None] on any other character. *)
Fixpoint read_digits (acc : N) (s : string) : option N :=
  match s with
  | EmptyString => Some acc
  | String a s' =>
      match digit_of a with
      | Some d => read_digits (10 * acc + d)%N s'
      | None => None
      end
  end.

Fixpoint split_dot (s : string) : string * option string :=
  match s with
  | EmptyString => (EmptyString, None)
  | String a s' =>
      if Ascii.eqb a "." then (EmptyString, Some s')
      else let '(i, f) := split_dot s' in (String a i, f)
  end.

Definition unsigned_decimal (s : string) : option PrimFloat.float :=
  let '(i, f) := split_dot s in
  let frac := default EmptyString f in
  if ((String.length i + String.length frac)%nat =? 0)%nat then None
  else
    match read_digits 0 (i +:+ frac) with
    | Some m =>
        Some (PrimFloat.div (float_of_N m)
                (float_of_N (10 ^ N.of_nat (String.length frac))))
    | None => None
    end.

Definition decimal_float (s : string) : option PrimFloat.float :=
  match s with
  | String "-" s' => PrimFloat.opp <$> unsigned_decimal s'
  | String "+" s' => unsigned_decimal s'
  | _ => unsigned_decimal s
  end.

(** [str] of a float is not needed for a table of texts. *)
Definition no_float_cells (f : PrimFloat.float) : string := "nan".

End Compare.

(** ** The speed and direction blocks in binary64

    pandas computes on IEEE binary64 numbers.  The two blocks of
    [calculate_tracking_stats] whose results depend on rounding are repeated
    here over [PrimFloat], on the non-missing samples of the column. *)

Module Binary64.
Import Py.
Import PrimFloat.

(** The float literals [2.045], [360] and [45]. *)
Definition MPH : float := 0x1.05c28f5c28f5cp+1%float.
Definition turn : float := 0x1.68p+8%float.
Definition threshold : float := 0x1.68p+5%float.

(** [series.max()] and [series.min()] of samples without NaN. *)
Definition series_max (l : list float) : float := Compare.py_max_list l.
Definition series_min (l : list float) : float := Compare.py_min_list l.

(** [series.sum()]: fewer than eight values are added one after the other,
    starting from zero.  Longer arrays are added in blocks, which is not
    modelled: [None]. *)
Definition series_sum (l : list float) : option float :=
  if (length l <? 8)%nat then Some (fold_left add l zero) else None.

(** [series.mean()]: the sum divided by the number of samples. *)
Definition series_mean (l : list float) : option float :=
  match series_sum l with
  | Some s => Some (div s (Compare.float_of_N (N.of_nat (length l))))
  | None => None
  end.

(** The values stored under [max_speed_mph], [avg_speed_mph] and
    [min_speed_mph] for the non-missing samples [speeds]; [None] when the
    block stores nothing, and for eight or more samples, whose sum is not
    modelled. *)
Definition speed_stats (speeds : list float) : option (float * float * float) :=
  if (0 <? length speeds)%nat then
    match series_mean speeds with
    | Some avg =>
        Some (mul (series_max speeds) MPH, mul avg MPH, mul (series_min speeds) MPH)
    | None => None
    end
  else None.

(** [series.diff()] and [series.abs()] *)
Fixpoint diff_from (prev : float) (l : list float) : list (option float) :=
  match l with
  | [] => []
  | v :: l' => Some (sub v prev) :: diff_from v l'
  end.

Definition diff (l : list float) : list (option float) :=
  match l with
  | [] => []
  | v :: l' => None :: diff_from v l'
  end.

Definition series_abs (l : list (option float)) : list (option float) :=
  map (option_map abs) l.

(** Python's [min(a, b)]: [b] when [b < a], else [a]. *)
Definition py_min (a b : float) : float := if ltb b a then b else a.

(** [lambda x: min(x, 360 - x) if pd.notna(x) else 0] *)
Definition wraparound (x : option float) : float :=
  match x with
  | Some v => py_min v (sub turn v)
  | None => zero
  end.

(** [(series > t).sum()] *)
Definition count_gt (t : float) (l : list float) : nat :=
  length (List.filter (fun x => ltb t x) l).

Definition significant_changes (dirs : list float) : nat :=
  let dir_changes := series_abs (diff dirs) in
  let dir_changes := map wraparound dir_changes in
  count_gt threshold dir_changes.

(** The value stored under [direction_changes] for the non-missing headings
    [dirs]; [None] when the block stores nothing. *)
Definition direction_stats (dirs : list float) : option nat :=
  if (1 <? length dirs)%nat then Some (significant_changes dirs) else None.

(** Sample values: the binary64 numbers of the decimal texts 0.1, 19.4,
    64.4, 379.4 and 424.4, and the binary64 number next above 45. *)
Definition d0_1 : float := 0x1.999999999999ap-4%float.
Definition d19_4 : float := 0x1.3666666666666p+4%float.
Definition d64_4 : float := 0x1.019999999999ap+6%float.
Definition d379_4 : float := 0x1.7b66666666666p+8%float.
Definition d424_4 : float := 0x1.a866666666666p+8%float.
Definition above_45 : float := 0x1.6800000000001p+5%float.

(** The binary64 numbers written 0.20450000000000002 and
    0.20450000000000004 by Python. *)
Definition d0_2045 : float := 0x1.a2d0e56041894p-3%float.
Definition d0_2045_up : float := 0x1.a2d0e56041895p-3%float.

End Binary64.

(** ** The statistics of the specification *)

Module TrackingSpec.
Import Py Series Tracking.

#[export] Instance Qlt_decision (x y : Q) : Decision (x < y)%Q.
Proof.
  destruct (Qlt_le_dec x y) as [H | H]; [left; exact H | right].
  apply Qle_not_lt, H.
Defined.

#[export] Instance Qle_decision (x y : Q) : Decision (x <= y)%Q.
Proof.
  destruct (Qlt_le_dec y x) as [H | H]; [right | left; exact H].
  apply Qlt_not_le, H.
Defined.

(** Circular distance between two headings, as the specification writes it. *)
Definition circular_dist (d1 d2 : Q) : Q :=
  Qmin (Qabs (d1 - d2)) (360 - Qabs (d1 - d2)).

(** The pairs of successive headings; the first heading has no predecessor. *)
Definition heading_pairs (l : list Q) : list (Q * Q) := zip l (tail l).

(** The non-missing headings of a column, in frame order. *)
Definition non_missing (col : list (option Q)) : list Q := omap id col.




Definition direction_changes_spec (l : list Q) : nat :=
  length (filter (fun p => (45 < circular_dist p.1 p.2)%Q) (heading_pairs l)).

(** [M] is the maximum (minimum) of the samples [l]: one of them, and a bound
    of all of them. *)
Definition is_maximum (l : list Q) (M : Q) : Prop :=
  M ∈ l /\ forall v, v ∈ l -> (v <= M)%Q.

Definition is_minimum (l : list Q) (m : Q) : Prop :=
  m ∈ l /\ forall v, v ∈ l -> (m <= v)%Q.

(** [A] is the mean of the samples [l]: [A] times their number is their sum. *)
Definition is_mean (l : list Q) (A : Q) : Prop :=
  (A * of_nat (length l) == fold_right Qplus 0 l)%Q.

(** The source column is missing or has no non-missing value. *)
Definition no_values (df : DataFrame) (column : string) : Prop :=
  match columns df !! column with
  | Some col => dropna col = []
  | None => True
  end.

(** The statistics that are computed from the samples of one column, each
    with its source column. *)
Definition stat_sources : list (string * string) :=
  [("max_speed_mph", "s"); ("avg_speed_mph", "s"); ("min_speed_mph", "s");
   ("max_acceleration", "a"); ("avg_acceleration", "a");
   ("total_distance", "dis"); ("avg_distance_per_frame", "dis");
   ("total_time_seconds", "ts"); ("direction_changes", "dir")].

(** The table [df] with the column [name] replaced by [col]. *)
Definition set_column (name : string) (col : list (option Q)) (df : DataFrame) : DataFrame :=
  mkDF (nrows df) (<[name := col]> (columns df)).

(** Relabeling every heading by +360 degrees. *)
Definition shift_360 (col : list (option Q)) : list (option Q) :=
  map (option_map (fun d => d + 360)%Q) col.

(** Two heading columns that agree modulo 360 degrees, frame by frame. *)
Definition heading_equiv (a b : option Q) : Prop :=
  match a, b with
  | Some x, Some y => exists k : Z, (y == x + 360 * inject_Z k)%Q
  | None, None => True
  | _, _ => False
  end.

Definition equiv_mod_360 (col col' : list (option Q)) : Prop :=
  Forall2 heading_equiv col col'.

(** Every heading lies in the range 0 to 360 of the data model. *)
Definition heading_in_range (a : option Q) : Prop :=
  match a with
  | Some x => (0 <= x /\ x <= 360)%Q
  | None => True
  end.

(** A signed heading delta counts as a change when its size lies strictly
    between 45 and 315 degrees. *)
Definition significant (d : Q) : Prop :=
  (45 < d /\ d < 315)%Q \/ (-315 < d /\ d < -45)%Q.

(** Headings in range that agree modulo 360. *)
Definition same_heading (x y : Q) : Prop :=
  (0 <= x /\ x <= 360)%Q /\ (0 <= y /\ y <= 360)%Q /\
  exists k : Z, (y == x + 360 * inject_Z k)%Q.

(** Two headings that agree modulo 360 degrees. *)
Definition agree_mod_360 (x y : Q) : Prop :=
  exists k : Z, (y == x + 360 * inject_Z k)%Q.

(** No step between successive headings is larger than a full turn. *)
Definition steps_within_turn (l : list Q) : Prop :=
  Forall (fun p => (Qabs (p.2 - p.1) <= 360)%Q) (heading_pairs l).

(** The share of the valid coordinates that lie in a zone, in percent. *)
Definition zone_share (zone : Q -> bool) (coords : list (option Q)) : option Q :=
  percent (count_if zone (dropna coords)) (length (dropna coords)).

Definition in_left_half (x : Q) : bool := Qltb x 60.
Definition in_right_half (x : Q) : bool := Qgeb x 60.
Definition in_middle_band (y : Q) : bool := Qgtb y 20 && Qltb y 33.3.

End TrackingSpec.

(** ** The rankings table of the specification *)

Module RankingsSpec.
Import Py Series Rankings.

(** At least two distinct draft years exist among the rows. *)
Definition two_distinct_years (rows : list Prospect) : Prop :=
  exists (r1 r2 : Prospect) (y1 y2 : Q),
    r1 ∈ rows /\ r2 ∈ rows /\
    draft_season r1 = Some y1 /\ draft_season r2 = Some y2 /\ ~ (y1 == y2)%Q.

(** Rows appear by category in the fixed display order, unrecognized
    categories last. *)
Definition grouped_in_display_order (rows : list Prospect) : Prop :=
  forall (i j : nat) (a b : Prospect),
    (i < j)%nat -> rows !! i = Some a -> rows !! j = Some b ->
    (Category_Order (player_category a) <= Category_Order (player_category b))%nat.

(** Within each category group the rows are ordered by a sort key. *)
Definition ordered_within_groups (key : Prospect -> option Q) (ascending : bool)
    (rows : list Prospect) : Prop :=
  forall (i j : nat) (a b : Prospect),
    (i < j)%nat -> rows !! i = Some a -> rows !! j = Some b ->
    player_category a = player_category b ->
    key_le ascending (key a) (key b) = true.

(** The widget values [spec] with the category selection replaced. *)
Definition with_categories (spec : FilterSpec) (selected : list (option string)) : FilterSpec :=
  {| position_filter := position_filter spec;
     selected_categories := selected;
     year_range := year_range spec;
     ras_range := ras_range spec |}.

End RankingsSpec.

(** ** Sample tables *)

Module Samples.
Import Py Series Tracking Rankings.

(** A table with the single column [name]. *)
Definition single_column (name : string) (col : list (option Q)) : DataFrame :=
  mkDF (length col) {[ name := col ]}.

(** A table with the two coordinate columns. *)
Definition xy_table (xs ys : list (option Q)) : DataFrame :=
  mkDF (length xs) (<["x" := xs]> {[ "y" := ys ]}).

(** The empty tracking table, and a one-frame table whose only column holds
    no play identifier. *)
Definition no_frames : DataFrame := mkDF 0 ∅.
Definition one_frame_no_play : DataFrame := single_column "play_id" [None].

(** Two Elite cornerbacks: the better composite rank has the lower RAS. *)
Definition adams : Prospect :=
  mkProspect "Adams" "CB" (Some "Elite") (Some 2024%Q) (Some 5%Q)
    (Some 4%Q) (Some 1%Q) (Some 2%Q) (Some 1%Q).
Definition baker : Prospect :=
  mkProspect "Baker" "CB" (Some "Elite") (Some 2025%Q) (Some 9%Q)
    (Some 1%Q) (Some 3%Q) (Some 1%Q) (Some 2%Q).

(** A safety in a category outside [CATEGORY_ORDER], with no RAS and no
    draft year. *)
Definition cole : Prospect :=
  mkProspect "Cole" "SAF" (Some "Sleeper") None None
    (Some 2%Q) (Some 2%Q) None (Some 3%Q).

Definition all_columns : list string :=
  ["player_display_name"; "position"; "player_category"; "draft_season";
   "RAS"; "athletic_potential_rank"; "college_production_rank";
   "nfl_production_rank"; "composite_rank"].

Definition rankings_df : RankingsDF := mkRankings all_columns [adams; baker; cole].

(** A cornerback in a category outside [CATEGORY_ORDER], with every value
    present. *)
Definition dunn : Prospect :=
  mkProspect "Dunn" "CB" (Some "Sleeper") (Some 2024%Q) (Some 7%Q)
    (Some 3%Q) (Some 4%Q) (Some 3%Q) (Some 4%Q).

Definition mixed_df : RankingsDF := mkRankings all_columns [adams; baker; dunn].
Definition elite_df : RankingsDF := mkRankings all_columns [adams; baker].

(** All positions, the given categories, every year and every RAS. *)
Definition wide_open (selected : list (option string)) : FilterSpec :=
  mkSpec "All" selected (2024, 2025)%Z (0, 10)%Q.

(** A drafted player whose overall selection is missing. *)
Definition round_without_pick : gmap string (option Q) :=
  <["draft_round" := Some 1%Q]> {[ "draft_overall_selection" := None ]}.

Definition first_round_pick : gmap string (option Q) :=
  <["draft_round" := Some 1%Q]> {[ "draft_overall_selection" := Some 15%Q ]}.

(** Rows of the comparison table, and its configuration: RAS is better when
    higher. *)
Definition ras_config : gmap string bool := {[ "RAS" := true ]}.

Definition ras_row : list Compare.cell :=
  [Compare.CStr "RAS"; Compare.CStr "9.5"; Compare.CStr "N/A";
   Compare.CStr "7.0"; Compare.CStr "9.4"].

Definition lone_ras_row : list Compare.cell :=
  [Compare.CStr "RAS"; Compare.CStr "9.5"; Compare.CStr "N/A";
   Compare.CStr "n/a"].


End Samples.

(** ** The tracking views: speed chart, frame stepper, heading arrow *)

Module TrackingViews.
Import Py Series Tracking.

(** The speed distribution chart: [display_tracking['s'].dropna() * 2.045],
    then its [mean()] and [max()] for the two vertical lines.  Without a
    sample both are NaN, here [None]. *)
Definition speeds_mph (col : list (option Q)) : list Q :=
  map (fun s => s * MPH)%Q (dropna col).

Definition speed_lines (display_tracking : DataFrame) : option (option Q * option Q) :=
  match columns display_tracking !! "s" with
  | Some col =>
      match speeds_mph col with
      | [] => Some (None, None)
      | l => Some (Some (series_mean l), Some (series_max l))
      end
  | None => None
  end.

(** [current_data.get(column, 0)] for [current_data = display_tracking.iloc[i]]
    at a frame [i] of the slider (below the number of rows): [None] when the
    column is absent (the default 0 is used), [Some None] when the value is
    NaN. *)
Definition frame_get (display_tracking : DataFrame) (i : nat) (column : string)
    : option (option Q) :=
  match columns display_tracking !! column with
  | Some col => Some (mjoin (col !! i))
  | None => None
  end.

(** [speed_val = current_data.get('s', 0)] and
    [speed_mph = speed_val * 2.045 if pd.notna(speed_val) else 0] *)
Definition frame_speed_mph (display_tracking : DataFrame) (i : nat) : Q :=
  match frame_get display_tracking i "s" with
  | Some (Some speed_val) => (speed_val * MPH)%Q
  | Some None => 0%Q
  | None => (0 * MPH)%Q
  end.

(** ['red' if speed_mph > 15 else 'yellow' if speed_mph > 10 else 'lime'] *)
Definition speed_color (speed_mph : Q) : string :=
  if Qgtb speed_mph 15 then "red"
  else if Qgtb speed_mph 10 then "yellow"
  else "lime".

(** The two path traces of the frame stepper over one coordinate column:
    [iloc[:current_frame + 1]] when [current_frame > 0], and
    [iloc[current_frame:]] when [current_frame < total_frames - 1]. *)
Definition path_history {A : Type} (frames : list A) (current_frame : nat)
    : option (list A) :=
  if (0 <? current_frame)%nat then Some (take (current_frame + 1) frames)
  else None.

Definition future_path {A : Type} (frames : list A) (current_frame : nat)
    : option (list A) :=
  if (current_frame <? length frames - 1)%nat then Some (drop current_frame frames)
  else None.


(** *** The displayed table

    The statistics are computed from [player_tracking]; the views draw
    [display_tracking], the rows of one play or of all plays, in timestamp
    order. *)

(** [df.iloc[idx]] with the index reset: the rows at the positions [idx], in
    that order. *)
Definition take_rows (idx : list nat) (df : DataFrame) : DataFrame :=
  mkDF (length idx) ((fun col => map (fun i => mjoin (col !! i)) idx) <$> columns df).

(** The positions, counted from [i], of the values that satisfy [p]. *)
Fixpoint positions_from (i : nat) (p : option Q -> bool) (col : list (option Q))
    : list nat :=
  match col with
  | [] => []
  | v :: col' =>
      if p v then i :: positions_from (S i) p col'
      else positions_from (S i) p col'
  end.

(** [player_tracking[play_col] == selected_play]: NaN equals nothing. *)
Definition is_play (selected_play : option Q) (v : option Q) : bool :=
  match selected_play, v with
  | Some p, Some x => Qeq_bool x p
  | _, _ => false
  end.

(** The column of play identifiers: [play_id], else [playId]. *)
Definition play_col (player_tracking : DataFrame) : option (list (option Q)) :=
  match columns player_tracking !! "play_id" with
  | Some col => Some col
  | None => columns player_tracking !! "playId"
  end.

(** The radio button, with the play chosen from [unique_plays]. *)
Inductive play_option : Type :=
| AllPlaysCombined
| IndividualPlay (selected_play : option Q).

Definition select_play (player_tracking : DataFrame) (view : play_option) : DataFrame :=
  match play_col player_tracking with
  | Some col =>
      if (1 <? nunique col)%nat then
        match view with
        | IndividualPlay selected_play =>
            take_rows (positions_from 0 (is_play selected_play) col) player_tracking
        | AllPlaysCombined => player_tracking
        end
      else player_tracking
  | None => player_tracking
  end.

(** The row positions in the order of [sort_values(column)], NaN last.  Rows
    with equal values keep their order here; pandas leaves their order to
    the sorting algorithm. *)
Definition argsort (col : list (option Q)) : list nat :=
  Rankings.sort_by
    (fun i j => Rankings.key_le true (mjoin (col !! i)) (mjoin (col !! j)))
    (seq 0 (length col)).

(** [display_tracking.sort_values('ts').reset_index(drop=True)] when the
    column exists. *)
Definition sort_by_ts (df : DataFrame) : DataFrame :=
  match columns df !! "ts" with
  | Some ts => take_rows (argsort ts) df
  | None => df
  end.

Definition display_tracking (player_tracking : DataFrame) (view : play_option)
    : DataFrame :=
  sort_by_ts (select_play player_tracking view).

End TrackingViews.

(** The heading arrow of the frame stepper.  [np.radians], [np.sin] and
    [np.cos] are read as the real functions. *)

Module HeadingArrow.
Import Reals.
Local Open Scope R_scope.

(** [np.radians(dir)] *)
Definition radians (dir : R) : R := dir * PI / 180.

Definition arrow_len : R := 3.

(** [dx = arrow_len * np.sin(dir_rad)], [dy = arrow_len * np.cos(dir_rad)] *)
Definition dx (dir : R) : R := arrow_len * sin (radians dir).
Definition dy (dir : R) : R := arrow_len * cos (radians dir).

(** The annotation runs from [(x + dx, y + dy)] to the player at [(x, y)]. *)
Definition arrow_tail (x y dir : R) : R * R := (x + dx dir, y + dy dir).

End HeadingArrow.

(** ** The rankings views: bar chart, player options, table texts *)

Module RankingsViews.
Import Py Series Rankings.

Definition CATEGORY_COLORS : gmap string string :=
  <["Elite" := "#FFD700"]> (<["Producer" := "#28a745"]>
  (<["Prospect" := "#6f42c1"]> (<["Riser" := "#17a2b8"]>
  (<["Risk" := "#dc3545"]> (<["Developmental" := "#6c757d"]> ∅))))).

(** [CATEGORY_COLORS.get(category, '#6c757d')]; a missing category is no key. *)
Definition get_category_color (category : option string) : string :=
  match category with
  | Some c => default "#6c757d" (CATEGORY_COLORS !! c)
  | None => "#6c757d"
  end.

(** [df['player_category'].value_counts().reindex(CATEGORY_ORDER).fillna(0)]:
    one count per name of [CATEGORY_ORDER], in that order. *)
Definition count_category (df : list Prospect) (c : string) : nat :=
  length (filter (fun r => player_category r = Some c) df).

Definition category_counts (df : list Prospect) : list (string * nat) :=
  map (fun c => (c, count_category df c)) CATEGORY_ORDER.

(** The bars of [create_category_bar_chart]: label, length and colour. *)
Definition create_category_bar_chart (df : list Prospect) : list (string * nat * string) :=
  map (fun '(cat, n) => (cat, n, get_category_color (Some cat))) (category_counts df).

(** *** Player options *)

(** [f"{row['position']} - {row['player_display_name']}"] *)
Definition player_option (row : Prospect) : string :=
  position row +:+ " - " +:+ player_display_name row.

(** [s] without the prefix [p], when it starts with it. *)
Fixpoint strip_prefix (p s : string) : option string :=
  match p, s with
  | EmptyString, _ => Some s
  | String a p', String b s' => if Ascii.eqb a b then strip_prefix p' s' else None
  | String _ _, EmptyString => None
  end.

(** [s.split(sep, 1)] for a non-empty [sep]: the texts before and after the
    first occurrence of [sep], or [None] when the result is the list [[s]]. *)
Fixpoint split_once (sep s : string) : option (string * string) :=
  match strip_prefix sep s with
  | Some rest => Some (EmptyString, rest)
  | None =>
      match s with
      | EmptyString => None
      | String a s' =>
          match split_once sep s' with
          | Some (before, rest) => Some (String a before, rest)
          | None => None
          end
      end
  end.

(** [selected.split(" - ", 1)[1]] *)
Definition option_name (selected : string) : result string :=
  match split_once " - " selected with
  | Some (_, name) => Ok name
  | None => Raise IndexError
  end.

(** [filtered_df[filtered_df['player_display_name'] == player_name].iloc[0]] *)
Definition player_by_name (filtered_df : list Prospect) (player_name : string)
    : result Prospect :=
  match filter (fun r => player_display_name r = player_name) filtered_df with
  | r :: _ => Ok r
  | [] => Raise IndexError
  end.

(** The profile tab: from the selected option to the row shown. *)
Definition selected_player (filtered_df : list Prospect) (selected : string)
    : result Prospect :=
  bind (option_name selected) (player_by_name filtered_df).

(** *** The texts of the table columns

    The [apply] lambdas of [create_great_table].  A text is a string of
    one-byte characters, so [len] and slicing count bytes. *)

(** [f"{int(x)}" if pd.notna(x) else "—"] (Year and the rank columns) *)
Definition int_text (x : option Q) : string :=
  match x with
  | Some v => str_of_int (int_of v)
  | None => "—"
  end.

(** [f"R{int(x)}" if pd.notna(x) else "UDFA"] *)
Definition round_text (x : option Q) : string :=
  match x with
  | Some v => "R" +:+ str_of_int (int_of v)
  | None => "UDFA"
  end.

(** [f"#{int(x)}" if pd.notna(x) else "—"] *)
Definition pick_text (x : option Q) : string :=
  match x with
  | Some v => "#" +:+ str_of_int (int_of v)
  | None => "—"
  end.

(** [x[:15] + "..." if pd.notna(x) and len(str(x)) > 18
     else (x if pd.notna(x) else "—")] (NFL Team and College) *)
Definition name_text (x : option string) : string :=
  match x with
  | Some s =>
      if (18 <? String.length s)%nat then substring 0 15 s +:+ "..." else s
  | None => "—"
  end.

(** *** The KPI cards of the dashboard tab *)

(** [value_counts()]: the categories that occur, each with its count, the
    largest count first; equal counts stay in order of first appearance. *)
Definition value_counts (df : list Prospect) : list (string * nat) :=
  sort_by (fun a b => (b.2 <=? a.2)%nat)
    (omap (fun c => c' ← c; Some (c', count_category df c'))
       (unique (map player_category df))).

(** [series.idxmax()]: the label of the first largest value; the empty series
    raises. *)
Fixpoint idxmax_from (best : string * nat) (l : list (string * nat)) : string :=
  match l with
  | [] => best.1
  | x :: l' => idxmax_from (if (best.2 <? x.2)%nat then x else best) l'
  end.

Definition idxmax (counts : list (string * nat)) : result string :=
  match counts with
  | [] => Raise ValueError
  | x :: l => Ok (idxmax_from x l)
  end.

(** [value_counts().idxmax() if len(filtered_df) > 0 else "N/A"] *)
Definition top_category (filtered_df : list Prospect) : result string :=
  if (0 <? length filtered_df)%nat then idxmax (value_counts filtered_df)
  else Ok "N/A".

(** [len(filtered_df[filtered_df['player_category'].isin(['Elite', 'Producer'])])] *)
Definition elite_count (filtered_df : list Prospect) : nat :=
  length (filter (fun r => player_category r ∈ [Some "Elite"; Some "Producer"])
            filtered_df).

End RankingsViews.

(** ** The cells of the comparison table *)

Module CompareCells.
Import Py Compare.

(** A value read from the rankings table with [player.get(col_name)]. *)
Inductive value : Type :=
| VMissing
| VFloat (v : Q)
| VInt (n : Z)
| VText (s : string).

Section Cells.

(** [f"{val:.1f}"] of a float. *)
Variable format_1f : Q -> string.

(** ['Rank' in metric_name] *)
Variable is_rank : bool.

(** The cell built for one player and one metric. *)
Definition comparison_cell (val : value) : string :=
  match val with
  | VMissing => "N/A"
  | VFloat v => if is_rank then "#" +:+ str_of_int (int_of v) else format_1f v
  | VInt n => str_of_int n
  | VText s => s
  end.

End Cells.

End CompareCells.

(** ** Vocabulary for the further properties *)

Module ViewsSpec.
Import Py Series Tracking Rankings.

(** The names a statistics mapping can hold. *)
Definition stat_keys : list string :=
  ["max_speed_mph"; "avg_speed_mph"; "min_speed_mph";
   "max_acceleration"; "avg_acceleration";
   "total_distance"; "avg_distance_per_frame";
   "total_frames"; "total_time_seconds"; "play_count"; "direction_changes"].

(** The marker colours from slow to fast. *)
Definition color_rank (color : string) : nat :=
  if bool_decide (color = "red") then 2
  else if bool_decide (color = "yellow") then 1
  else 0.

(** The row passes the position, category, year and RAS conditions of the
    sidebar; the year condition counts when the filter is active on the rows
    that reach it. *)
Definition passes (spec : FilterSpec) (rankings_df : RankingsDF) (r : Prospect) : Prop :=
  (position_filter spec = "All" \/ position r = position_filter spec) /\
  (selected_categories spec = [] \/ player_category r ∈ selected_categories spec) /\
  (year_filter_active (rk_columns rankings_df) (after_categories spec rankings_df) = true ->
   between (inject_Z (year_range spec).1) (inject_Z (year_range spec).2)
     (draft_season r) = true) /\
  ("RAS" ∈ rk_columns rankings_df ->
   RAS r = None \/ between (ras_range spec).1 (ras_range spec).2 (RAS r) = true).

(** Two rows that tie in the table order: same category position and equal
    composite ranks, or both ranks missing. *)
Definition table_tie (a b : Prospect) : Prop :=
  table_le a b = true /\ table_le b a = true.

#[export] Instance table_tie_dec (a b : Prospect) : Decision (table_tie a b).
Proof. unfold table_tie. apply _. Defined.

(** No character of the text is a blank. *)
Definition no_blank (s : string) : Prop :=
  Forall (fun a => a <> " "%char) (list_ascii_of_string s).

(** The characters of a decimal integer numeral, and the texts made of
    them. *)
Definition numeral_char (a : ascii) : bool :=
  existsb (Ascii.eqb a)
    ["0"; "1"; "2"; "3"; "4"; "5"; "6"; "7"; "8"; "9"; "-"]%char.

Fixpoint numeral_text (s : string) : bool :=
  match s with
  | EmptyString => true
  | String a s' => numeral_char a && numeral_text s'
  end.

End ViewsSpec.

(** ** Properties of the tracking statistics *)

Module TrackingProofs.
Import Py Series Tracking TrackingSpec Samples.

Lemma Qgtb_lt (x y : Q) : Is_true (Qgtb x y) <-> (y < x)%Q.
Proof.
  unfold Qgtb. rewrite negb_True, Is_true_true, Qle_bool_iff.
  split; [apply Qnot_le_lt | apply Qlt_not_le].
Qed.

Lemma Qltb_lt (x y : Q) : Is_true (Qltb x y) <-> (x < y)%Q.
Proof.
  unfold Qltb. rewrite negb_True, Is_true_true, Qle_bool_iff.
  split; [apply Qnot_le_lt | apply Qlt_not_le].
Qed.

Lemma py_min_Qmin (a b : Q) : (py_min a b == Qmin a b)%Q.
Proof.
  unfold py_min. destruct (Qltb b a) eqn:E.
  - apply Is_true_true, Qltb_lt in E. rewrite Q.min_r; [reflexivity | lra].
  - apply Is_true_false in E. rewrite Qltb_lt in E.
    rewrite Q.min_l; [reflexivity | lra].
Qed.

Lemma py_max_Qmax (a b : Q) : (py_max a b == Qmax a b)%Q.
Proof.
  unfold py_max. destruct (Qgtb b a) eqn:E.
  - apply Is_true_true, Qgtb_lt in E. rewrite Q.max_r; [reflexivity | lra].
  - apply Is_true_false in E. rewrite Qgtb_lt in E.
    rewrite Q.max_l; [reflexivity | lra].
Qed.

Lemma Qabs_swap (x y : Q) : (Qabs (x - y) == Qabs (y - x))%Q.
Proof.
  rewrite <- (Qabs_opp (y - x)). apply Qabs_wd. ring.
Qed.

(** The code's wrapped delta of two successive headings is their circular
    distance. *)
Lemma wraparound_circular (d1 d2 : Q) :
  (wraparound (Some (Qabs (d2 - d1))) == circular_dist d1 d2)%Q.
Proof.
  unfold wraparound, circular_dist. rewrite py_min_Qmin.
  rewrite (Qabs_swap d2 d1). reflexivity.
Qed.

Lemma count_gt_cons (t v : Q) (l : list Q) :
  count_gt t (v :: l) = ((if decide (t < v)%Q then 1 else 0) + count_gt t l)%nat.
Proof.
  unfold count_gt. rewrite filter_cons.
  destruct (decide (Is_true (Qgtb v t))) as [H | H];
    destruct (decide (t < v)%Q) as [H' | H']; simpl; try reflexivity.
  - apply Qgtb_lt in H. contradiction.
  - apply Qgtb_lt in H'. contradiction.
Qed.

Lemma significant_changes_from (prev : Q) (l : list Q) :
  count_gt 45 (map wraparound (series_abs (diff_from prev l)))
  = direction_changes_spec (prev :: l).
Proof.
  revert prev. induction l as [| v l IH]; intros prev; [reflexivity |].
  cbn [diff_from series_abs map option_map].
  rewrite count_gt_cons. fold (series_abs (diff_from v l)). rewrite IH.
  unfold direction_changes_spec, heading_pairs.
  cbn [tail zip zip_with]. rewrite filter_cons. cbn [fst snd].
  pose proof (wraparound_circular prev v) as Hw.
  destruct (decide (45 < wraparound (Some (Qabs (v - prev))))%Q) as [H | H];
    destruct (decide (45 < circular_dist prev v)%Q) as [H' | H'];
    try reflexivity; exfalso.
  - apply H'. rewrite <- Hw. exact H.
  - apply H. rewrite Hw. exact H'.
Qed.

(** [significant_changes] counts exactly the successive pairs whose circular
    distance exceeds 45 degrees. *)
Lemma significant_changes_spec (dirs : list Q) :
  significant_changes dirs = direction_changes_spec dirs.
Proof.
  destruct dirs as [| v l]; [reflexivity |].
  unfold significant_changes, diff.
  cbn [series_abs map option_map wraparound].
  rewrite count_gt_cons. rewrite decide_False by (intros H; lra).
  apply significant_changes_from.
Qed.

(** A well-formed table with a non-empty column is not [df.empty]. *)
Lemma df_wf_not_empty (df : DataFrame) (name : string) (col : list (option Q)) :
  df_wf df -> columns df !! name = Some col -> (0 < length col)%nat ->
  df_empty df = false.
Proof.
  intros Hwf Hcol Hlen. unfold df_empty.
  apply orb_false_intro.
  - apply Nat.eqb_neq. rewrite <- (Hwf name col Hcol). lia.
  - apply bool_decide_eq_false. intros He. rewrite He in Hcol.
    rewrite lookup_empty in Hcol. discriminate.
Qed.

Lemma length_dropna_le (col : list (option Q)) :
  (length (dropna col) <= length col)%nat.
Proof.
  induction col as [| [v |] col IH]; simpl; lia.
Qed.

(** Each block of [calculate_tracking_stats] leaves the keys of the other
    blocks alone. *)
Ltac block_frame :=
  intros; repeat case_match; repeat (rewrite lookup_insert_ne by done); reflexivity.

Lemma speed_stats_frame (df : DataFrame) (m : gmap string Q) (k : string) :
  k <> "max_speed_mph" -> k <> "avg_speed_mph" -> k <> "min_speed_mph" ->
  speed_stats df m !! k = m !! k.
Proof. unfold speed_stats. block_frame. Qed.

Lemma acceleration_stats_frame (df : DataFrame) (m : gmap string Q) (k : string) :
  k <> "max_acceleration" -> k <> "avg_acceleration" ->
  acceleration_stats df m !! k = m !! k.
Proof. unfold acceleration_stats. block_frame. Qed.

Lemma distance_stats_frame (df : DataFrame) (m : gmap string Q) (k : string) :
  k <> "total_distance" -> k <> "avg_distance_per_frame" ->
  distance_stats df m !! k = m !! k.
Proof. unfold distance_stats. block_frame. Qed.

Lemma frame_stats_frame (df : DataFrame) (m : gmap string Q) (k : string) :
  k <> "total_frames" -> frame_stats df m !! k = m !! k.
Proof. unfold frame_stats. block_frame. Qed.

Lemma time_stats_frame (df : DataFrame) (m : gmap string Q) (k : string) :
  k <> "total_time_seconds" -> time_stats df m !! k = m !! k.
Proof. unfold time_stats. block_frame. Qed.

Lemma play_stats_frame (df : DataFrame) (m : gmap string Q) (k : string) :
  k <> "play_count" -> play_stats df m !! k = m !! k.
Proof. unfold play_stats. block_frame. Qed.

Lemma direction_stats_frame (df : DataFrame) (m : gmap string Q) (k : string) :
  k <> "direction_changes" -> direction_stats df m !! k = m !! k.
Proof. unfold direction_stats. block_frame. Qed.

(** What [calculate_tracking_stats] stores under [direction_changes]. *)
Lemma direction_changes_lookup (df : DataFrame) :
  calculate_tracking_stats df !! "direction_changes" =
  if df_empty df then None
  else match columns df !! "dir" with
       | Some col =>
           if (1 <? length (dropna col))%nat
           then Some (of_nat (significant_changes (dropna col)))
           else None
       | None => None
       end.
Proof.
  unfold calculate_tracking_stats. destruct (df_empty df); [apply lookup_empty |].
  unfold direction_stats.
  assert (Hrest : forall m,
    m = play_stats df (time_stats df (frame_stats df (distance_stats df
          (acceleration_stats df (speed_stats df ∅))))) ->
    m !! "direction_changes" = None).
  { intros m ->.
    rewrite play_stats_frame, time_stats_frame, frame_stats_frame,
      distance_stats_frame, acceleration_stats_frame, speed_stats_frame by done.
    apply lookup_empty. }
  destruct (columns df !! "dir") as [col |]; [| by apply Hrest].
  destruct (1 <? length (dropna col))%nat; [| by apply Hrest].
  apply lookup_insert_eq.
Qed.

(** [dropna] keeps exactly the non-missing values, in order. *)
Lemma dropna_non_missing (col : list (option Q)) : dropna col = non_missing col.
Proof.
  unfold non_missing. induction col as [| [v |] col IH]; cbn; [done | | done].
  by rewrite IH.
Qed.



Lemma single_column_wf (name : string) (col : list (option Q)) :
  df_wf (single_column name col).
Proof.
  unfold df_wf, single_column. cbn [columns nrows].
  apply map_Forall_singleton. reflexivity.
Qed.




(** *** Maximum, minimum and mean *)

Lemma fold_py_max_spec (l : list Q) (a : Q) :
  fold_left py_max l a ∈ a :: l /\
  forall v, v ∈ a :: l -> (v <= fold_left py_max l a)%Q.
Proof.
  revert a. induction l as [| x l IH]; intros a; cbn [fold_left].
  - split; [left |]. intros v Hv. apply list_elem_of_singleton in Hv.
    subst v. apply Qle_refl.
  - destruct (IH (py_max a x)) as [Hin Hub]. split.
    + apply elem_of_cons in Hin as [Hin | Hin]; [| by do 2 right].
      rewrite Hin. unfold py_max. destruct (Qgtb x a); [right; left | left].
    + intros v Hv.
      assert (Hm : (a <= py_max a x /\ x <= py_max a x)%Q).
      { rewrite py_max_Qmax. split; [apply Q.le_max_l | apply Q.le_max_r]. }
      assert (Htop : (py_max a x <= fold_left py_max l (py_max a x))%Q)
        by (apply Hub; left).
      apply elem_of_cons in Hv as [-> | Hv]; [lra |].
      apply elem_of_cons in Hv as [-> | Hv]; [lra |].
      apply Hub. by right.
Qed.

Lemma fold_py_min_spec (l : list Q) (a : Q) :
  fold_left py_min l a ∈ a :: l /\
  forall v, v ∈ a :: l -> (fold_left py_min l a <= v)%Q.
Proof.
  revert a. induction l as [| x l IH]; intros a; cbn [fold_left].
  - split; [left |]. intros v Hv. apply list_elem_of_singleton in Hv.
    subst v. apply Qle_refl.
  - destruct (IH (py_min a x)) as [Hin Hlb]. split.
    + apply elem_of_cons in Hin as [Hin | Hin]; [| by do 2 right].
      rewrite Hin. unfold py_min. destruct (Qltb x a); [right; left | left].
    + intros v Hv.
      assert (Hm : (py_min a x <= a /\ py_min a x <= x)%Q).
      { rewrite py_min_Qmin. split; [apply Q.le_min_l | apply Q.le_min_r]. }
      assert (Hbot : (fold_left py_min l (py_min a x) <= py_min a x)%Q)
        by (apply Hlb; left).
      apply elem_of_cons in Hv as [-> | Hv]; [lra |].
      apply elem_of_cons in Hv as [-> | Hv]; [lra |].
      apply Hlb. by right.
Qed.

Lemma series_max_is_maximum (l : list Q) :
  l <> [] -> is_maximum l (series_max l).
Proof.
  destruct l as [| a l]; [done | intros _]. apply fold_py_max_spec.
Qed.

Lemma series_min_is_minimum (l : list Q) :
  l <> [] -> is_minimum l (series_min l).
Proof.
  destruct l as [| a l]; [done | intros _]. apply fold_py_min_spec.
Qed.

Lemma of_nat_S (n : nat) : (of_nat (S n) == of_nat n + 1)%Q.
Proof.
  unfold of_nat. rewrite Nat2Z.inj_succ, <- Z.add_1_r, inject_Z_plus.
  reflexivity.
Qed.

Lemma of_nat_pos (n : nat) : (0 < n)%nat -> (0 < of_nat n)%Q.
Proof.
  intros H. unfold of_nat. change 0%Q with (inject_Z 0).
  rewrite <- Zlt_Qlt. lia.
Qed.

Lemma fold_left_Qplus (l : list Q) (acc : Q) :
  (fold_left Qplus l acc == acc + fold_right Qplus 0 l)%Q.
Proof.
  revert acc. induction l as [| x l IH]; intros acc; cbn [fold_left fold_right].
  - ring.
  - rewrite IH. ring.
Qed.

Lemma series_sum_fold_right (l : list Q) :
  (series_sum l == fold_right Qplus 0 l)%Q.
Proof. unfold series_sum. rewrite fold_left_Qplus. ring. Qed.

Lemma series_mean_is_mean (l : list Q) : l <> [] -> is_mean l (series_mean l).
Proof.
  intros Hl. unfold is_mean, series_mean.
  rewrite <- series_sum_fold_right. fold (of_nat (length l)).
  rewrite Qmult_comm. apply Qmult_div_r.
  assert (0 < of_nat (length l))%Q
    by (apply of_nat_pos; destruct l; [done | simpl; lia]).
  lra.
Qed.

Lemma sum_le_bound (l : list Q) (M : Q) :
  (forall v, v ∈ l -> (v <= M)%Q) ->
  (fold_right Qplus 0 l <= of_nat (length l) * M)%Q.
Proof.
  induction l as [| x l IH]; intros Hub.
  - cbn. unfold Qle, of_nat. simpl. lia.
  - cbn [fold_right length]. rewrite of_nat_S.
    assert (x <= M)%Q by (apply Hub; left).
    assert (fold_right Qplus 0 l <= of_nat (length l) * M)%Q
      by (apply IH; intros v Hv; apply Hub; by right).
    lra.
Qed.

Lemma sum_ge_bound (l : list Q) (m : Q) :
  (forall v, v ∈ l -> (m <= v)%Q) ->
  (of_nat (length l) * m <= fold_right Qplus 0 l)%Q.
Proof.
  induction l as [| x l IH]; intros Hlb.
  - cbn. unfold Qle, of_nat. simpl. lia.
  - cbn [fold_right length]. rewrite of_nat_S.
    assert (m <= x)%Q by (apply Hlb; left).
    assert (of_nat (length l) * m <= fold_right Qplus 0 l)%Q
      by (apply IH; intros v Hv; apply Hlb; by right).
    lra.
Qed.

(** The mean lies between the minimum and the maximum. *)
Lemma series_mean_bounds (l : list Q) :
  l <> [] ->
  (series_min l <= series_mean l /\ series_mean l <= series_max l)%Q.
Proof.
  intros Hl.
  destruct (series_max_is_maximum l Hl) as [_ Hub].
  destruct (series_min_is_minimum l Hl) as [_ Hlb].
  pose proof (sum_le_bound l _ Hub) as Hle.
  pose proof (sum_ge_bound l _ Hlb) as Hge.
  assert (Hn : (0 < of_nat (length l))%Q)
    by (apply of_nat_pos; destruct l; [done | simpl; lia]).
  unfold series_mean. fold (of_nat (length l)).
  rewrite series_sum_fold_right. split.
  - apply Qle_shift_div_l; [exact Hn | lra].
  - apply Qle_shift_div_r; [exact Hn | lra].
Qed.

Lemma speed_lookup (df : DataFrame) (k : string) :
  k ∈ ["max_speed_mph"; "avg_speed_mph"; "min_speed_mph"] ->
  calculate_tracking_stats df !! k =
  if df_empty df then None else speed_stats df ∅ !! k.
Proof.
  intros Hk. unfold calculate_tracking_stats.
  destruct (df_empty df); [apply lookup_empty |].
  rewrite direction_stats_frame, play_stats_frame, time_stats_frame,
    frame_stats_frame, distance_stats_frame, acceleration_stats_frame;
    first reflexivity;
    intros ->; repeat (apply elem_of_cons in Hk as [Hk | Hk]; [done |]);
    by apply elem_of_nil in Hk.
Qed.

(** C2, as stated, fails in the binary64 arithmetic of the code: for three
    speed samples of 0.1 the sum 0.1 + 0.1 + 0.1 is rounded upwards, the mean
    is the number next above 0.1, and [avg_speed_mph] (0.20450000000000004)
    is greater than [max_speed_mph] (0.20450000000000002).  The three samples
    are equal, so the order of the two additions does not matter. *)
Lemma C2_counterexample :
  Binary64.speed_stats [Binary64.d0_1; Binary64.d0_1; Binary64.d0_1]
  = Some (Binary64.d0_2045, Binary64.d0_2045_up, Binary64.d0_2045) /\
  PrimFloat.ltb Binary64.d0_2045 Binary64.d0_2045_up = true.
Proof. split; vm_compute; reflexivity. Qed.

(** C2, amended: with at least one non-missing speed sample the three speed
    statistics are the maximum, the mean and the minimum of the
    yards-per-second samples, each multiplied by 2.045, and, when the mean
    and the products are taken in exact arithmetic, max >= avg >= min.  The
    samples are exact rationals here; the rounding of binary64, under which
    the ordering can fail in the last bit, is not part of the statement. *)
Theorem C2_speed_stats_ordered_and_scaled (df : DataFrame) (col : list (option Q)) :
  df_wf df ->
  columns df !! "s" = Some col ->
  (1 <= length (dropna col))%nat ->
  exists mx av mn : Q,
    is_maximum (dropna col) mx /\ is_mean (dropna col) av /\
    is_minimum (dropna col) mn /\
    calculate_tracking_stats df !! "max_speed_mph" = Some (mx * 2.045)%Q /\
    calculate_tracking_stats df !! "avg_speed_mph" = Some (av * 2.045)%Q /\
    calculate_tracking_stats df !! "min_speed_mph" = Some (mn * 2.045)%Q /\
    (mn * 2.045 <= av * 2.045)%Q /\ (av * 2.045 <= mx * 2.045)%Q.
Proof.
  intros Hwf Hcol Hlen.
  assert (Hne : dropna col <> []) by (destruct (dropna col); [simpl in Hlen; lia | done]).
  exists (series_max (dropna col)), (series_mean (dropna col)),
    (series_min (dropna col)).
  split; [by apply series_max_is_maximum |].
  split; [by apply series_mean_is_mean |].
  split; [by apply series_min_is_minimum |].
  assert (He : df_empty df = false).
  { apply (df_wf_not_empty df "s" col Hwf Hcol).
    pose proof (length_dropna_le col). lia. }
  assert (Hs : speed_stats df ∅ =
    <["min_speed_mph" := (series_min (dropna col) * MPH)%Q]>
      (<["avg_speed_mph" := (series_mean (dropna col) * MPH)%Q]>
         (<["max_speed_mph" := (series_max (dropna col) * MPH)%Q]> ∅))).
  { unfold speed_stats. rewrite Hcol. cbv zeta.
    destruct (Nat.ltb_spec 0 (length (dropna col))) as [_ | Hlt]; [done | lia]. }
  rewrite !speed_lookup, He, Hs by set_solver.
  split; [by rewrite !lookup_insert_ne, lookup_insert_eq by done |].
  split; [by rewrite lookup_insert_ne, lookup_insert_eq by done |].
  split; [by rewrite lookup_insert_eq |].
  destruct (series_mean_bounds (dropna col) Hne). lra.
Qed.

Lemma C2_witness :
  let col := [Some 5%Q; Some 10%Q; None; Some 15%Q] in
  let df := single_column "s" col in
  df_wf df /\ columns df !! "s" = Some col /\ (1 <= length (dropna col))%nat /\
  exists mx av mn : Q,
    is_maximum (dropna col) mx /\ is_mean (dropna col) av /\
    is_minimum (dropna col) mn /\
    calculate_tracking_stats df !! "max_speed_mph" = Some (mx * 2.045)%Q /\
    calculate_tracking_stats df !! "avg_speed_mph" = Some (av * 2.045)%Q /\
    calculate_tracking_stats df !! "min_speed_mph" = Some (mn * 2.045)%Q /\
    (mn * 2.045 <= av * 2.045)%Q /\ (av * 2.045 <= mx * 2.045)%Q.
Proof.
  intros col df.
  assert (Hwf : df_wf df) by apply single_column_wf.
  assert (Hcol : columns df !! "s" = Some col) by apply lookup_singleton_eq.
  assert (Hlen : (1 <= length (dropna col))%nat) by (simpl; lia).
  split; [exact Hwf |]. split; [exact Hcol |]. split; [exact Hlen |].
  exact (C2_speed_stats_ordered_and_scaled df col Hwf Hcol Hlen).
Defined.

(** *** Which keys the mapping holds *)

Lemma speed_stats_no_values (df : DataFrame) (m : gmap string Q) :
  no_values df "s" -> speed_stats df m = m.
Proof.
  unfold no_values, speed_stats.
  destruct (columns df !! "s"); [intros -> |]; reflexivity.
Qed.

Lemma acceleration_stats_no_values (df : DataFrame) (m : gmap string Q) :
  no_values df "a" -> acceleration_stats df m = m.
Proof.
  unfold no_values, acceleration_stats.
  destruct (columns df !! "a"); [intros -> |]; reflexivity.
Qed.

Lemma distance_stats_no_values (df : DataFrame) (m : gmap string Q) :
  no_values df "dis" -> distance_stats df m = m.
Proof.
  unfold no_values, distance_stats.
  destruct (columns df !! "dis"); [intros -> |]; reflexivity.
Qed.

Lemma time_stats_no_values (df : DataFrame) (m : gmap string Q) :
  no_values df "ts" -> time_stats df m = m.
Proof.
  unfold no_values, time_stats.
  destruct (columns df !! "ts"); [intros -> |]; reflexivity.
Qed.

Lemma direction_stats_no_values (df : DataFrame) (m : gmap string Q) :
  no_values df "dir" -> direction_stats df m = m.
Proof.
  unfold no_values, direction_stats.
  destruct (columns df !! "dir"); [intros -> |]; reflexivity.
Qed.

(** C7, as stated, fails: for the empty table the mapping is empty, so the
    key [total_frames] is absent; and [play_count] is reported as 0 when its
    column holds no value. *)
Lemma C7_counterexample :
  nrows no_frames = 0%nat /\
  calculate_tracking_stats no_frames !! "total_frames" = None /\
  no_values one_frame_no_play "play_id" /\
  calculate_tracking_stats one_frame_no_play !! "play_count" = Some 0%Q.
Proof.
  split; [reflexivity |]. split; [vm_compute; reflexivity |].
  split; vm_compute; reflexivity.
Qed.

(** C7, amended: the empty table gives the empty mapping; every other table
    gives [total_frames] equal to the row count; and each speed,
    acceleration, distance, time and direction statistic whose source column
    is missing or has no non-missing value is absent from the mapping. *)
Theorem C7_total_frames_and_omitted_keys (df : DataFrame) :
  (df_empty df = true -> calculate_tracking_stats df = ∅) /\
  (df_empty df = false ->
   calculate_tracking_stats df !! "total_frames" = Some (of_nat (nrows df))) /\
  (forall stat column : string,
     (stat, column) ∈ stat_sources -> no_values df column ->
     calculate_tracking_stats df !! stat = None).
Proof.
  unfold calculate_tracking_stats. split; [| split].
  - intros ->. reflexivity.
  - intros ->.
    rewrite direction_stats_frame, play_stats_frame, time_stats_frame by done.
    apply lookup_insert_eq.
  - intros stat column Hin Hno.
    destruct (df_empty df); [apply lookup_empty |].
    unfold stat_sources in Hin.
    repeat (apply elem_of_cons in Hin as [Hin | Hin];
      [ injection Hin as -> ->;
        repeat first
          [ rewrite (speed_stats_no_values df _ Hno)
          | rewrite (acceleration_stats_no_values df _ Hno)
          | rewrite (distance_stats_no_values df _ Hno)
          | rewrite (time_stats_no_values df _ Hno)
          | rewrite (direction_stats_no_values df _ Hno)
          | rewrite direction_stats_frame by done
          | rewrite play_stats_frame by done
          | rewrite time_stats_frame by done
          | rewrite frame_stats_frame by done
          | rewrite distance_stats_frame by done
          | rewrite acceleration_stats_frame by done
          | rewrite speed_stats_frame by done ];
        apply lookup_empty
      | ]).
    by apply elem_of_nil in Hin.
Qed.

Lemma C7_witness :
  let df := single_column "s" [None; None] in
  df_empty df = false /\ ("avg_speed_mph", "s") ∈ stat_sources /\
  no_values df "s" /\
  calculate_tracking_stats df !! "total_frames" = Some 2%Q /\
  calculate_tracking_stats df !! "avg_speed_mph" = None /\
  (df_empty no_frames = true /\ calculate_tracking_stats no_frames = ∅).
Proof.
  intros df.
  assert (He : df_empty df = false) by (vm_compute; reflexivity).
  assert (Hin : ("avg_speed_mph", "s") ∈ stat_sources)
    by (unfold stat_sources; set_solver).
  assert (Hno : no_values df "s") by (vm_compute; reflexivity).
  assert (He' : df_empty no_frames = true) by reflexivity.
  destruct (C7_total_frames_and_omitted_keys df) as (_ & Htot & Hkeys).
  destruct (C7_total_frames_and_omitted_keys no_frames) as (Hempty & _ & _).
  split; [exact He |]. split; [exact Hin |]. split; [exact Hno |].
  split; [exact (Htot He) |]. split; [exact (Hkeys _ _ Hin Hno) |].
  split; [exact He' | exact (Hempty He')].
Defined.

(** *** Relabeling the headings *)

Lemma wraparound_gt_45 (d : Q) :
  (45 < wraparound (Some (Qabs d)))%Q <-> significant d.
Proof.
  unfold wraparound, significant. rewrite py_min_Qmin, Q.min_glb_lt_iff.
  destruct (Qlt_le_dec d 0) as [Hd | Hd].
  - rewrite (Qabs_neg d) by lra. lra.
  - rewrite (Qabs_pos d) by lra. lra.
Qed.

Lemma significant_changes_cons (v : Q) (l : list Q) :
  significant_changes (v :: l)
  = count_gt 45 (map wraparound (series_abs (diff_from v l))).
Proof.
  unfold significant_changes, diff.
  cbn [series_abs map option_map wraparound].
  rewrite count_gt_cons. by rewrite decide_False by (intros H; lra).
Qed.

(** Two heading sequences related step by step by a relation that preserves
    the significance of each delta have the same number of changes. *)
Lemma significant_changes_rel (R : Q -> Q -> Prop) :
  (forall p v p' v', R p p' -> R v v' ->
     significant (v - p) <-> significant (v' - p')) ->
  forall l l', Forall2 R l l' -> significant_changes l = significant_changes l'.
Proof.
  intros HR l l' Hll. destruct Hll as [| p p' l l' Hp Hll]; [reflexivity |].
  rewrite !significant_changes_cons.
  revert p p' Hp. induction Hll as [| v v' l l' Hv Hll IH]; intros p p' Hp.
  - reflexivity.
  - cbn [diff_from series_abs map option_map]. rewrite !count_gt_cons.
    fold (series_abs (diff_from v l)) (series_abs (diff_from v' l')).
    rewrite (IH v v' Hv).
    pose proof (HR p v p' v' Hp Hv) as Hs.
    rewrite <- !wraparound_gt_45 in Hs.
    destruct (decide (45 < wraparound (Some (Qabs (v - p))))%Q);
      destruct (decide (45 < wraparound (Some (Qabs (v' - p'))))%Q);
      tauto.
Qed.

Lemma dropna_shift_360 (col : list (option Q)) :
  Forall2 (fun x y => y = (x + 360)%Q) (dropna col) (dropna (shift_360 col)).
Proof.
  induction col as [| [v |] col IH]; cbn; [constructor | | exact IH].
  constructor; [reflexivity | exact IH].
Qed.

Lemma dropna_equiv (col col' : list (option Q)) :
  equiv_mod_360 col col' ->
  Forall heading_in_range col -> Forall heading_in_range col' ->
  Forall2 same_heading (dropna col) (dropna col').
Proof.
  intros He. induction He as [| a b col col' Hab He IH]; intros Hr Hr'.
  - constructor.
  - apply Forall_cons in Hr as [Ha Hr]. apply Forall_cons in Hr' as [Hb Hr'].
    destruct a as [x |], b as [y |]; cbn in *; try contradiction.
    + constructor; [exact (conj Ha (conj Hb Hab)) | by apply IH].
    + by apply IH.
Qed.

Lemma same_heading_significant (p v p' v' : Q) :
  same_heading p p' -> same_heading v v' ->
  significant (v - p) <-> significant (v' - p').
Proof.
  intros (Hp & Hp' & kp & Ekp) (Hv & Hv' & kv & Ekv).
  assert (Ej : (v' - p' == v - p + 360 * inject_Z (kv - kp))%Q).
  { unfold Z.sub. rewrite inject_Z_plus, inject_Z_opp, Ekv, Ekp. ring. }
  assert (Hlo : (-2 <= inject_Z (kv - kp))%Q) by lra.
  assert (Hhi : (inject_Z (kv - kp) <= 2)%Q) by lra.
  change (-2)%Q with (inject_Z (-2)) in Hlo.
  change 2%Q with (inject_Z 2) in Hhi.
  rewrite <- Zle_Qle in Hlo, Hhi.
  unfold significant. rewrite Ej.
  assert (Hj : (kv - kp = -2 \/ kv - kp = -1 \/ kv - kp = 0 \/
                kv - kp = 1 \/ kv - kp = 2)%Z) by lia.
  destruct Hj as [E | [E | [E | [E | E]]]];
    rewrite E in Ej |- *; unfold inject_Z in *; lra.
Qed.

Lemma set_column_dir_lookup (df : DataFrame) (col col' : list (option Q))
    (R : Q -> Q -> Prop) :
  (forall p v p' v', R p p' -> R v v' ->
     significant (v - p) <-> significant (v' - p')) ->
  columns df !! "dir" = Some col ->
  Forall2 R (dropna col) (dropna col') ->
  calculate_tracking_stats (set_column "dir" col' df) !! "direction_changes"
  = calculate_tracking_stats df !! "direction_changes".
Proof.
  intros HR Hcol Hrel. rewrite !direction_changes_lookup.
  assert (He : df_empty (set_column "dir" col' df) = df_empty df).
  { unfold df_empty, set_column. cbn [nrows columns]. f_equal.
    rewrite !bool_decide_eq_false_2; [reflexivity | |].
    - intros E. rewrite E, lookup_empty in Hcol. discriminate.
    - apply insert_non_empty. }
  rewrite He. destruct (df_empty df); [reflexivity |].
  unfold set_column. cbn [columns]. rewrite lookup_insert_eq, Hcol.
  rewrite <- (Forall2_length _ _ _ Hrel).
  by rewrite <- (significant_changes_rel R HR _ _ Hrel).
Qed.

(** A delta and its relabeling by whole turns, both within one turn, are
    significant together. *)
Lemma turn_significant (d d' : Q) (k : Z) :
  (d' == d + 360 * inject_Z k)%Q ->
  (Qabs d <= 360)%Q -> (Qabs d' <= 360)%Q ->
  significant d <-> significant d'.
Proof.
  intros E Hd Hd'.
  apply Qabs_Qle_condition in Hd. apply Qabs_Qle_condition in Hd'.
  assert (Hlo : (-2 <= inject_Z k)%Q) by lra.
  assert (Hhi : (inject_Z k <= 2)%Q) by lra.
  change (-2)%Q with (inject_Z (-2)) in Hlo.
  change 2%Q with (inject_Z 2) in Hhi.
  rewrite <- Zle_Qle in Hlo, Hhi.
  unfold significant. rewrite E.
  assert (Hk : (k = -2 \/ k = -1 \/ k = 0 \/ k = 1 \/ k = 2)%Z) by lia.
  destruct Hk as [-> | [-> | [-> | [-> | ->]]]]; unfold inject_Z in *; lra.
Qed.

Lemma steps_within_turn_cons (p v : Q) (l : list Q) :
  steps_within_turn (p :: v :: l) <->
  (Qabs (v - p) <= 360)%Q /\ steps_within_turn (v :: l).
Proof.
  unfold steps_within_turn, heading_pairs. cbn [tail zip zip_with].
  rewrite Forall_cons. reflexivity.
Qed.

(** Heading sequences that agree modulo 360 and make no step larger than a
    full turn have the same number of changes. *)
Lemma significant_changes_mod_360 (l l' : list Q) :
  Forall2 agree_mod_360 l l' ->
  steps_within_turn l -> steps_within_turn l' ->
  significant_changes l = significant_changes l'.
Proof.
  intros Hll. destruct Hll as [| p p' l l' Hp Hll]; [reflexivity |].
  rewrite !significant_changes_cons.
  revert p p' Hp. induction Hll as [| v v' l l' Hv Hll IH]; intros p p' Hp Hs Hs'.
  - reflexivity.
  - apply steps_within_turn_cons in Hs as [Hd Hs].
    apply steps_within_turn_cons in Hs' as [Hd' Hs'].
    cbn [diff_from series_abs map option_map]. rewrite !count_gt_cons.
    fold (series_abs (diff_from v l)) (series_abs (diff_from v' l')).
    rewrite (IH v v' Hv Hs Hs').
    destruct Hp as [kp Ekp], Hv as [kv Ekv].
    assert (E : (v' - p' == v - p + 360 * inject_Z (kv - kp))%Q).
    { unfold Z.sub. rewrite inject_Z_plus, inject_Z_opp, Ekv, Ekp. ring. }
    pose proof (turn_significant _ _ _ E Hd Hd') as Hsig.
    rewrite <- !wraparound_gt_45 in Hsig.
    destruct (decide (45 < wraparound (Some (Qabs (v - p))))%Q);
      destruct (decide (45 < wraparound (Some (Qabs (v' - p'))))%Q);
      tauto.
Qed.

Lemma dropna_agree (col col' : list (option Q)) :
  equiv_mod_360 col col' -> Forall2 agree_mod_360 (dropna col) (dropna col').
Proof.
  induction 1 as [| a b col col' Hab _ IH]; [constructor |].
  destruct a as [x |], b as [y |]; cbn in *; try contradiction;
    [constructor; assumption | exact IH].
Qed.

(** C9, as stated, fails.  In exact arithmetic: the headings 0, 90 and
    0, 450 agree modulo 360 and give 1 and 0 changes.  In the binary64
    arithmetic of the code, also for relabelings that add 360 to every
    heading or that stay within 0 to 360: 19.4, 64.4 give 1 change and
    379.4, 424.4 give 0, since 64.4 - 19.4 is rounded above 45 and
    424.4 - 379.4 to 45; the headings 0 and the number next above 45 give 1
    change, and 360 with the same number 0.  For a single frame the key is
    absent, not 0. *)
Lemma C9_counterexample :
  (equiv_mod_360 [Some 0%Q; Some 90%Q] [Some 0%Q; Some 450%Q] /\
   calculate_tracking_stats (single_column "dir" [Some 0%Q; Some 90%Q])
     !! "direction_changes" = Some 1%Q /\
   calculate_tracking_stats (single_column "dir" [Some 0%Q; Some 450%Q])
     !! "direction_changes" = Some 0%Q) /\
  (PrimFloat.add Binary64.d19_4 Binary64.turn = Binary64.d379_4 /\
   PrimFloat.add Binary64.d64_4 Binary64.turn = Binary64.d424_4 /\
   Binary64.direction_stats [Binary64.d19_4; Binary64.d64_4] = Some 1%nat /\
   Binary64.direction_stats [Binary64.d379_4; Binary64.d424_4] = Some 0%nat) /\
  (Binary64.direction_stats [PrimFloat.zero; Binary64.above_45] = Some 1%nat /\
   Binary64.direction_stats [Binary64.turn; Binary64.above_45] = Some 0%nat) /\
  calculate_tracking_stats (single_column "dir" [Some 10%Q])
    !! "direction_changes" = None.
Proof.
  split; [| split; [| split]].
  - split.
    + repeat constructor; [exists 0%Z | exists 1%Z]; reflexivity.
    + rewrite !direction_changes_lookup. vm_compute. done.
  - repeat split; vm_compute; reflexivity.
  - split; vm_compute; reflexivity.
  - rewrite direction_changes_lookup. vm_compute. reflexivity.
Qed.

(** C9, amended: with the deltas taken in exact arithmetic,
    [direction_changes] is unchanged when 360 degrees are added to every
    heading, and when headings are replaced by headings equal modulo 360 as
    long as no step between successive non-missing headings, before or
    after, is larger than 360 degrees, which holds whenever all headings
    stay within 0 to 360; for a table of at most one frame the key is absent
    from the mapping.  The headings are exact rationals here; the rounding of
    binary64 at the thresholds is not part of the statement. *)
Theorem C9_relabeling_and_short_sequences (df : DataFrame) :
  (forall col : list (option Q),
     columns df !! "dir" = Some col ->
     calculate_tracking_stats (set_column "dir" (shift_360 col) df)
       !! "direction_changes"
     = calculate_tracking_stats df !! "direction_changes") /\
  (forall col col' : list (option Q),
     columns df !! "dir" = Some col ->
     equiv_mod_360 col col' ->
     steps_within_turn (non_missing col) -> steps_within_turn (non_missing col') ->
     calculate_tracking_stats (set_column "dir" col' df) !! "direction_changes"
     = calculate_tracking_stats df !! "direction_changes") /\
  (forall col col' : list (option Q),
     columns df !! "dir" = Some col ->
     equiv_mod_360 col col' ->
     Forall heading_in_range col -> Forall heading_in_range col' ->
     calculate_tracking_stats (set_column "dir" col' df) !! "direction_changes"
     = calculate_tracking_stats df !! "direction_changes") /\
  (df_wf df -> (nrows df <= 1)%nat ->
   calculate_tracking_stats df !! "direction_changes" = None).
Proof.
  split; [| split; [| split]].
  - intros col Hcol.
    apply (set_column_dir_lookup df col _ (fun x y => y = (x + 360)%Q));
      [| exact Hcol | apply dropna_shift_360].
    intros p v p' v' -> ->. unfold significant.
    assert (E : (v + 360 - (p + 360) == v - p)%Q) by ring.
    rewrite E. reflexivity.
  - intros col col' Hcol He Hs Hs'. rewrite <- dropna_non_missing in Hs, Hs'.
    pose proof (dropna_agree col col' He) as Hrel.
    rewrite !direction_changes_lookup.
    assert (Hemp : df_empty (set_column "dir" col' df) = df_empty df).
    { unfold df_empty, set_column. cbn [nrows columns]. f_equal.
      rewrite !bool_decide_eq_false_2; [reflexivity | |].
      - intros E. rewrite E, lookup_empty in Hcol. discriminate.
      - apply insert_non_empty. }
    rewrite Hemp. destruct (df_empty df); [reflexivity |].
    unfold set_column. cbn [columns]. rewrite lookup_insert_eq, Hcol.
    rewrite <- (Forall2_length _ _ _ Hrel).
    by rewrite <- (significant_changes_mod_360 _ _ Hrel Hs Hs').
  - intros col col' Hcol He Hr Hr'.
    apply (set_column_dir_lookup df col _ same_heading);
      [apply same_heading_significant | exact Hcol | by apply dropna_equiv].
  - intros Hwf Hn. rewrite direction_changes_lookup.
    destruct (df_empty df); [reflexivity |].
    destruct (columns df !! "dir") as [col |] eqn:Hcol; [| reflexivity].
    pose proof (Hwf "dir" col Hcol) as Hlen. cbn in Hlen.
    pose proof (length_dropna_le col).
    destruct (Nat.ltb_spec 1 (length (dropna col))); [lia | reflexivity].
Qed.

Lemma C9_witness :
  let col := [Some 350%Q; Some 0%Q; None; Some 100%Q] in
  let col' := [Some 350%Q; Some 360%Q; None; Some 100%Q] in
  let far := [Some 710%Q; Some 720%Q; None; Some 460%Q] in
  let df := single_column "dir" col in
  let one := single_column "dir" [Some 10%Q] in
  columns df !! "dir" = Some col /\ equiv_mod_360 col col' /\
  Forall heading_in_range col /\ Forall heading_in_range col' /\
  equiv_mod_360 col far /\
  steps_within_turn (non_missing col) /\ steps_within_turn (non_missing far) /\
  df_wf one /\ (nrows one <= 1)%nat /\
  calculate_tracking_stats (set_column "dir" (shift_360 col) df)
    !! "direction_changes"
  = calculate_tracking_stats df !! "direction_changes" /\
  calculate_tracking_stats (set_column "dir" far df) !! "direction_changes"
  = calculate_tracking_stats df !! "direction_changes" /\
  calculate_tracking_stats (set_column "dir" col' df) !! "direction_changes"
  = calculate_tracking_stats df !! "direction_changes" /\
  calculate_tracking_stats df !! "direction_changes" = Some 1%Q /\
  calculate_tracking_stats one !! "direction_changes" = None.
Proof.
  intros col col' far df one.
  assert (Hcol : columns df !! "dir" = Some col) by apply lookup_singleton_eq.
  assert (He : equiv_mod_360 col col').
  { repeat constructor; [exists 0%Z | exists 1%Z | exists 0%Z]; reflexivity. }
  assert (Hr : Forall heading_in_range col)
    by (repeat constructor; cbn; lra).
  assert (Hr' : Forall heading_in_range col')
    by (repeat constructor; cbn; lra).
  assert (Hf : equiv_mod_360 col far).
  { repeat constructor; [exists 1%Z | exists 2%Z | exists 1%Z]; reflexivity. }
  assert (Hs : steps_within_turn (non_missing col)).
  { change (steps_within_turn [350%Q; 0%Q; 100%Q]).
    rewrite !steps_within_turn_cons.
    split; [apply Qabs_Qle_condition; cbn; lra |].
    split; [apply Qabs_Qle_condition; cbn; lra |]. constructor. }
  assert (Hs' : steps_within_turn (non_missing far)).
  { change (steps_within_turn [710%Q; 720%Q; 460%Q]).
    rewrite !steps_within_turn_cons.
    split; [apply Qabs_Qle_condition; cbn; lra |].
    split; [apply Qabs_Qle_condition; cbn; lra |]. constructor. }
  assert (Hwf : df_wf one) by apply single_column_wf.
  assert (Hn : (nrows one <= 1)%nat) by (cbn; lia).
  destruct (C9_relabeling_and_short_sequences df) as (Hshift & Hturn & Hequiv & _).
  destruct (C9_relabeling_and_short_sequences one) as (_ & _ & _ & Hshort).
  split; [exact Hcol |]. split; [exact He |]. split; [exact Hr |].
  split; [exact Hr' |]. split; [exact Hf |]. split; [exact Hs |].
  split; [exact Hs' |]. split; [exact Hwf |]. split; [exact Hn |].
  split; [exact (Hshift col Hcol) |].
  split; [exact (Hturn col far Hcol Hf Hs Hs') |].
  split; [exact (Hequiv col col' Hcol He Hr Hr') |].
  split; [rewrite direction_changes_lookup; vm_compute; reflexivity |].
  exact (Hshort Hwf Hn).
Defined.

(** *** Zone occupancy *)

(** Every valid x coordinate is in exactly one half. *)
Lemma left_right_partition (coords : list Q) :
  (count_if in_left_half coords + count_if in_right_half coords)%nat
  = length coords.
Proof.
  unfold count_if, in_left_half, in_right_half, Qltb, Qgeb.
  induction coords as [| x coords IH]; [reflexivity |].
  cbn [List.filter]. destruct (Qle_bool 60 x); cbn [negb length]; lia.
Qed.

Lemma of_nat_plus (n m : nat) : (of_nat (n + m) == of_nat n + of_nat m)%Q.
Proof. unfold of_nat. by rewrite Nat2Z.inj_add, inject_Z_plus. Qed.

Lemma shares_add_up (a b n : Q) :
  (0 < n)%Q -> (n == a + b)%Q -> (a / n * 100 + b / n * 100 == 100)%Q.
Proof.
  intros Hn E.
  assert (E' : (a / n * 100 + b / n * 100 == (a + b) / n * 100)%Q)
    by (field; lra).
  rewrite E', <- E. field. lra.
Qed.

(** The x zones are shares of the valid x coordinates, and the two halves
    add up to 100 percent. *)
Lemma x_zone_shares (df : DataFrame) (z : ZoneCounts) (xs : list (option Q)) :
  zone_counts df = Some z -> columns df !! "x" = Some xs ->
  left_side_pct z = zone_share in_left_half xs /\
  percent (right_side z) (total z) = zone_share in_right_half xs /\
  ((0 < length (dropna xs))%nat ->
   exists l r : Q, left_side_pct z = Some l /\
     percent (right_side z) (total z) = Some r /\ (l + r == 100)%Q).
Proof.
  unfold zone_counts. intros Hz Hx. rewrite Hx in Hz.
  destruct (columns df !! "y") as [ys |]; [| discriminate].
  injection Hz as <-. unfold left_side_pct, zone_share. cbn [left_side right_side total].
  split; [reflexivity |]. split; [reflexivity |].
  intros Hpos. unfold percent.
  destruct (Nat.eqb_spec (length (dropna xs)) 0) as [E | _]; [lia |].
  eexists _, _. split; [reflexivity |]. split; [reflexivity |].
  apply shares_add_up; [by apply of_nat_pos |].
  rewrite <- of_nat_plus.
  pose proof (left_right_partition (dropna xs)) as Hsum.
  unfold in_left_half, in_right_half in Hsum. by rewrite Hsum.
Qed.

(** C3: the middle-band count is divided by the number of valid x
    coordinates.  With one missing x and two valid y in the band the code
    shows 200 percent, where the share of the valid y coordinates is 100. *)
Theorem C3_middle_band_divides_by_valid_x :
  let xs := [None; Some 50%Q] in
  let ys := [Some 25%Q; Some 25%Q] in
  exists shown share : Q,
    middle_of_field_pct <$> zone_counts (xy_table xs ys) = Some (Some shown) /\
    zone_share in_middle_band ys = Some share /\
    (shown == 200)%Q /\ (share == 100)%Q.
Proof.
  intros xs ys. eexists _, _.
  split; [vm_compute; reflexivity |]. split; [vm_compute; reflexivity |].
  split; reflexivity.
Qed.

End TrackingProofs.

(** ** Properties of the filter pipeline, the table order and the pick text *)

Module RankingsProofs.
Import Py Series Rankings RankingsSpec Samples.

(** *** The RAS and year filters on missing values *)

Lemma apply_ras_missing (cols : list string) (ras_range : Q * Q)
    (rows : list Prospect) (r : Prospect) :
  RAS r = None -> r ∈ apply_ras cols ras_range rows <-> r ∈ rows.
Proof.
  intros Hna. unfold apply_ras. case_bool_decide; [| reflexivity].
  rewrite list_elem_of_filter, Hna. cbn. tauto.
Qed.

Lemma apply_year_missing (cols : list string) (year_range : Z * Z)
    (rows : list Prospect) (r : Prospect) :
  draft_season r = None -> r ∈ rows ->
  r ∉ apply_year cols year_range rows <-> year_filter_active cols rows = true.
Proof.
  intros Hna Hin. unfold apply_year.
  destruct (year_filter_active cols rows).
  - rewrite list_elem_of_filter, Hna. cbn. tauto.
  - split; [intros Hn; contradiction | discriminate].
Qed.

(** The values kept by [distinct] are pairwise different samples of the
    list, and every sample of the list equals one of them. *)
Lemma distinct_elem (l : list Q) (x : Q) : x ∈ distinct l -> x ∈ l.
Proof.
  induction l as [| v l IH]; cbn; [done |].
  destruct (existsb (Qeq_bool v) l).
  - intros H. right. by apply IH.
  - intros [-> | H]%elem_of_cons; [left | right; by apply IH].
Qed.

Lemma existsb_Qeq (v : Q) (l : list Q) :
  existsb (Qeq_bool v) l = true <-> exists x, x ∈ l /\ (v == x)%Q.
Proof.
  rewrite existsb_exists. split; intros (x & H1 & H2); exists x.
  - split; [by apply list_elem_of_In | by apply Qeq_bool_iff].
  - split; [by apply list_elem_of_In | by apply Qeq_bool_iff].
Qed.

Lemma distinct_repr (l : list Q) (x : Q) :
  x ∈ l -> exists y, y ∈ distinct l /\ (x == y)%Q.
Proof.
  revert x. induction l as [| v l IH]; intros x; [by intros ?%elem_of_nil |].
  intros [-> | Hin]%elem_of_cons; cbn.
  - destruct (existsb (Qeq_bool v) l) eqn:E.
    + apply existsb_Qeq in E as (x' & Hx' & Hvx').
      destruct (IH x' Hx') as (y & Hy & Hxy). exists y. split; [exact Hy |].
      by rewrite Hvx'.
    + exists v. split; [left | reflexivity].
  - destruct (IH x Hin) as (y & Hy & Hxy). exists y. split; [| exact Hxy].
    destruct (existsb (Qeq_bool v) l); [exact Hy | by right].
Qed.

Lemma distinct_apart (l : list Q) :
  ForallOrdPairs (fun a b => ~ (a == b)%Q) (distinct l).
Proof.
  induction l as [| v l IH]; cbn; [constructor |].
  destruct (existsb (Qeq_bool v) l) eqn:E; [exact IH |].
  constructor; [| exact IH].
  apply Forall_forall. intros x Hx Hvx.
  apply distinct_elem in Hx.
  assert (existsb (Qeq_bool v) l = true) by (apply existsb_Qeq; eauto).
  congruence.
Qed.

Lemma two_elements_length {A : Type} (l : list A) (x y : A) :
  x ∈ l -> y ∈ l -> x <> y -> (1 < length l)%nat.
Proof.
  destruct l as [| a [| b l]]; cbn; [by intros ?%elem_of_nil | | lia].
  intros ->%list_elem_of_singleton ->%list_elem_of_singleton. done.
Qed.

Lemma distinct_at_least_two (l : list Q) :
  (1 < length (distinct l))%nat <->
  exists x y, x ∈ l /\ y ∈ l /\ ~ (x == y)%Q.
Proof.
  split.
  - pose proof (distinct_apart l) as Hap.
    pose proof (distinct_elem l) as Hel.
    destruct (distinct l) as [| a [| b d]]; cbn; [lia | lia | intros _].
    exists a, b. split; [apply Hel; left |]. split; [apply Hel; right; left |].
    inversion Hap as [| ? ? Hab _]; subst.
    apply Forall_cons in Hab as [Hab _]. exact Hab.
  - intros (x & y & Hx & Hy & Hxy).
    destruct (distinct_repr l x Hx) as (x' & Hx' & Exx').
    destruct (distinct_repr l y Hy) as (y' & Hy' & Eyy').
    apply (two_elements_length _ x' y' Hx' Hy').
    intros ->. apply Hxy. by rewrite Exx', Eyy'.
Qed.

Lemma elem_of_dropna (col : list (option Q)) (x : Q) :
  x ∈ dropna col <-> Some x ∈ col.
Proof.
  induction col as [| [v |] col IH]; cbn.
  - split; by intros ?%elem_of_nil.
  - rewrite !elem_of_cons, IH. split; (intros [E | H]; [left | by right]);
      congruence.
  - rewrite elem_of_cons, IH. split; [by right | intros [E | H]; done].
Qed.

Lemma elem_of_map {A B : Type} (f : A -> B) (l : list A) (y : B) :
  y ∈ map f l <-> exists x, f x = y /\ x ∈ l.
Proof.
  induction l as [| a l IH]; cbn.
  - split; [by intros ?%elem_of_nil | by intros (x & _ & ?%elem_of_nil)].
  - rewrite elem_of_cons, IH. split.
    + intros [-> | (x & E & H)]; [exists a; split; [done | left] |].
      exists x. split; [done | by right].
    + intros (x & E & [-> | H]%elem_of_cons); [by left | right; eauto].
Qed.

(** The year filter is active exactly when the column exists and the rows
    hold at least two distinct draft years. *)
Lemma year_filter_active_iff (cols : list string) (rows : list Prospect) :
  year_filter_active cols rows = true <->
  "draft_season" ∈ cols /\ two_distinct_years rows.
Proof.
  unfold year_filter_active, years, two_distinct_years.
  rewrite andb_true_iff, bool_decide_eq_true, Nat.ltb_lt, distinct_at_least_two.
  apply and_iff_compat_l. split.
  - intros (x & y & Hx & Hy & Hxy).
    apply elem_of_dropna, elem_of_map in Hx as (r1 & E1 & H1).
    apply elem_of_dropna, elem_of_map in Hy as (r2 & E2 & H2).
    by exists r1, r2, x, y.
  - intros (r1 & r2 & y1 & y2 & H1 & H2 & E1 & E2 & Hy).
    exists y1, y2. split; [| split; [| exact Hy]];
      apply elem_of_dropna, elem_of_map; [by exists r1 | by exists r2].
Qed.

(** C6: a row with a missing RAS is in the result of the pipeline whenever it
    reaches the RAS filter, whatever the bounds; a row with a missing draft
    season that reaches the year filter is dropped by it exactly when the
    filter is active, that is when the column exists and at least two
    distinct draft years are left. *)
Theorem C6_missing_ras_kept_missing_year_dropped
    (spec : FilterSpec) (rankings_df : RankingsDF) (r : Prospect) :
  (RAS r = None ->
   r ∈ filter_pipeline spec rankings_df <-> r ∈ after_year spec rankings_df) /\
  (draft_season r = None -> r ∈ after_categories spec rankings_df ->
   r ∉ after_year spec rankings_df <->
   year_filter_active (rk_columns rankings_df)
     (after_categories spec rankings_df) = true) /\
  (year_filter_active (rk_columns rankings_df)
     (after_categories spec rankings_df) = true <->
   "draft_season" ∈ rk_columns rankings_df /\
   two_distinct_years (after_categories spec rankings_df)).
Proof.
  split; [| split].
  - intros Hna. by apply apply_ras_missing.
  - intros Hna Hin. by apply apply_year_missing.
  - apply year_filter_active_iff.
Qed.

Lemma C6_witness :
  let spec := mkSpec "All" [] (2024, 2024)%Z (6, 10)%Q in
  RAS cole = None /\ draft_season cole = None /\
  cole ∈ after_categories spec rankings_df /\
  (cole ∈ filter_pipeline spec rankings_df <-> cole ∈ after_year spec rankings_df) /\
  (cole ∉ after_year spec rankings_df <->
   year_filter_active (rk_columns rankings_df)
     (after_categories spec rankings_df) = true) /\
  year_filter_active (rk_columns rankings_df)
    (after_categories spec rankings_df) = true.
Proof.
  intros spec.
  assert (Hras : RAS cole = None) by reflexivity.
  assert (Hyear : draft_season cole = None) by reflexivity.
  assert (Hin : cole ∈ after_categories spec rankings_df)
    by (vm_compute; set_solver).
  destruct (C6_missing_ras_kept_missing_year_dropped spec rankings_df cole)
    as (Hkeep & Hdrop & _).
  split; [exact Hras |]. split; [exact Hyear |]. split; [exact Hin |].
  split; [exact (Hkeep Hras) |]. split; [exact (Hdrop Hyear Hin) |].
  vm_compute. reflexivity.
Defined.

(** *** The category filter *)

Lemma filter_all {A : Type} (P : A -> Prop) `{!forall x, Decision (P x)}
    (l : list A) :
  (forall x, x ∈ l -> P x) -> filter P l = l.
Proof.
  induction l as [| a l IH]; intros Hall; [reflexivity |].
  rewrite filter_cons, decide_True by (apply Hall; left).
  f_equal. apply IH. intros x Hx. apply Hall. by right.
Qed.

Lemma apply_position_subset (position_filter : string) (rows : list Prospect)
    (r : Prospect) :
  r ∈ apply_position position_filter rows -> r ∈ rows.
Proof.
  unfold apply_position. case_bool_decide; [| done].
  rewrite list_elem_of_filter. tauto.
Qed.

Lemma apply_categories_all (selected : list (option string)) (rows : list Prospect) :
  (forall r, r ∈ rows -> player_category r ∈ selected) ->
  apply_categories selected rows = rows.
Proof.
  intros Hall. unfold apply_categories.
  destruct selected; [reflexivity | by apply filter_all].
Qed.

Lemma elem_of_unique_from (seen l : list (option string)) (c : option string) :
  c ∈ unique_from seen l <-> c ∈ l /\ c ∉ seen.
Proof.
  revert seen. induction l as [| a l IH]; intros seen; cbn.
  - split; [by intros ?%elem_of_nil | by intros [?%elem_of_nil _]].
  - case_bool_decide as Ha.
    + rewrite IH, elem_of_cons. split; [tauto |].
      intros [[-> | H] Hn]; [contradiction | tauto].
    + rewrite !elem_of_cons, IH, not_elem_of_cons. split.
      * intros [-> | (H1 & H2 & H3)]; tauto.
      * intros [[-> | H] Hn]; [by left |].
        destruct (decide (c = a)) as [-> | Hne]; [by left | right; tauto].
Qed.

Lemma elem_of_all_categories (rankings_df : RankingsDF) (c : option string) :
  c ∈ all_categories_in_data rankings_df <->
  exists r, player_category r = c /\ r ∈ rk_rows rankings_df.
Proof.
  unfold all_categories_in_data, unique.
  rewrite elem_of_unique_from, elem_of_map. split; [tauto |].
  intros H. split; [exact H | apply not_elem_of_nil].
Qed.

(** The options of the multiselect: the known categories present in the data,
    or every category of the data when none of them is known. *)
Lemma elem_of_available_categories (rankings_df : RankingsDF) (c : option string) :
  c ∈ available_categories rankings_df <->
  c ∈ all_categories_in_data rankings_df /\
  ((exists k, c = Some k /\ k ∈ CATEGORY_ORDER) \/
   forall k, k ∈ CATEGORY_ORDER -> Some k ∉ all_categories_in_data rankings_df).
Proof.
  unfold available_categories.
  destruct (filter _ CATEGORY_ORDER) as [| k0 known] eqn:E.
  - assert (Hnone : forall k, k ∈ CATEGORY_ORDER ->
              Some k ∉ all_categories_in_data rankings_df).
    { intros k Hk Hin.
      assert (Hf : k ∈ filter (fun c => Some c ∈ all_categories_in_data rankings_df)
                     CATEGORY_ORDER) by (by apply list_elem_of_filter).
      rewrite E in Hf. by apply elem_of_nil in Hf. }
    split; [intros H; split; [exact H | by right] | tauto].
  - rewrite <- E, elem_of_map. split.
    + intros (k & <- & [Hk1 Hk2]%list_elem_of_filter). split; [exact Hk1 |].
      left. by exists k.
    + intros [Hin [(k & -> & Hk) | Hnone]].
      * exists k. split; [reflexivity |]. by apply list_elem_of_filter.
      * exfalso. apply (Hnone k0).
        -- assert (Hk0 : k0 ∈ k0 :: known) by left.
           rewrite <- E in Hk0. by apply list_elem_of_filter in Hk0 as [_ ?].
        -- assert (Hk0 : k0 ∈ k0 :: known) by left.
           rewrite <- E in Hk0. by apply list_elem_of_filter in Hk0 as [? _].
Qed.

(** Every category of the data is on offer when all of them are known, and
    when none of them is. *)
Lemma all_known_available (rankings_df : RankingsDF) :
  (forall r, r ∈ rk_rows rankings_df ->
     exists k, player_category r = Some k /\ k ∈ CATEGORY_ORDER) ->
  forall r, r ∈ rk_rows rankings_df ->
    player_category r ∈ available_categories rankings_df.
Proof.
  intros Hknown r Hr. apply elem_of_available_categories. split.
  - apply elem_of_all_categories. by exists r.
  - left. by apply Hknown.
Qed.

Lemma none_known_available (rankings_df : RankingsDF) :
  (forall r k, r ∈ rk_rows rankings_df -> player_category r = Some k ->
     k ∉ CATEGORY_ORDER) ->
  forall r, r ∈ rk_rows rankings_df ->
    player_category r ∈ available_categories rankings_df.
Proof.
  intros Hnone r Hr. apply elem_of_available_categories. split.
  - apply elem_of_all_categories. by exists r.
  - right. intros k Hk (r' & E & Hr')%elem_of_all_categories.
    by apply (Hnone r' k Hr' E).
Qed.

(** C5, as stated, fails: with a category outside the fixed order in the
    data, the empty selection keeps its rows and the selection of all
    available categories drops them. *)
Lemma C5_counterexample :
  available_categories mixed_df = [Some "Elite"] /\
  filter_pipeline (wide_open []) mixed_df = [adams; baker; dunn] /\
  filter_pipeline (wide_open (available_categories mixed_df)) mixed_df
  = [adams; baker].
Proof. split; [| split]; vm_compute; reflexivity. Qed.

(** C5, amended: the empty category selection applies no category filter;
    it gives the same rows as the selection of all available categories when
    every row's category is one of the available categories. *)
Theorem C5_empty_selection_keeps_every_category
    (spec : FilterSpec) (rankings_df : RankingsDF) :
  after_categories (with_categories spec []) rankings_df
  = apply_position (position_filter spec) (rk_rows rankings_df) /\
  ((forall r, r ∈ rk_rows rankings_df ->
      player_category r ∈ available_categories rankings_df) ->
   filter_pipeline (with_categories spec []) rankings_df
   = filter_pipeline
       (with_categories spec (available_categories rankings_df)) rankings_df).
Proof.
  split; [reflexivity |]. intros Hall.
  unfold filter_pipeline, after_year, after_categories. cbn.
  rewrite (apply_categories_all (available_categories rankings_df)); [reflexivity |].
  intros r Hr. by apply Hall, (apply_position_subset (position_filter spec)).
Qed.

Lemma C5_witness :
  (forall r, r ∈ rk_rows elite_df ->
     player_category r ∈ available_categories elite_df) /\
  filter_pipeline (with_categories (wide_open [Some "Risk"]) []) elite_df
  = filter_pipeline
      (with_categories (wide_open [Some "Risk"]) (available_categories elite_df))
      elite_df.
Proof.
  assert (Hall : forall r, r ∈ rk_rows elite_df ->
            player_category r ∈ available_categories elite_df).
  { apply all_known_available. intros r Hr. cbn in Hr.
    exists "Elite". unfold CATEGORY_ORDER.
    apply elem_of_cons in Hr as [-> | Hr]; [split; [reflexivity | left] |].
    apply list_elem_of_singleton in Hr as ->. split; [reflexivity | left]. }
  split; [exact Hall |].
  exact (proj2 (C5_empty_selection_keeps_every_category
                  (wide_open [Some "Risk"]) elite_df) Hall).
Defined.

(** *** The order of the rankings table *)

Lemma insert_by_perm {A : Type} (le : A -> A -> bool) (x : A) (l : list A) :
  Permutation (insert_by le x l) (x :: l).
Proof.
  induction l as [| y l IH]; cbn; [reflexivity |].
  destruct (le x y); [reflexivity |].
  rewrite IH. apply perm_swap.
Qed.

Lemma sort_by_perm {A : Type} (le : A -> A -> bool) (l : list A) :
  Permutation (sort_by le l) l.
Proof.
  induction l as [| x l IH]; cbn; [reflexivity |].
  fold (sort_by le l). rewrite insert_by_perm. by constructor.
Qed.

Section Sorting.
Context {A : Type} (le : A -> A -> bool).
Hypothesis le_total : forall a b, le a b = false -> le b a = true.
Hypothesis le_trans : forall a b c, le a b = true -> le b c = true -> le a c = true.

Lemma insert_by_sorted (x : A) (l : list A) :
  StronglySorted (fun a b => le a b = true) l ->
  StronglySorted (fun a b => le a b = true) (insert_by le x l).
Proof.
  induction 1 as [| y l Hs IH Hy]; cbn; [repeat constructor |].
  destruct (le x y) eqn:E.
  - constructor; [by constructor |].
    constructor; [exact E |].
    eapply Forall_impl; [exact Hy |]. cbn. intros z Hz. by eapply le_trans.
  - constructor; [exact IH |].
    apply Forall_forall. intros z Hz.
    rewrite (insert_by_perm le x l) in Hz.
    apply elem_of_cons in Hz as [-> | Hz].
    + by apply le_total.
    + rewrite Forall_forall in Hy. by apply Hy.
Qed.

Lemma sort_by_sorted (l : list A) :
  StronglySorted (fun a b => le a b = true) (sort_by le l).
Proof.
  induction l as [| x l IH]; cbn; [constructor |].
  by apply insert_by_sorted.
Qed.

End Sorting.

Lemma strongly_sorted_lookup {A : Type} (R : A -> A -> Prop) (l : list A) :
  StronglySorted R l ->
  forall (i j : nat) (a b : A),
    (i < j)%nat -> l !! i = Some a -> l !! j = Some b -> R a b.
Proof.
  induction 1 as [| x l Hs IH Hx]; intros i j a b Hij Hi Hj.
  - by rewrite lookup_nil in Hi.
  - destruct j as [| j]; [lia |]. cbn in Hj.
    destruct i as [| i]; cbn in Hi.
    + injection Hi as <-. rewrite Forall_forall in Hx.
      apply Hx, list_elem_of_lookup. by exists j.
    + apply (IH i j); [lia | done | done].
Qed.

Lemma key_le_total (asc : bool) (a b : option Q) :
  key_le asc a b = false -> key_le asc b a = true.
Proof.
  destruct a as [x |], b as [y |], asc; cbn; try done;
    intros H; apply Qle_bool_iff; apply not_true_iff_false in H;
    rewrite Qle_bool_iff in H; lra.
Qed.

Lemma key_le_trans (asc : bool) (a b c : option Q) :
  key_le asc a b = true -> key_le asc b c = true -> key_le asc a c = true.
Proof.
  destruct a as [x |], b as [y |], c as [z |], asc; cbn; try done;
    rewrite !Qle_bool_iff; lra.
Qed.

Lemma table_le_total (a b : Prospect) :
  table_le a b = false -> table_le b a = true.
Proof.
  unfold table_le. cbv zeta.
  destruct (Nat.ltb_spec (Category_Order (player_category a))
              (Category_Order (player_category b))); [done |].
  destruct (Nat.eqb_spec (Category_Order (player_category a))
              (Category_Order (player_category b))) as [E | Hne]; cbn.
  - intros Hk%key_le_total. rewrite E, Nat.eqb_refl, Hk. apply orb_true_r.
  - intros _. apply orb_true_iff. left. apply Nat.ltb_lt. lia.
Qed.

Lemma table_le_spec (a b : Prospect) :
  table_le a b = true <->
  (Category_Order (player_category a) < Category_Order (player_category b))%nat \/
  (Category_Order (player_category a) = Category_Order (player_category b) /\
   key_le true (composite_rank a) (composite_rank b) = true).
Proof.
  unfold table_le. cbv zeta.
  by rewrite orb_true_iff, andb_true_iff, Nat.ltb_lt, Nat.eqb_eq.
Qed.

Lemma table_le_trans (a b c : Prospect) :
  table_le a b = true -> table_le b c = true -> table_le a c = true.
Proof.
  rewrite !table_le_spec.
  intros [H1 | [E1 K1]] [H2 | [E2 K2]]; try (left; lia).
  right. split; [lia | by eapply key_le_trans].
Qed.

(** What [create_great_table] does to the row order: the rows are kept, the
    categories appear in the fixed display order with unrecognized ones
    last, and inside a category the rows go by composite rank, whatever the
    order of its input. *)
Lemma create_great_table_order (df : list Prospect) :
  Permutation (create_great_table df) df /\
  grouped_in_display_order (create_great_table df) /\
  ordered_within_groups composite_rank true (create_great_table df).
Proof.
  pose proof (strongly_sorted_lookup _ _
    (sort_by_sorted table_le table_le_total table_le_trans df)) as Hs.
  split; [apply sort_by_perm |]. split.
  - intros i j a b Hij Hi Hj.
    pose proof (Hs i j a b Hij Hi Hj) as Hab.
    apply table_le_spec in Hab as [H | [H _]]; lia.
  - intros i j a b Hij Hi Hj Hcat.
    pose proof (Hs i j a b Hij Hi Hj) as Hab.
    apply table_le_spec in Hab as [H | [_ H]]; [| exact H].
    rewrite Hcat in H. lia.
Qed.

(** A category of the fixed order has its position in it as [Category_Order];
    every other category, and a missing one, has 99. *)
Lemma Category_Order_known (c : option string) :
  (exists k, c = Some k /\ k ∈ CATEGORY_ORDER /\ (Category_Order c < 6)%nat) \/
  ((forall k, c = Some k -> k ∉ CATEGORY_ORDER) /\ Category_Order c = 99%nat).
Proof.
  destruct c as [x |]; [| right; split; [intros k [=] | reflexivity]].
  unfold Category_Order, CATEGORY_ORDER. cbn.
  repeat (case_bool_decide;
    [left; exists x; split; [reflexivity |]; subst x;
     split; [apply list_elem_of_In; cbn; tauto | cbn; lia] |]).
  right. split; [| reflexivity]. intros k [= <-] Hin.
  repeat (apply elem_of_cons in Hin as [-> | Hin]; [done |]).
  by apply elem_of_nil in Hin.
Qed.

(** In the table the rows of unrecognized categories come last. *)
Lemma unrecognized_categories_last (df : list Prospect) (i j : nat) (a b : Prospect) :
  (i < j)%nat ->
  create_great_table df !! i = Some a -> create_great_table df !! j = Some b ->
  Category_Order (player_category a) = 99%nat ->
  Category_Order (player_category b) = 99%nat.
Proof.
  intros Hij Hi Hj Ha.
  destruct (create_great_table_order df) as (_ & Hgroup & _).
  pose proof (Hgroup i j a b Hij Hi Hj) as Hle.
  destruct (Category_Order_known (player_category b)) as [(k & _ & _ & Hlt) | [_ E]];
    [lia | exact E].
Qed.

(** C4: the rankings tab sorts by the chosen key and then builds the table,
    which sorts again by category and composite rank.  With RAS chosen, two
    Elite players come out by composite rank, the lower RAS first. *)
Theorem C4_table_order_ignores_chosen_key :
  sorted_df ByRAS [adams; baker] = [baker; adams] /\
  rankings_table ByRAS [adams; baker] = [adams; baker] /\
  ~ ordered_within_groups RAS false (rankings_table ByRAS [adams; baker]) /\
  ordered_within_groups composite_rank true (rankings_table ByRAS [adams; baker]).
Proof.
  split; [vm_compute; reflexivity |]. split; [vm_compute; reflexivity |]. split.
  - intros H. specialize (H 0%nat 1%nat adams baker).
    assert (E : key_le false (RAS adams) (RAS baker) = true).
    { apply H; [lia | reflexivity | reflexivity | reflexivity]. }
    vm_compute in E. discriminate.
  - apply create_great_table_order.
Qed.

(** *** Draft-pick text *)

Lemma format_draft_pick_undrafted (row : gmap string (option Q)) :
  isna_get row "draft_round" = true -> format_draft_pick row = Ok "UDFA".
Proof. unfold format_draft_pick. by intros ->. Qed.

Lemma format_draft_pick_drafted (row : gmap string (option Q)) (r p : Q) :
  row !! "draft_round" = Some (Some r) ->
  row !! "draft_overall_selection" = Some (Some p) ->
  format_draft_pick row
  = Ok ("R" +:+ str_of_int (int_of r) +:+ " #" +:+ str_of_int (int_of p)).
Proof.
  intros Hr Hp. unfold format_draft_pick, isna_get, getitem.
  by rewrite Hr, Hp.
Qed.

(** The pick text is an exception exactly when the round is present and the
    overall selection is not. *)
Lemma format_draft_pick_raises (row : gmap string (option Q)) :
  (exists e, format_draft_pick row = Raise e) <->
  isna_get row "draft_round" = false /\
  isna_get row "draft_overall_selection" = true.
Proof.
  unfold format_draft_pick, isna_get, getitem.
  destruct (row !! "draft_round") as [[r |] |];
    destruct (row !! "draft_overall_selection") as [[p |] |]; cbn;
    split; try (intros [e He]; discriminate); try (intros [? ?]; discriminate);
    try (intros _; eauto); done.
Qed.

(** C8: for a drafted player whose overall selection is missing,
    [format_draft_pick] raises [ValueError] instead of returning a text. *)
Theorem C8_format_draft_pick_raises_without_pick :
  round_without_pick !! "draft_round" = Some (Some 1%Q) /\
  round_without_pick !! "draft_overall_selection" = Some None /\
  format_draft_pick round_without_pick = Raise ValueError /\
  format_draft_pick first_round_pick = Ok "R1 #15" /\
  format_draft_pick ∅ = Ok "UDFA".
Proof. repeat split; vm_compute; reflexivity. Qed.

End RankingsProofs.

(** ** Properties of the comparison highlighter *)

Module CompareProofs.
Import Py Compare Samples.

Section Highlight.
Variable py_float : string -> option PrimFloat.float.
Variable py_str : PrimFloat.float -> string.

Local Abbreviation parse_cell := (parse_cell py_float py_str).
Local Abbreviation numeric_cells := (numeric_cells py_float py_str).
Local Abbreviation highlight_cells := (highlight_cells py_float py_str).

(** A cell is numeric when it is present, its text is none of ["N/A"], the
    em-dash and the empty text, and [float] accepts the text without its
    ['%'] and ['#'] and surrounding blanks. *)
Lemma parse_cell_Some (c : cell) (v : PrimFloat.float) :
  parse_cell c = Some v <->
  notna c = true /\ (str py_str c ∉ ["N/A"; "—"; ""]) /\
  py_float (clean (str py_str c)) = Some v.
Proof.
  unfold Compare.parse_cell. destruct (notna c); cbn.
  - case_bool_decide as Hin; cbn.
    + split; [done | intros (_ & Hn & _); contradiction].
    + split; [intros Hv; by repeat split | by intros (_ & _ & Hv)].
  - split; [done | by intros (Hf & _)].
Qed.

(** [values] and [indices] grow together, one entry per numeric cell. *)
Lemma numeric_cells_lengths (idx : nat) (cells : list cell) :
  length (numeric_cells idx cells).1
  = length (filter (fun c => is_Some (parse_cell c)) cells) /\
  length (numeric_cells idx cells).2 = length (numeric_cells idx cells).1.
Proof.
  revert idx. induction cells as [| c cells IH]; intros idx; [done |].
  cbn [Compare.numeric_cells]. destruct (IH (S idx)) as [IH1 IH2].
  destruct (numeric_cells (S idx) cells) as [values indices].
  rewrite filter_cons. cbn in IH1, IH2.
  destruct (parse_cell c) as [v |]; cbn;
    destruct (decide _) as [H | H]; cbn; try (split; lia); exfalso.
  - apply H. by eexists.
  - by apply is_Some_None in H.
Qed.

(** Every index collected belongs to a numeric cell. *)
Lemma numeric_cells_indices (idx : nat) (cells : list cell) (i : nat) :
  i ∈ (numeric_cells idx cells).2 ->
  (idx <= i)%nat /\
  exists c v, cells !! (i - idx)%nat = Some c /\ parse_cell c = Some v.
Proof.
  revert idx. induction cells as [| c cells IH]; intros idx; cbn.
  - by intros ?%elem_of_nil.
  - specialize (IH (S idx)).
    destruct (numeric_cells (S idx) cells) as [values indices]. cbn in IH.
    assert (Hrest : i ∈ indices ->
      (idx <= i)%nat /\
      exists c' v, (c :: cells) !! (i - idx)%nat = Some c' /\ parse_cell c' = Some v).
    { intros Hi. destruct (IH Hi) as (Hle & c' & v & Hc' & Hv).
      split; [lia |]. exists c', v. split; [| exact Hv].
      replace (i - idx)%nat with (S (i - S idx)) by lia. exact Hc'. }
    destruct (parse_cell c) as [v |] eqn:E; cbn; [| exact Hrest].
    intros [-> | Hi]%elem_of_cons; [| by apply Hrest].
    split; [lia |]. exists c, v. by rewrite Nat.sub_diag.
Qed.

(** A cell that is not numeric can be replaced by any other such cell. *)
Lemma numeric_cells_insert (idx : nat) (cells : list cell) (i : nat) (c c' : cell) :
  cells !! i = Some c -> parse_cell c = None -> parse_cell c' = None ->
  numeric_cells idx (<[i := c']> cells) = numeric_cells idx cells.
Proof.
  revert idx i. induction cells as [| a cells IH]; intros idx i Hi Hc Hc'.
  - by rewrite lookup_nil in Hi.
  - destruct i as [| i]; cbn in Hi.
    + injection Hi as ->.
      change (<[0%nat := c']> (c :: cells)) with (c' :: cells).
      cbn [Compare.numeric_cells]. by rewrite Hc, Hc'.
    + change (<[S i := c']> (a :: cells)) with (a :: <[i := c']> cells).
      cbn [Compare.numeric_cells]. by rewrite (IH (S idx) i Hi Hc Hc').
Qed.

(** The styling loop writes only at the indices it is given. *)
Lemma style_loop_untouched (higher_better : bool) (best_val : PrimFloat.float)
    (values : list PrimFloat.float) (todo : list (nat * PrimFloat.float))
    (styles0 styles : list string) (i : nat) :
  style_loop higher_better best_val values todo styles0 = Ok styles ->
  i ∉ todo.*1 -> styles !! i = styles0 !! i.
Proof.
  revert styles0. induction todo as [| [idx val] todo IH]; intros styles0; cbn.
  - by intros [= <-] _.
  - destruct (style_cell higher_better best_val values val) as [st | e]; cbn;
      [| discriminate].
    intros Hloop [Hne Hni]%not_elem_of_cons. rewrite (IH _ Hloop Hni).
    destruct st; [by apply list_lookup_insert_ne | reflexivity].
Qed.

Lemma zip_fst_subset {A B : Type} (l : list A) (k : list B) (x : A) :
  x ∈ (zip l k).*1 -> x ∈ l.
Proof.
  revert k. induction l as [| a l IH]; intros [| b k]; cbn;
    try (by intros ?%elem_of_nil).
  intros [-> | H]%elem_of_cons; [left | right; by eapply IH].
Qed.

(** C10: when fewer than two cells of a row are numeric the row comes back
    unstyled; a cell that is styled belongs to a row with at least two
    numeric cells, is not the metric name and is numeric itself; and a cell
    that is not numeric takes no part: replacing it by another such cell
    changes nothing. *)
Theorem C10_highlight_needs_two_numeric_cells (metrics_config : gmap string bool) :
  (forall (metric : cell) (cells : list cell),
     (length (filter (fun c => is_Some (parse_cell c)) cells) < 2)%nat ->
     highlight_cells metrics_config (metric :: cells)
     = Ok (replicate (S (length cells)) "")) /\
  (forall (metric : cell) (cells : list cell) (styles : list string)
          (i : nat) (s : string),
     highlight_cells metrics_config (metric :: cells) = Ok styles ->
     styles !! i = Some s -> s <> "" ->
     (2 <= length (filter (fun c => is_Some (parse_cell c)) cells))%nat /\
     (1 <= i)%nat /\
     exists c v, (metric :: cells) !! i = Some c /\ parse_cell c = Some v) /\
  (forall (metric : cell) (cells : list cell) (i : nat) (c c' : cell),
     cells !! i = Some c -> parse_cell c = None -> parse_cell c' = None ->
     highlight_cells metrics_config (metric :: <[i := c']> cells)
     = highlight_cells metrics_config (metric :: cells)).
Proof.
  split; [| split].
  - intros metric cells Hfew. unfold Compare.highlight_cells. cbn [length].
    destruct (config_of metrics_config metric); [| reflexivity].
    destruct (numeric_cells_lengths 1 cells) as [Hlen _].
    destruct (numeric_cells 1 cells) as [values indices]. cbn in Hlen.
    rewrite Hlen.
    destruct (Nat.ltb_spec
      (length (filter (fun c => is_Some (parse_cell c)) cells)) 2); [done | lia].
  - intros metric cells styles i s Hhl Hi Hs.
    unfold Compare.highlight_cells in Hhl. cbn [length] in Hhl.
    assert (Hplain : Ok (replicate (S (length cells)) "") <> Ok styles).
    { intros [= <-].
      apply (lookup_replicate (S (length cells))) in Hi as [-> _]. done. }
    destruct (config_of metrics_config metric) as [hb |]; [| done].
    destruct (numeric_cells_lengths 1 cells) as [Hlen _].
    pose proof (numeric_cells_indices 1 cells i) as Hidx.
    destruct (numeric_cells 1 cells) as [values indices]. cbn in Hlen, Hidx.
    rewrite Hlen in Hhl.
    destruct (Nat.ltb_spec (length (filter (fun c => is_Some (parse_cell c)) cells)) 2);
      [done |].
    split; [lia |].
    destruct (decide (i ∈ (zip indices values).*1)) as [Hin | Hout].
    + apply zip_fst_subset, Hidx in Hin as (Hle & c & v & Hc & Hv).
      split; [exact Hle |]. exists c, v. split; [| exact Hv].
      destruct i as [| i]; [lia |].
      replace (S i - 1)%nat with i in Hc by lia. exact Hc.
    + rewrite (style_loop_untouched _ _ _ _ _ _ _ Hhl Hout) in Hi.
      apply (lookup_replicate (S (length cells))) in Hi as [-> _]. done.
  - intros metric cells i c c' Hi Hc Hc'.
    unfold Compare.highlight_cells. cbn [length].
    by rewrite length_insert, (numeric_cells_insert 1 cells i c c' Hi Hc Hc').
Qed.

End Highlight.

Lemma C10_witness :
  (length (filter (fun c => is_Some (parse_cell decimal_float no_float_cells c))
             (tail lone_ras_row)) < 2)%nat /\
  highlight_cells decimal_float no_float_cells ras_config lone_ras_row
  = Ok ["" ; ""; ""; ""] /\
  highlight_cells decimal_float no_float_cells ras_config ras_row
  = Ok [""; BEST; ""; ""; NEAR] /\
  (2 <= length (filter (fun c => is_Some (parse_cell decimal_float no_float_cells c))
             (tail ras_row)))%nat /\
  highlight_cells decimal_float no_float_cells ras_config
    (CStr "RAS" :: <[1%nat := CStr "n/a"]> (tail ras_row))
  = highlight_cells decimal_float no_float_cells ras_config ras_row.
Proof.
  destruct (C10_highlight_needs_two_numeric_cells decimal_float no_float_cells
              ras_config) as (Hfew & Honly & Hskip).
  assert (H1 : (length (filter
              (fun c => is_Some (parse_cell decimal_float no_float_cells c))
              (tail lone_ras_row)) < 2)%nat) by (vm_compute; lia).
  assert (H2 : highlight_cells decimal_float no_float_cells ras_config ras_row
               = Ok [""; BEST; ""; ""; NEAR]) by (vm_compute; reflexivity).
  split; [exact H1 |].
  split; [exact (Hfew (CStr "RAS") (tail lone_ras_row) H1) |].
  split; [exact H2 |].
  split.
  - refine (proj1 (Honly (CStr "RAS") (tail ras_row) _ 1%nat BEST H2 _ _));
      [reflexivity | discriminate].
  - apply (Hskip (CStr "RAS") (tail ras_row) 1%nat (CStr "N/A") (CStr "n/a"));
      vm_compute; reflexivity.
Defined.

End CompareProofs.

(** ** Further properties of the tracking statistics and views *)

Module TrackingExtras.
Import Py Series Tracking TrackingSpec Samples TrackingViews ViewsSpec TrackingProofs.

Lemma of_nat_le (n m : nat) : (n <= m)%nat -> (of_nat n <= of_nat m)%Q.
Proof. intros H. unfold of_nat. rewrite <- Zle_Qle. lia. Qed.

Lemma length_distinct_le (l : list Q) : (length (distinct l) <= length l)%nat.
Proof.
  induction l as [| v l IH]; cbn; [lia |].
  destruct (existsb (Qeq_bool v) l); cbn; lia.
Qed.

Lemma nunique_le (col : list (option Q)) : (nunique col <= length col)%nat.
Proof.
  unfold nunique. pose proof (length_distinct_le (dropna col)).
  pose proof (length_dropna_le col). lia.
Qed.

(** *** The keys of the mapping *)

(** X1: The mapping never holds a name outside the eleven statistics. *)
Theorem stats_keys_are_known (df : DataFrame) (k : string) :
  is_Some (calculate_tracking_stats df !! k) -> k ∈ stat_keys.
Proof.
  intros Hk. destruct (decide (k ∈ stat_keys)) as [Hin | Hout]; [exact Hin |].
  exfalso. unfold stat_keys in Hout.
  repeat (apply not_elem_of_cons in Hout as [? Hout]).
  revert Hk. unfold calculate_tracking_stats.
  destruct (df_empty df); [rewrite lookup_empty; by intros [? ?] |].
  rewrite direction_stats_frame, play_stats_frame, time_stats_frame,
    frame_stats_frame, distance_stats_frame, acceleration_stats_frame,
    speed_stats_frame, lookup_empty by done.
  by intros [? ?].
Qed.

Lemma stats_keys_are_known_witness :
  is_Some (calculate_tracking_stats one_frame_no_play !! "play_count") /\
  "play_count" ∈ stat_keys.
Proof.
  assert (H : is_Some (calculate_tracking_stats one_frame_no_play !! "play_count"))
    by (vm_compute; eauto).
  split; [exact H | exact (stats_keys_are_known _ _ H)].
Defined.

(** *** Play count *)

Lemma play_count_lookup (df : DataFrame) :
  calculate_tracking_stats df !! "play_count" =
  if df_empty df then None
  else match columns df !! "play_id" with
       | Some col => Some (of_nat (nunique col))
       | None =>
           match columns df !! "playId" with
           | Some col => Some (of_nat (nunique col))
           | None => None
           end
       end.
Proof.
  unfold calculate_tracking_stats. destruct (df_empty df); [apply lookup_empty |].
  rewrite direction_stats_frame by done. unfold play_stats.
  destruct (columns df !! "play_id"); [apply lookup_insert_eq |].
  destruct (columns df !! "playId"); [apply lookup_insert_eq |].
  rewrite time_stats_frame, frame_stats_frame, distance_stats_frame,
    acceleration_stats_frame, speed_stats_frame by done.
  apply lookup_empty.
Qed.

(** X2: For a table that is not empty, [play_count] is present exactly when one
    of the two play-identifier columns exists; [play_id] is the one counted
    when both exist; and the count is at most the number of frames. *)
Theorem play_count_presence_and_bound (df : DataFrame) :
  df_empty df = false ->
  (is_Some (calculate_tracking_stats df !! "play_count") <->
   is_Some (columns df !! "play_id") \/ is_Some (columns df !! "playId")) /\
  (forall col, columns df !! "play_id" = Some col ->
     calculate_tracking_stats df !! "play_count" = Some (of_nat (nunique col))) /\
  (df_wf df -> forall v, calculate_tracking_stats df !! "play_count" = Some v ->
     (0 <= v /\ v <= of_nat (nrows df))%Q).
Proof.
  intros He. rewrite play_count_lookup, He. split; [| split].
  - destruct (columns df !! "play_id") as [c1 |];
      destruct (columns df !! "playId") as [c2 |]; split; intros H; eauto;
      try (destruct H as [[? ?] | [? ?]]; discriminate);
      destruct H as [? ?]; discriminate.
  - by intros col ->.
  - intros Hwf v Hv.
    assert (Hcol : exists name col, columns df !! name = Some col /\
                     v = of_nat (nunique col)).
    { destruct (columns df !! "play_id") as [c1 |] eqn:E1.
      - exists "play_id", c1. split; [done | congruence].
      - destruct (columns df !! "playId") as [c2 |] eqn:E2; [| discriminate].
        exists "playId", c2. split; [done | congruence]. }
    destruct Hcol as (name & col & Hcol & ->).
    pose proof (Hwf name col Hcol) as Hlen. cbn in Hlen.
    pose proof (nunique_le col).
    split; [apply (of_nat_le 0); lia | apply of_nat_le; lia].
Qed.

Lemma play_count_presence_and_bound_witness :
  let df := mkDF 3 (<["play_id" := [Some 7%Q; Some 7%Q; None]]>
                      {[ "playId" := [Some 1%Q; Some 2%Q; Some 3%Q] ]}) in
  df_empty df = false /\ df_wf df /\
  calculate_tracking_stats df !! "play_count" = Some 1%Q /\
  (0 <= 1 /\ 1 <= of_nat (nrows df))%Q.
Proof.
  intros df.
  assert (He : df_empty df = false) by (vm_compute; reflexivity).
  assert (Hwf : df_wf df).
  { apply map_Forall_insert_2; [reflexivity |].
    apply map_Forall_singleton. reflexivity. }
  destruct (play_count_presence_and_bound df He) as (_ & Hpref & Hbound).
  assert (Hv : calculate_tracking_stats df !! "play_count" = Some 1%Q).
  { rewrite (Hpref [Some 7%Q; Some 7%Q; None]); [reflexivity |].
    apply lookup_insert_eq. }
  split; [exact He |]. split; [exact Hwf |]. split; [exact Hv |].
  exact (Hbound Hwf _ Hv).
Defined.

(** *** Time span *)

Lemma total_time_lookup (df : DataFrame) :
  calculate_tracking_stats df !! "total_time_seconds" =
  if df_empty df then None
  else match columns df !! "ts" with
       | Some col =>
           if (1 <? length (dropna col))%nat
           then Some (series_max (dropna col) - series_min (dropna col))%Q
           else None
       | None => None
       end.
Proof.
  unfold calculate_tracking_stats. destruct (df_empty df); [apply lookup_empty |].
  rewrite direction_stats_frame, play_stats_frame by done. unfold time_stats.
  assert (Hrest : frame_stats df (distance_stats df (acceleration_stats df
            (speed_stats df ∅))) !! "total_time_seconds" = None).
  { rewrite frame_stats_frame, distance_stats_frame, acceleration_stats_frame,
      speed_stats_frame by done. apply lookup_empty. }
  destruct (columns df !! "ts") as [col |]; [| exact Hrest].
  destruct (1 <? length (dropna col))%nat; [apply lookup_insert_eq | exact Hrest].
Qed.

(** X3: For a table that is not empty, [total_time_seconds] is present exactly
    when at least two timestamps are not missing; it is the latest minus the
    earliest timestamp, whatever the order of the rows, and is never
    negative. *)
Theorem total_time_is_span (df : DataFrame) :
  df_empty df = false ->
  (is_Some (calculate_tracking_stats df !! "total_time_seconds") <->
   exists col, columns df !! "ts" = Some col /\ (2 <= length (dropna col))%nat) /\
  (forall v, calculate_tracking_stats df !! "total_time_seconds" = Some v ->
     exists col latest earliest,
       columns df !! "ts" = Some col /\
       is_maximum (dropna col) latest /\ is_minimum (dropna col) earliest /\
       v = (latest - earliest)%Q /\ (0 <= v)%Q).
Proof.
  intros He. rewrite total_time_lookup, He. split.
  - destruct (columns df !! "ts") as [col |].
    + destruct (Nat.ltb_spec 1 (length (dropna col))); split.
      * intros _. exists col. split; [reflexivity | lia].
      * intros _. eauto.
      * intros [? [=]].
      * intros (col' & [= <-] & Hlen). lia.
    + split; [intros [? [=]] | intros (col' & [=] & _)].
  - intros v Hv. destruct (columns df !! "ts") as [col |]; [| discriminate].
    destruct (Nat.ltb_spec 1 (length (dropna col))) as [Hlen |]; [| discriminate].
    injection Hv as <-.
    assert (Hne : dropna col <> []) by (destruct (dropna col); [cbn in Hlen; lia | done]).
    pose proof (series_max_is_maximum _ Hne) as Hmax.
    pose proof (series_min_is_minimum _ Hne) as Hmin.
    exists col, (series_max (dropna col)), (series_min (dropna col)).
    repeat (split; [done |]).
    destruct Hmax as [Hin _], Hmin as [_ Hlb]. specialize (Hlb _ Hin). lra.
Qed.

Lemma total_time_is_span_witness :
  let df := single_column "ts" [Some 30%Q; None; Some 10%Q; Some 25%Q] in
  df_empty df = false /\
  calculate_tracking_stats df !! "total_time_seconds" = Some (30 - 10)%Q /\
  exists col latest earliest,
    columns df !! "ts" = Some col /\
    is_maximum (dropna col) latest /\ is_minimum (dropna col) earliest /\
    (30 - 10)%Q = (latest - earliest)%Q /\ (0 <= 30 - 10)%Q.
Proof.
  intros df.
  assert (He : df_empty df = false) by (vm_compute; reflexivity).
  assert (Hv : calculate_tracking_stats df !! "total_time_seconds" = Some (30 - 10)%Q)
    by (rewrite total_time_lookup; vm_compute; reflexivity).
  split; [exact He |]. split; [exact Hv |].
  exact (proj2 (total_time_is_span df He) _ Hv).
Defined.

(** *** Distance and acceleration *)

Lemma distance_lookup (df : DataFrame) (k : string) :
  k ∈ ["total_distance"; "avg_distance_per_frame"] ->
  calculate_tracking_stats df !! k =
  if df_empty df then None
  else distance_stats df (acceleration_stats df (speed_stats df ∅)) !! k.
Proof.
  intros Hk. unfold calculate_tracking_stats.
  destruct (df_empty df); [apply lookup_empty |].
  rewrite direction_stats_frame, play_stats_frame, time_stats_frame,
    frame_stats_frame; first reflexivity;
    intros ->; repeat (apply elem_of_cons in Hk as [Hk | Hk]; [done |]);
    by apply elem_of_nil in Hk.
Qed.

Lemma acceleration_lookup (df : DataFrame) (k : string) :
  k ∈ ["max_acceleration"; "avg_acceleration"] ->
  calculate_tracking_stats df !! k =
  if df_empty df then None
  else acceleration_stats df (speed_stats df ∅) !! k.
Proof.
  intros Hk. unfold calculate_tracking_stats.
  destruct (df_empty df); [apply lookup_empty |].
  rewrite direction_stats_frame, play_stats_frame, time_stats_frame,
    frame_stats_frame, distance_stats_frame; first reflexivity;
    intros ->; repeat (apply elem_of_cons in Hk as [Hk | Hk]; [done |]);
    by apply elem_of_nil in Hk.
Qed.

(** X4: With at least one distance sample, [total_distance] is the sum of the
    non-missing samples and [avg_distance_per_frame] is their mean: the
    average times the number of samples is the total.  Frames without a
    distance count in neither. *)
Theorem distance_total_and_mean (df : DataFrame) (col : list (option Q)) :
  df_wf df ->
  columns df !! "dis" = Some col ->
  (1 <= length (dropna col))%nat ->
  exists total avg : Q,
    calculate_tracking_stats df !! "total_distance" = Some total /\
    calculate_tracking_stats df !! "avg_distance_per_frame" = Some avg /\
    (total == fold_right Qplus 0 (dropna col))%Q /\
    (avg * of_nat (length (dropna col)) == total)%Q.
Proof.
  intros Hwf Hcol Hlen.
  assert (Hne : dropna col <> []) by (destruct (dropna col); [cbn in Hlen; lia | done]).
  assert (He : df_empty df = false).
  { apply (df_wf_not_empty df "dis" col Hwf Hcol).
    pose proof (length_dropna_le col). lia. }
  exists (series_sum (dropna col)), (series_mean (dropna col)).
  rewrite !distance_lookup, He by set_solver.
  unfold distance_stats. rewrite Hcol. cbv zeta.
  destruct (Nat.ltb_spec 0 (length (dropna col))) as [_ | ?]; [| lia].
  split; [by rewrite lookup_insert_ne, lookup_insert_eq by done |].
  split; [by rewrite lookup_insert_eq |].
  split; [apply series_sum_fold_right |].
  rewrite series_sum_fold_right. by apply series_mean_is_mean.
Qed.

Lemma distance_total_and_mean_witness :
  let col := [Some 1%Q; None; Some 2%Q; Some 3%Q] in
  let df := single_column "dis" col in
  df_wf df /\ columns df !! "dis" = Some col /\ (1 <= length (dropna col))%nat /\
  exists total avg : Q,
    calculate_tracking_stats df !! "total_distance" = Some total /\
    calculate_tracking_stats df !! "avg_distance_per_frame" = Some avg /\
    (total == fold_right Qplus 0 (dropna col))%Q /\
    (avg * of_nat (length (dropna col)) == total)%Q.
Proof.
  intros col df.
  assert (Hwf : df_wf df) by apply single_column_wf.
  assert (Hcol : columns df !! "dis" = Some col) by apply lookup_singleton_eq.
  assert (Hlen : (1 <= length (dropna col))%nat) by (cbn; lia).
  split; [exact Hwf |]. split; [exact Hcol |]. split; [exact Hlen |].
  exact (distance_total_and_mean df col Hwf Hcol Hlen).
Defined.

(** X5: With at least one acceleration sample, [max_acceleration] is the largest
    of the non-missing samples (one of them, and a bound of all) and
    [avg_acceleration] is their mean; frames without an acceleration count
    in neither. *)
Theorem acceleration_max_and_mean (df : DataFrame) (col : list (option Q)) :
  df_wf df ->
  columns df !! "a" = Some col ->
  (1 <= length (dropna col))%nat ->
  exists mx avg : Q,
    calculate_tracking_stats df !! "max_acceleration" = Some mx /\
    calculate_tracking_stats df !! "avg_acceleration" = Some avg /\
    is_maximum (dropna col) mx /\ is_mean (dropna col) avg.
Proof.
  intros Hwf Hcol Hlen.
  assert (Hne : dropna col <> []) by (destruct (dropna col); [cbn in Hlen; lia | done]).
  assert (He : df_empty df = false).
  { apply (df_wf_not_empty df "a" col Hwf Hcol).
    pose proof (length_dropna_le col). lia. }
  exists (series_max (dropna col)), (series_mean (dropna col)).
  rewrite !acceleration_lookup, He by set_solver.
  unfold acceleration_stats. rewrite Hcol. cbv zeta.
  destruct (Nat.ltb_spec 0 (length (dropna col))) as [_ | ?]; [| lia].
  split; [by rewrite lookup_insert_ne, lookup_insert_eq by done |].
  split; [by rewrite lookup_insert_eq |].
  split; [by apply series_max_is_maximum | by apply series_mean_is_mean].
Qed.

Lemma acceleration_max_and_mean_witness :
  let col := [Some (-1)%Q; None; Some 2%Q] in
  let df := single_column "a" col in
  df_wf df /\ columns df !! "a" = Some col /\ (1 <= length (dropna col))%nat /\
  exists mx avg : Q,
    calculate_tracking_stats df !! "max_acceleration" = Some mx /\
    calculate_tracking_stats df !! "avg_acceleration" = Some avg /\
    is_maximum (dropna col) mx /\ is_mean (dropna col) avg.
Proof.
  intros col df.
  assert (Hwf : df_wf df) by apply single_column_wf.
  assert (Hcol : columns df !! "a" = Some col) by apply lookup_singleton_eq.
  assert (Hlen : (1 <= length (dropna col))%nat) by (cbn; lia).
  split; [exact Hwf |]. split; [exact Hcol |]. split; [exact Hlen |].
  exact (acceleration_max_and_mean df col Hwf Hcol Hlen).
Defined.

(** *** A bound on the direction changes *)

Lemma direction_changes_spec_le (l : list Q) :
  (direction_changes_spec l <= length l - 1)%nat.
Proof.
  unfold direction_changes_spec, heading_pairs.
  etransitivity; [apply length_filter |].
  rewrite length_zip_with. destruct l as [| a l]; cbn [tail length]; lia.
Qed.

(** X6: The number of direction changes is smaller than the number of headings,
    hence smaller than the number of frames. *)
Theorem direction_changes_below_frames (df : DataFrame) (v : Q) :
  df_wf df ->
  calculate_tracking_stats df !! "direction_changes" = Some v ->
  exists (col : list (option Q)) (n : nat),
    columns df !! "dir" = Some col /\ v = of_nat n /\
    (n < length (dropna col))%nat /\ (n < nrows df)%nat.
Proof.
  intros Hwf. rewrite direction_changes_lookup.
  destruct (df_empty df); [discriminate |].
  destruct (columns df !! "dir") as [col |] eqn:Hcol; [| discriminate].
  destruct (Nat.ltb_spec 1 (length (dropna col))) as [Hlen |]; [| discriminate].
  intros [= <-]. exists col, (significant_changes (dropna col)).
  rewrite significant_changes_spec.
  pose proof (direction_changes_spec_le (dropna col)).
  pose proof (length_dropna_le col).
  pose proof (Hwf "dir" col Hcol) as Hrows. cbn in Hrows.
  repeat split; lia.
Qed.

Lemma direction_changes_below_frames_witness :
  let col := [Some 0%Q; Some 90%Q; None; Some 180%Q] in
  let df := single_column "dir" col in
  df_wf df /\
  calculate_tracking_stats df !! "direction_changes" = Some 2%Q /\
  exists (col' : list (option Q)) (n : nat),
    columns df !! "dir" = Some col' /\ 2%Q = of_nat n /\
    (n < length (dropna col'))%nat /\ (n < nrows df)%nat.
Proof.
  intros col df.
  assert (Hwf : df_wf df) by apply single_column_wf.
  assert (Hv : calculate_tracking_stats df !! "direction_changes" = Some 2%Q)
    by (rewrite direction_changes_lookup; vm_compute; reflexivity).
  split; [exact Hwf |]. split; [exact Hv |].
  exact (direction_changes_below_frames df _ Hwf Hv).
Defined.

(** *** The speed chart against the KPI cards *)

Lemma Qle_bool_scale (a b c : Q) :
  (0 < c)%Q -> Qle_bool (a * c) (b * c) = Qle_bool a b.
Proof.
  intros Hc. apply eq_true_iff_eq. rewrite !Qle_bool_iff.
  split; intros H; [apply (Qmult_le_r _ _ c Hc) | apply Qmult_le_compat_r]; lra.
Qed.

Lemma py_max_scale (a b c : Q) :
  (0 < c)%Q -> py_max (a * c) (b * c) = (py_max a b * c)%Q.
Proof.
  intros Hc. unfold py_max, Qgtb. rewrite (Qle_bool_scale b a c Hc).
  by destruct (Qle_bool b a).
Qed.

Lemma fold_py_max_scale (l : list Q) (a c : Q) :
  (0 < c)%Q ->
  fold_left py_max (map (fun s => s * c)%Q l) (a * c)%Q
  = (fold_left py_max l a * c)%Q.
Proof.
  intros Hc. revert a. induction l as [| x l IH]; intros a; cbn; [reflexivity |].
  by rewrite py_max_scale, IH.
Qed.

Lemma sum_scale (l : list Q) (c : Q) :
  (fold_right Qplus 0 (map (fun s => s * c)%Q l) == fold_right Qplus 0 l * c)%Q.
Proof.
  induction l as [| x l IH]; cbn; [ring |]. rewrite IH. ring.
Qed.

Lemma series_mean_scale (l : list Q) (c : Q) :
  (series_mean (map (fun s => s * c)%Q l) == series_mean l * c)%Q.
Proof.
  unfold series_mean. rewrite !series_sum_fold_right, sum_scale, length_map.
  unfold Qdiv. ring.
Qed.

(** X7: The average and maximum lines of the speed chart are the average and
    maximum KPI of the same table: scaling every sample to MPH first gives
    the same maximum and, as a number, the same mean; without a speed sample
    the chart has neither line and the mapping neither key. *)
Theorem speed_chart_lines_match_kpis (df : DataFrame) (avg mx : option Q) :
  df_wf df ->
  speed_lines df = Some (avg, mx) ->
  option_Forall2 Qeq avg (calculate_tracking_stats df !! "avg_speed_mph") /\
  calculate_tracking_stats df !! "max_speed_mph" = mx.
Proof.
  intros Hwf. unfold speed_lines, speeds_mph.
  destruct (columns df !! "s") as [col |] eqn:Hcol; [| discriminate].
  destruct (dropna col) as [| a l] eqn:Hl.
  - intros [= <- <-].
    assert (Hno : no_values df "s") by (unfold no_values; by rewrite Hcol).
    rewrite !speed_lookup by set_solver.
    rewrite (speed_stats_no_values df ∅ Hno), !lookup_empty.
    destruct (df_empty df); (split; [constructor | reflexivity]).
  - cbn [map]. intros [= <- <-].
    assert (He : df_empty df = false).
    { apply (df_wf_not_empty df "s" col Hwf Hcol).
      pose proof (length_dropna_le col). rewrite Hl in *. cbn in *. lia. }
    rewrite !speed_lookup, He by set_solver.
    unfold speed_stats. rewrite Hcol, Hl. cbn [length Nat.ltb Nat.leb].
    rewrite lookup_insert_ne, lookup_insert_eq by done.
    rewrite !lookup_insert_ne, lookup_insert_eq by done.
    split.
    + constructor. apply (series_mean_scale (a :: l) MPH).
    + f_equal. cbn [series_max]. symmetry. by apply fold_py_max_scale.
Qed.

Lemma speed_chart_lines_match_kpis_witness :
  let df := single_column "s" [Some 2%Q; None; Some 4%Q] in
  df_wf df /\
  exists avg mx, speed_lines df = Some (avg, mx) /\
    option_Forall2 Qeq avg (calculate_tracking_stats df !! "avg_speed_mph") /\
    calculate_tracking_stats df !! "max_speed_mph" = mx.
Proof.
  intros df. split; [apply single_column_wf |].
  eexists _, _. split; [vm_compute; reflexivity |].
  apply speed_chart_lines_match_kpis; [apply single_column_wf |].
  vm_compute; reflexivity.
Defined.

(** *** Zone percentages *)

Lemma count_if_le (p : Q -> bool) (coords : list Q) :
  (count_if p coords <= length coords)%nat.
Proof.
  unfold count_if. induction coords as [| x coords IH]; cbn; [lia |].
  destruct (p x); cbn; lia.
Qed.

Lemma percent_bounds (count total : nat) :
  (count <= total)%nat -> (0 < total)%nat ->
  exists p, percent count total = Some p /\ (0 <= p /\ p <= 100)%Q.
Proof.
  intros Hle Hpos. unfold percent.
  destruct (Nat.eqb_spec total 0) as [E | _]; [lia |].
  eexists. split; [reflexivity |].
  pose proof (of_nat_pos total Hpos) as Hn.
  pose proof (of_nat_le count total Hle) as Hc.
  assert (H0 : (0 <= of_nat count)%Q).
  { unfold of_nat. change 0%Q with (inject_Z 0). rewrite <- Zle_Qle. lia. }
  assert (Hl : (0 <= of_nat count / of_nat total)%Q)
    by (apply Qle_shift_div_l; lra).
  assert (Hu : (of_nat count / of_nat total <= 1)%Q)
    by (apply Qle_shift_div_r; lra).
  split; lra.
Qed.

(** X9: On a heat map with at least one valid x coordinate the "Left Side %" and
    the "End Zone Area %" are defined and lie between 0 and 100, and the left
    share and the right share (computed, not displayed) add up to 100. *)
Theorem x_zone_percentages_bounded (df : DataFrame) (z : ZoneCounts) :
  zone_counts df = Some z -> (0 < total z)%nat ->
  exists l r e : Q,
    left_side_pct z = Some l /\ percent (right_side z) (total z) = Some r /\
    end_zone_area_pct z = Some e /\
    (l + r == 100)%Q /\ (0 <= l /\ l <= 100)%Q /\ (0 <= e /\ e <= 100)%Q.
Proof.
  unfold zone_counts.
  destruct (columns df !! "x") as [xs |]; [| discriminate].
  destruct (columns df !! "y") as [ys |]; [| discriminate].
  intros [= <-]. unfold left_side_pct, end_zone_area_pct.
  cbn [left_side right_side total deep]. intros Hpos.
  destruct (percent_bounds _ _ (count_if_le (fun x => Qltb x 60) (dropna xs)) Hpos)
    as (l & Hl & Hlb).
  destruct (percent_bounds _ _ (count_if_le (fun x => Qgeb x 60) (dropna xs)) Hpos)
    as (r & Hr & _).
  destruct (percent_bounds _ _
              (count_if_le (fun x => Qltb x 30 || Qgtb x 90) (dropna xs)) Hpos)
    as (e & He & Heb).
  exists l, r, e. repeat (split; [assumption |]).
  split; [| split; assumption].
  unfold percent in Hl, Hr.
  destruct (Nat.eqb_spec (length (dropna xs)) 0) as [E | _]; [lia |].
  injection Hl as <-. injection Hr as <-.
  apply shares_add_up; [by apply of_nat_pos |].
  rewrite <- of_nat_plus.
  pose proof (left_right_partition (dropna xs)) as Hsum.
  unfold in_left_half, in_right_half in Hsum. by rewrite Hsum.
Qed.

Lemma x_zone_percentages_bounded_witness :
  let df := xy_table [None; Some 50%Q] [Some 25%Q; Some 25%Q] in
  exists z, zone_counts df = Some z /\ (0 < total z)%nat /\
  exists l r e : Q,
    left_side_pct z = Some l /\ percent (right_side z) (total z) = Some r /\
    end_zone_area_pct z = Some e /\
    (l + r == 100)%Q /\ (0 <= l /\ l <= 100)%Q /\ (0 <= e /\ e <= 100)%Q.
Proof.
  intros df. eexists. split; [vm_compute; reflexivity |].
  split; [cbn; lia |].
  apply (x_zone_percentages_bounded df); [vm_compute; reflexivity | cbn; lia].
Defined.

(** *** The frame stepper: marker colour and paths *)

Lemma Qgtb_true (x y : Q) : Qgtb x y = true -> (y < x)%Q.
Proof. intros H. apply Qgtb_lt. by rewrite H. Qed.

Lemma Qgtb_false (x y : Q) : Qgtb x y = false -> (x <= y)%Q.
Proof.
  unfold Qgtb. intros H. apply negb_false_iff in H. by apply Qle_bool_iff.
Qed.

Lemma speed_color_rank_mono (a b : Q) :
  (a <= b)%Q -> (color_rank (speed_color a) <= color_rank (speed_color b))%nat.
Proof.
  intros Hab. unfold speed_color.
  destruct (Qgtb a 15) eqn:Ea15, (Qgtb a 10) eqn:Ea10,
           (Qgtb b 15) eqn:Eb15, (Qgtb b 10) eqn:Eb10;
    vm_compute color_rank; try lia; exfalso;
    repeat match goal with
    | H : Qgtb _ _ = true |- _ => apply Qgtb_true in H
    | H : Qgtb _ _ = false |- _ => apply Qgtb_false in H
    end; lra.
Qed.

(** X10: The marker of a frame of the slider is lime when the frame has no speed
    (no "s" column or a missing value); with a speed it is red when the
    speed in MPH is above 15, yellow when it is above 10 and at most 15, and
    lime when it is at most 10, so a faster frame never gets a calmer colour
    than a slower one. *)
Theorem marker_color_follows_speed (df : DataFrame) (i j : nat) :
  (i < nrows df)%nat -> (j < nrows df)%nat ->
  ((frame_get df i "s" = None \/ frame_get df i "s" = Some None) ->
   speed_color (frame_speed_mph df i) = "lime") /\
  (forall si sj : Q,
     frame_get df i "s" = Some (Some si) ->
     frame_get df j "s" = Some (Some sj) -> (si <= sj)%Q ->
     (color_rank (speed_color (frame_speed_mph df i))
      <= color_rank (speed_color (frame_speed_mph df j)))%nat) /\
  (forall si : Q,
     frame_get df i "s" = Some (Some si) ->
     (frame_speed_mph df i == si * 2.045)%Q /\
     (speed_color (frame_speed_mph df i) = "red" <-> (15 < si * 2.045)%Q) /\
     (speed_color (frame_speed_mph df i) = "yellow" <->
      (10 < si * 2.045 /\ si * 2.045 <= 15)%Q) /\
     (speed_color (frame_speed_mph df i) = "lime" <-> (si * 2.045 <= 10)%Q)).
Proof.
  intros _ _. unfold frame_speed_mph. split; [| split].
  - intros [-> | ->]; reflexivity.
  - intros si sj -> -> Hle. apply speed_color_rank_mono.
    unfold MPH. nra.
  - intros si ->. split; [reflexivity |].
    unfold speed_color, MPH.
    destruct (Qgtb (si * 2.045) 15) eqn:E15, (Qgtb (si * 2.045) 10) eqn:E10;
      repeat match goal with
      | H : Qgtb _ _ = true |- _ => apply Qgtb_true in H
      | H : Qgtb _ _ = false |- _ => apply Qgtb_false in H
      end;
      (split; [| split]); split; intros H; try discriminate; try reflexivity;
      try lra.
Qed.

Lemma marker_color_follows_speed_witness :
  let df := single_column "s" [Some 2%Q; Some 6%Q; None; Some 8%Q] in
  (2 < nrows df)%nat /\
  (frame_get df 2 "s" = None \/ frame_get df 2 "s" = Some None) /\
  speed_color (frame_speed_mph df 2) = "lime" /\
  frame_get df 0 "s" = Some (Some 2%Q) /\
  frame_get df 1 "s" = Some (Some 6%Q) /\
  frame_get df 3 "s" = Some (Some 8%Q) /\ (2 <= 6)%Q /\
  (color_rank (speed_color (frame_speed_mph df 0))
   <= color_rank (speed_color (frame_speed_mph df 1)))%nat /\
  speed_color (frame_speed_mph df 0) = "lime" /\
  speed_color (frame_speed_mph df 1) = "yellow" /\
  speed_color (frame_speed_mph df 3) = "red".
Proof.
  intros df.
  assert (H0 : (0 < nrows df)%nat) by (cbn; lia).
  assert (H1 : (1 < nrows df)%nat) by (cbn; lia).
  assert (H2 : (2 < nrows df)%nat) by (cbn; lia).
  assert (H3 : (3 < nrows df)%nat) by (cbn; lia).
  assert (Hle : (2 <= 6)%Q) by lra.
  assert (Hna : frame_get df 2 "s" = None \/ frame_get df 2 "s" = Some None)
    by (right; vm_compute; reflexivity).
  assert (G0 : frame_get df 0 "s" = Some (Some 2%Q)) by (vm_compute; reflexivity).
  assert (G1 : frame_get df 1 "s" = Some (Some 6%Q)) by (vm_compute; reflexivity).
  assert (G3 : frame_get df 3 "s" = Some (Some 8%Q)) by (vm_compute; reflexivity).
  destruct (marker_color_follows_speed df 0 1 H0 H1) as (_ & Hmono & Ht0).
  destruct (marker_color_follows_speed df 1 1 H1 H1) as (_ & _ & Ht1).
  destruct (marker_color_follows_speed df 3 3 H3 H3) as (_ & _ & Ht3).
  destruct (Ht0 2%Q G0) as (_ & _ & _ & Hlime).
  destruct (Ht1 6%Q G1) as (_ & _ & Hyellow & _).
  destruct (Ht3 8%Q G3) as (_ & Hred & _).
  split; [exact H2 |]. split; [exact Hna |].
  split; [exact (proj1 (marker_color_follows_speed df 2 2 H2 H2) Hna) |].
  split; [exact G0 |]. split; [exact G1 |]. split; [exact G3 |].
  split; [exact Hle |].
  split; [exact (Hmono 2%Q 6%Q G0 G1 Hle) |].
  split; [apply Hlime; lra |].
  split; [apply Hyellow; lra | apply Hred; lra].
Defined.

(** X11: At frame [i] of a play the travelled path is drawn unless [i] is the
    first frame and the future path unless [i] is the last frame; the
    travelled path is the first [i + 1] frames and ends at the current frame,
    the future path is the remaining frames and starts at the current frame,
    so the two share exactly the current frame and together cover the play. *)
Theorem frame_paths_meet_at_current_frame {A : Type} (frames : list A) (i : nat) :
  (i < length frames)%nat ->
  (path_history frames i = None <-> i = 0%nat) /\
  (future_path frames i = None <-> i = (length frames - 1)%nat) /\
  (forall h, path_history frames i = Some h ->
     length h = S i /\ last h = frames !! i /\ h `prefix_of` frames) /\
  (forall f, future_path frames i = Some f ->
     length f = (length frames - i)%nat /\ head f = frames !! i /\
     f `suffix_of` frames) /\
  (forall h f, path_history frames i = Some h -> future_path frames i = Some f ->
     h ++ drop 1 f = frames).
Proof.
  intros Hi. unfold path_history, future_path.
  split; [| split; [| split; [| split]]].
  - destruct (Nat.ltb_spec 0 i); split; (discriminate || lia || done).
  - destruct (Nat.ltb_spec i (length frames - 1)); split;
      (discriminate || lia || done).
  - intros h Hh. destruct (0 <? i)%nat; [| discriminate]. injection Hh as <-.
    split; [rewrite length_take; lia |].
    split.
    + rewrite last_lookup, length_take.
      replace (Nat.pred (Nat.min (i + 1) (length frames))) with i by lia.
      apply lookup_take_lt. lia.
    + exists (drop (i + 1) frames). by rewrite take_drop.
  - intros f Hf. destruct (i <? length frames - 1)%nat; [| discriminate].
    injection Hf as <-.
    split; [apply length_drop |].
    split.
    + rewrite head_lookup, lookup_drop. f_equal. lia.
    + exists (take i frames). by rewrite take_drop.
  - intros h f Hh Hf.
    destruct (0 <? i)%nat; [| discriminate].
    destruct (i <? length frames - 1)%nat; [| discriminate].
    injection Hh as <-. injection Hf as <-.
    rewrite drop_drop. apply take_drop.
Qed.

Lemma frame_paths_meet_at_current_frame_witness :
  let frames := [10%Z; 20%Z; 30%Z; 40%Z] in
  (1 < length frames)%nat /\
  path_history frames 1 = Some [10%Z; 20%Z] /\
  future_path frames 1 = Some [20%Z; 30%Z; 40%Z] /\
  [10%Z; 20%Z] ++ drop 1 [20%Z; 30%Z; 40%Z] = frames.
Proof.
  intros frames.
  assert (Hi : (1 < length frames)%nat) by (cbn; lia).
  split; [exact Hi |]. split; [reflexivity |]. split; [reflexivity |].
  apply (proj2 (proj2 (proj2 (proj2
           (frame_paths_meet_at_current_frame frames 1 Hi)))));
    reflexivity.
Defined.

(** *** The displayed table and the KPI cards *)

Lemma take_rows_lookup (idx : list nat) (df : DataFrame) (name : string) :
  columns (take_rows idx df) !! name
  = (fun col => map (fun i => mjoin (col !! i)) idx) <$> (columns df !! name).
Proof. unfold take_rows. cbn [columns]. apply lookup_fmap. Qed.

Lemma dropna_take_subset (col : list (option Q)) (idx : list nat) (x : Q) :
  x ∈ dropna (map (fun i => mjoin (col !! i)) idx) -> x ∈ dropna col.
Proof.
  rewrite !RankingsProofs.elem_of_dropna, RankingsProofs.elem_of_map.
  intros (i & Hi & _). destruct (col !! i) as [v |] eqn:E; [| discriminate].
  cbn in Hi. subst v. by apply list_elem_of_lookup_2 in E.
Qed.

Lemma map_lookup_seq (pre col : list (option Q)) :
  map (fun i => mjoin ((pre ++ col) !! i)) (seq (length pre) (length col)) = col.
Proof.
  revert pre. induction col as [| a col IH]; intros pre; [reflexivity |].
  cbn [length seq map]. rewrite list_lookup_middle by reflexivity.
  cbn [mjoin option_join]. f_equal.
  specialize (IH (pre ++ [a])). rewrite <- app_assoc in IH. cbn in IH.
  rewrite length_app in IH. cbn in IH.
  replace (length pre + 1)%nat with (S (length pre)) in IH by lia. exact IH.
Qed.

Lemma dropna_perm (c c' : list (option Q)) :
  c ≡ₚ c' -> dropna c ≡ₚ dropna c'.
Proof.
  induction 1 as [| x l l' _ IH | x y l | l l' l'' _ IH1 _ IH2].
  - reflexivity.
  - destruct x; cbn; [by constructor | exact IH].
  - destruct x, y; cbn; try reflexivity. apply perm_swap.
  - by etransitivity.
Qed.

Lemma sum_perm (l l' : list Q) :
  l ≡ₚ l' -> (fold_right Qplus 0 l == fold_right Qplus 0 l')%Q.
Proof.
  induction 1 as [| x l l' _ IH | x y l | l l' l'' _ IH1 _ IH2]; cbn.
  - reflexivity.
  - by rewrite IH.
  - ring.
  - by rewrite IH1.
Qed.

Lemma series_mean_perm (l l' : list Q) :
  l ≡ₚ l' -> (series_mean l == series_mean l')%Q.
Proof.
  intros Hp. unfold series_mean.
  rewrite !series_sum_fold_right, (sum_perm l l' Hp), (Permutation_length Hp).
  reflexivity.
Qed.

Lemma series_max_perm (l l' : list Q) :
  l ≡ₚ l' -> l <> [] -> (series_max l == series_max l')%Q.
Proof.
  intros Hp Hne.
  assert (Hne' : l' <> []).
  { intros ->. apply Permutation_nil_r in Hp. done. }
  destruct (series_max_is_maximum l Hne) as [Hin Hub].
  destruct (series_max_is_maximum l' Hne') as [Hin' Hub'].
  apply Qle_antisym.
  - apply Hub'. by rewrite <- Hp.
  - apply Hub. by rewrite Hp.
Qed.

Lemma select_play_speeds (df : DataFrame) (view : play_option) (c' : list (option Q)) :
  columns (select_play df view) !! "s" = Some c' ->
  exists c, columns df !! "s" = Some c /\
    (forall x, x ∈ dropna c' -> x ∈ dropna c) /\
    (view = AllPlaysCombined -> c' = c).
Proof.
  assert (Hsame : columns df !! "s" = Some c' ->
            exists c, columns df !! "s" = Some c /\
              (forall x, x ∈ dropna c' -> x ∈ dropna c) /\
              (view = AllPlaysCombined -> c' = c)) by (intros H; eauto).
  unfold select_play. destruct (play_col df) as [col |]; [| exact Hsame].
  destruct (1 <? nunique col)%nat; [| exact Hsame].
  destruct view as [| selected_play]; [exact Hsame |].
  rewrite take_rows_lookup.
  destruct (columns df !! "s") as [c |]; [| discriminate].
  intros [= <-]. exists c. split; [reflexivity |].
  split; [intros x; apply dropna_take_subset | discriminate].
Qed.

Lemma take_rows_wf (idx : list nat) (df : DataFrame) : df_wf (take_rows idx df).
Proof.
  unfold df_wf, take_rows. cbn [columns nrows].
  intros name col. rewrite lookup_fmap.
  destruct (columns df !! name); [| discriminate].
  intros [= <-]. apply length_map.
Qed.

Lemma select_play_wf (df : DataFrame) (view : play_option) :
  df_wf df -> df_wf (select_play df view).
Proof.
  intros Hwf. unfold select_play.
  destruct (play_col df); [| exact Hwf].
  destruct (1 <? nunique _)%nat; [| exact Hwf].
  destruct view; [exact Hwf | apply take_rows_wf].
Qed.

Lemma sort_by_ts_speeds (df : DataFrame) (c' : list (option Q)) :
  df_wf df ->
  columns (sort_by_ts df) !! "s" = Some c' ->
  exists c, columns df !! "s" = Some c /\ c' ≡ₚ c.
Proof.
  intros Hwf. unfold sort_by_ts.
  destruct (columns df !! "ts") as [ts |] eqn:Hts; [| intros H; eauto].
  rewrite take_rows_lookup.
  destruct (columns df !! "s") as [c |] eqn:Hc; [| discriminate].
  intros [= <-]. exists c. split; [reflexivity |].
  unfold argsort.
  rewrite (RankingsProofs.sort_by_perm _ (seq 0 (length ts))).
  rewrite (Hwf "ts" ts Hts), <- (Hwf "s" c Hc).
  assert (E : map (fun i => mjoin (c !! i)) (seq 0 (length c)) = c)
    by apply (map_lookup_seq [] c).
  by rewrite E.
Qed.

Lemma speed_kpis (df : DataFrame) (col : list (option Q)) :
  df_wf df -> columns df !! "s" = Some col -> dropna col <> [] ->
  calculate_tracking_stats df !! "avg_speed_mph"
  = Some (series_mean (dropna col) * MPH)%Q /\
  calculate_tracking_stats df !! "max_speed_mph"
  = Some (series_max (dropna col) * MPH)%Q.
Proof.
  intros Hwf Hcol Hne.
  assert (Hpos : (0 < length (dropna col))%nat)
    by (destruct (dropna col); [done | cbn; lia]).
  assert (He : df_empty df = false).
  { apply (df_wf_not_empty df "s" col Hwf Hcol).
    pose proof (length_dropna_le col). lia. }
  rewrite !speed_lookup, He by set_solver.
  unfold speed_stats. rewrite Hcol. cbv zeta.
  destruct (Nat.ltb_spec 0 (length (dropna col))); [| lia].
  split.
  - by rewrite lookup_insert_ne, lookup_insert_eq by done.
  - by rewrite !lookup_insert_ne, lookup_insert_eq by done.
Qed.

(** X8: The speed chart is drawn for the displayed table (one play or all plays,
    in timestamp order) and the KPI cards are computed from the whole table.
    When the chart has its two lines the cards have their values, the
    "Max" line never lies beyond the "Max Speed" card, and with all plays
    combined both lines are at the values of the cards. *)
Theorem speed_chart_of_displayed_plays
    (player_tracking : DataFrame) (view : play_option) (avg mx : Q) :
  df_wf player_tracking ->
  speed_lines (display_tracking player_tracking view) = Some (Some avg, Some mx) ->
  exists kavg kmx : Q,
    calculate_tracking_stats player_tracking !! "avg_speed_mph" = Some kavg /\
    calculate_tracking_stats player_tracking !! "max_speed_mph" = Some kmx /\
    (mx <= kmx)%Q /\
    (view = AllPlaysCombined -> (avg == kavg)%Q /\ (mx == kmx)%Q).
Proof.
  intros Hwf. unfold speed_lines, speeds_mph, display_tracking.
  destruct (columns (sort_by_ts _) !! "s") as [c2 |] eqn:H2; [| discriminate].
  apply (sort_by_ts_speeds _ _ (select_play_wf _ view Hwf)) in H2
    as (c1 & H1 & Hp21).
  apply select_play_speeds in H1 as (c & Hc & Hsub & Hall).
  apply dropna_perm in Hp21.
  destruct (dropna c2) as [| a l] eqn:E2; [discriminate |].
  cbn [map]. intros [= <- <-].
  assert (Hne2 : a :: l <> []) by done.
  assert (Ha : a ∈ dropna c) by (apply Hsub; rewrite <- Hp21; left).
  assert (Hne : dropna c <> []) by (intros E; rewrite E in Ha; by apply elem_of_nil in Ha).
  destruct (speed_kpis _ _ Hwf Hc Hne) as [Kavg Kmax].
  eexists _, _. split; [exact Kavg |]. split; [exact Kmax |].
  assert (Hc0 : (0 < MPH)%Q) by reflexivity.
  cbn [series_max]. rewrite (fold_py_max_scale l a MPH Hc0).
  change (fold_left py_max l a) with (series_max (a :: l)).
  split.
  - apply Qmult_le_compat_r; [| by apply Qlt_le_weak].
    destruct (series_max_is_maximum (a :: l) Hne2) as [Hin _].
    destruct (series_max_is_maximum (dropna c) Hne) as [_ Hub].
    apply Hub, Hsub. by rewrite <- Hp21.
  - intros Hview. specialize (Hall Hview). subst c1.
    split.
    + rewrite (series_mean_scale (a :: l) MPH).
      by rewrite (series_mean_perm _ _ Hp21).
    + by rewrite (series_max_perm _ _ Hp21 Hne2).
Qed.

Lemma speed_chart_of_displayed_plays_witness :
  let df := mkDF 3 (<["s" := [Some 2%Q; Some 6%Q; Some 4%Q]]>
                     {[ "play_id" := [Some 1%Q; Some 2%Q; Some 1%Q] ]}) in
  df_wf df /\
  exists avg mx kavg kmx : Q,
    speed_lines (display_tracking df (IndividualPlay (Some 1%Q)))
    = Some (Some avg, Some mx) /\
    calculate_tracking_stats df !! "avg_speed_mph" = Some kavg /\
    calculate_tracking_stats df !! "max_speed_mph" = Some kmx /\
    (mx <= kmx)%Q /\ (mx == 4 * MPH)%Q /\ (kmx == 6 * MPH)%Q.
Proof.
  intros df.
  assert (Hwf : df_wf df).
  { unfold df_wf, df. cbn [columns nrows].
    apply map_Forall_insert_2; [reflexivity |].
    apply map_Forall_singleton. reflexivity. }
  split; [exact Hwf |].
  destruct (speed_chart_of_displayed_plays df (IndividualPlay (Some 1%Q))
              _ _ Hwf eq_refl) as (kavg & kmx & Ka & Km & Hle & _).
  eexists _, _, kavg, kmx. split; [reflexivity |].
  split; [exact Ka |]. split; [exact Km |]. split; [exact Hle |].
  assert (Ekm : Some kmx = Some (6 * MPH)%Q)
    by (rewrite <- Km; vm_compute; reflexivity).
  injection Ekm as ->. split; vm_compute; reflexivity.
Defined.

End TrackingExtras.

(** ** Properties of the heading arrow *)

Module HeadingArrowProofs.
Import Reals Lra HeadingArrow.
Local Open Scope R_scope.

Lemma radians_turn (dir : R) : radians (dir + 360) = radians dir + 2 * PI.
Proof. unfold radians. field. Qed.

(** X12: Over the real numbers, the annotation of the heading starts 3 yards from
    the player, at +y for a heading of 0 degrees and at +x for 90 degrees (a
    compass bearing, clockwise from +y), and has its head at the player;
    headings that differ by a full turn give the same annotation, and every
    heading strictly between 0 and 180 degrees starts it at a larger x. *)
Theorem heading_arrow_is_a_compass_bearing (x y dir : R) :
  (dx dir * dx dir + dy dir * dy dir = arrow_len * arrow_len) /\
  arrow_tail x y 0 = (x, y + 3) /\
  arrow_tail x y 90 = (x + 3, y) /\
  arrow_tail x y (dir + 360) = arrow_tail x y dir /\
  (0 < dir < 180 -> 0 < dx dir).
Proof.
  unfold arrow_tail, dx, dy, arrow_len.
  split; [| split; [| split; [| split]]].
  - pose proof (sin2_cos2 (radians dir)) as H. unfold Rsqr in H. nra.
  - unfold radians. replace (0 * PI / 180) with 0 by field.
    rewrite sin_0, cos_0. f_equal; ring.
  - unfold radians. replace (90 * PI / 180) with (PI / 2) by field.
    rewrite sin_PI2, cos_PI2. f_equal; ring.
  - rewrite radians_turn, sin_plus, cos_plus, sin_2PI, cos_2PI.
    f_equal; ring.
  - intros [H0 H180].
    assert (Hs : 0 < sin (radians dir)).
    { pose proof PI_RGT_0. apply sin_gt_0; unfold radians; nra. }
    nra.
Qed.

Lemma heading_arrow_is_a_compass_bearing_witness :
  0 < 45 < 180 /\ 0 < dx 45.
Proof.
  assert (H : 0 < 45 < 180) by lra.
  split; [exact H |].
  exact (proj2 (proj2 (proj2 (proj2
           (heading_arrow_is_a_compass_bearing 0 0 45)))) H).
Defined.

End HeadingArrowProofs.

(** ** Further properties of the rankings views *)

Module RankingsExtras.
Import Py Series Rankings RankingsSpec Samples RankingsViews ViewsSpec RankingsProofs.

(** *** The sidebar filters *)

Lemma elem_of_apply_position (pf : string) (rows : list Prospect) (r : Prospect) :
  r ∈ apply_position pf rows <-> r ∈ rows /\ (pf = "All" \/ position r = pf).
Proof.
  unfold apply_position. case_bool_decide as H.
  - rewrite list_elem_of_filter. tauto.
  - tauto.
Qed.

Lemma elem_of_apply_categories (selected : list (option string))
    (rows : list Prospect) (r : Prospect) :
  r ∈ apply_categories selected rows <->
  r ∈ rows /\ (selected = [] \/ player_category r ∈ selected).
Proof.
  unfold apply_categories. destruct selected as [| c selected].
  - split; [intros H; split; [exact H | by left] | tauto].
  - rewrite list_elem_of_filter.
    split; [tauto | intros [H [E | H']]; [discriminate | tauto]].
Qed.

Lemma elem_of_apply_year (cols : list string) (yr : Z * Z)
    (rows : list Prospect) (r : Prospect) :
  r ∈ apply_year cols yr rows <->
  r ∈ rows /\
  (year_filter_active cols rows = true ->
   between (inject_Z yr.1) (inject_Z yr.2) (draft_season r) = true).
Proof.
  unfold apply_year. destruct (year_filter_active cols rows).
  - rewrite list_elem_of_filter, Is_true_true. tauto.
  - split; [intros H; split; [exact H | discriminate] | tauto].
Qed.

Lemma elem_of_apply_ras (cols : list string) (rr : Q * Q)
    (rows : list Prospect) (r : Prospect) :
  r ∈ apply_ras cols rr rows <->
  r ∈ rows /\
  ("RAS" ∈ cols -> RAS r = None \/ between rr.1 rr.2 (RAS r) = true).
Proof.
  unfold apply_ras. case_bool_decide as H.
  - rewrite list_elem_of_filter, Is_true_true, orb_true_iff.
    destruct (RAS r) as [v |]; cbn [isna]; split.
    + intros [[Hb | Hn] Hin]; [| discriminate]. split; [exact Hin |]. by right.
    + intros [Hin Hc]. split; [| exact Hin].
      destruct (Hc H) as [E | Hb]; [discriminate | by left].
    + intros [_ Hin]. split; [exact Hin |]. by left.
    + intros [Hin _]. split; [by right | exact Hin].
  - tauto.
Qed.

(** X13: The filtered table holds exactly the rows of the rankings table that
    pass the four sidebar conditions, in the order of the rankings table. *)
Theorem filter_pipeline_keeps_passing_rows
    (spec : FilterSpec) (rankings_df : RankingsDF) :
  (forall r, r ∈ filter_pipeline spec rankings_df <->
             r ∈ rk_rows rankings_df /\ passes spec rankings_df r) /\
  filter_pipeline spec rankings_df `sublist_of` rk_rows rankings_df.
Proof.
  split.
  - intros r. unfold filter_pipeline, after_year, passes.
    rewrite elem_of_apply_ras, elem_of_apply_year.
    unfold after_categories at 1.
    rewrite elem_of_apply_categories, elem_of_apply_position. tauto.
  - unfold filter_pipeline, after_year, after_categories.
    unfold apply_ras, apply_year, apply_categories, apply_position.
    repeat match goal with
    | |- context [if ?b then _ else _] => destruct b
    | |- context [match ?l with [] => _ | _ :: _ => _ end] => destruct l
    end;
    repeat (reflexivity || (etransitivity; [apply sublist_filter |])).
Qed.

Lemma filter_pipeline_keeps_passing_rows_witness :
  adams ∈ filter_pipeline (wide_open []) mixed_df /\
  adams ∈ rk_rows mixed_df /\ passes (wide_open []) mixed_df adams.
Proof.
  assert (H : adams ∈ filter_pipeline (wide_open []) mixed_df).
  { replace (filter_pipeline (wide_open []) mixed_df) with [adams; baker; dunn]
      by (vm_compute; reflexivity).
    apply list_elem_of_here. }
  split; [exact H |].
  exact (proj1 (proj1 (filter_pipeline_keeps_passing_rows (wide_open []) mixed_df)
                  adams) H).
Defined.

(** *** The sort of the rankings tab *)

Lemma sorted_df_perm (sort_by : SortBy) (filtered_df : list Prospect) :
  Permutation (sorted_df sort_by filtered_df) filtered_df.
Proof.
  unfold sorted_df. destruct (sort_map sort_by). apply sort_by_perm.
Qed.

(** X14: The rows of the rankings tab are the filtered rows reordered by the
    chosen key (RAS from high to low, the ranks from low to high), and the
    rows without a value in that key come after all the others. *)
Theorem sorted_df_orders_by_chosen_key (sort_by : SortBy) (filtered_df : list Prospect) :
  Permutation (sorted_df sort_by filtered_df) filtered_df /\
  forall (i j : nat) (a b : Prospect),
    (i < j)%nat ->
    sorted_df sort_by filtered_df !! i = Some a ->
    sorted_df sort_by filtered_df !! j = Some b ->
    key_le (sort_map sort_by).2 ((sort_map sort_by).1 a) ((sort_map sort_by).1 b) = true /\
    ((sort_map sort_by).1 a = None -> (sort_map sort_by).1 b = None).
Proof.
  unfold sorted_df. destruct (sort_map sort_by) as [key asc]. cbn [fst snd].
  split; [apply sort_by_perm |].
  intros i j a b Hij Ha Hb.
  assert (Hle : key_le asc (key a) (key b) = true).
  { apply (strongly_sorted_lookup
             (fun x y => key_le asc (key x) (key y) = true)
             (sort_values key asc filtered_df)) with i j; try assumption.
    unfold sort_values.
    apply (sort_by_sorted (fun x y => key_le asc (key x) (key y))).
    - intros x y. apply key_le_total.
    - intros x y z. apply key_le_trans. }
  split; [exact Hle |].
  intros E. rewrite E in Hle. by destruct (key b).
Qed.

Lemma sorted_df_orders_by_chosen_key_witness :
  sorted_df ByRAS [adams; baker] !! 0%nat = Some baker /\
  sorted_df ByRAS [adams; baker] !! 1%nat = Some adams /\
  key_le false (RAS baker) (RAS adams) = true.
Proof.
  assert (H0 : sorted_df ByRAS [adams; baker] !! 0%nat = Some baker) by reflexivity.
  assert (H1 : sorted_df ByRAS [adams; baker] !! 1%nat = Some adams) by reflexivity.
  split; [exact H0 |]. split; [exact H1 |].
  exact (proj1 (proj2 (sorted_df_orders_by_chosen_key ByRAS [adams; baker])
                  0%nat 1%nat baker adams (Nat.lt_0_succ 0) H0 H1)).
Defined.

(** *** The table order and the chosen key *)

Lemma insert_by_stable {A : Type} (le : A -> A -> bool)
    (P : A -> Prop) `{!forall x, Decision (P x)} (y : A) (l : list A) :
  (forall a b, P a -> P b -> le a b = true) ->
  filter P (insert_by le y l) = filter P (y :: l).
Proof.
  intros Htie. induction l as [| z l IH]; [reflexivity |].
  cbn [insert_by]. destruct (le y z) eqn:E; [reflexivity |].
  rewrite filter_cons, IH, !filter_cons.
  destruct (decide (P y)) as [Hy | Hy], (decide (P z)) as [Hz | Hz];
    try reflexivity.
  rewrite (Htie y z Hy Hz) in E. discriminate.
Qed.

Lemma sort_by_stable {A : Type} (le : A -> A -> bool)
    (P : A -> Prop) `{!forall x, Decision (P x)} (l : list A) :
  (forall a b, P a -> P b -> le a b = true) ->
  filter P (sort_by le l) = filter P l.
Proof.
  intros Htie. induction l as [| y l IH]; [reflexivity |].
  cbn [sort_by fold_right]. fold (sort_by le l).
  rewrite (insert_by_stable le P y _ Htie), !filter_cons, IH. reflexivity.
Qed.

(** X15: Whatever key is chosen in the "Sort By" box, the table shows the rows
    grouped in the fixed category order and, within a category, by composite
    rank; the chosen key only decides the order of rows that tie in both
    (same category position and equal or missing composite ranks). *)
Theorem rankings_table_uses_chosen_key_only_in_ties
    (sort_by : SortBy) (filtered_df : list Prospect) :
  Permutation (rankings_table sort_by filtered_df) filtered_df /\
  grouped_in_display_order (rankings_table sort_by filtered_df) /\
  ordered_within_groups composite_rank true (rankings_table sort_by filtered_df) /\
  forall x : Prospect,
    filter (table_tie x) (rankings_table sort_by filtered_df)
    = filter (table_tie x) (sorted_df sort_by filtered_df).
Proof.
  unfold rankings_table.
  destruct (create_great_table_order (sorted_df sort_by filtered_df))
    as (Hperm & Hgroup & Hord).
  split; [| split; [exact Hgroup | split; [exact Hord |]]].
  - etransitivity; [exact Hperm |].
    apply (sorted_df_perm sort_by filtered_df).
  - intros x. unfold create_great_table. apply sort_by_stable.
    intros a b [Hxa Hax] [Hxb Hbx]. exact (table_le_trans a x b Hax Hxb).
Qed.

(** *** The category bar chart and the KPI cards *)

Lemma count_category_cons (r : Prospect) (df : list Prospect) (c : string) :
  count_category (r :: df) c
  = ((if decide (player_category r = Some c) then 1 else 0)
     + count_category df c)%nat.
Proof.
  unfold count_category. rewrite filter_cons.
  destruct (decide (player_category r = Some c)); reflexivity.
Qed.

(** X16: The bar chart has one bar per category of the display order, in that
    order and in the category's colour, as long as the number of rows of
    that category.  Rows whose category is missing or not in the display
    order are in no bar, and the "Elite/Producers" card is the sum of the
    first two bars. *)
Theorem category_bar_chart_counts_listed_categories (df : list Prospect) :
  map (fun bar => bar.1.1) (create_category_bar_chart df) = CATEGORY_ORDER /\
  (forall cat n color, (cat, n, color) ∈ create_category_bar_chart df ->
     n = count_category df cat /\ CATEGORY_COLORS !! cat = Some color) /\
  sum_list (map (fun bar => bar.1.2) (create_category_bar_chart df))
  = length (filter (fun r => player_category r ∈ map Some CATEGORY_ORDER) df) /\
  elite_count df = (count_category df "Elite" + count_category df "Producer")%nat.
Proof.
  split; [reflexivity |]. split; [| split].
  - intros cat n color H.
    unfold create_category_bar_chart, category_counts, CATEGORY_ORDER in H.
    cbn [map] in H.
    repeat (apply elem_of_cons in H as [[= -> -> ->] | H];
            [split; reflexivity |]).
    by apply elem_of_nil in H.
  - unfold create_category_bar_chart, category_counts, CATEGORY_ORDER.
    cbn [map fst snd sum_list sum_list_with]. unfold id.
    induction df as [| r df IH]; [reflexivity |].
    rewrite !count_category_cons, filter_cons.
    destruct (decide (player_category r ∈ _)) as [Hin | Hout];
      cbn [length]; rewrite <- IH; clear IH.
    + repeat (apply elem_of_cons in Hin as [-> | Hin];
              [repeat case_decide; try discriminate; try congruence; lia |]).
      by apply elem_of_nil in Hin.
    + repeat case_decide; try lia;
        exfalso; apply Hout;
        match goal with H : player_category r = Some _ |- _ => rewrite H end;
        rewrite !elem_of_cons; tauto.
  - unfold elite_count.
    induction df as [| r df IH]; [reflexivity |].
    rewrite !count_category_cons, filter_cons.
    destruct (decide (player_category r ∈ _)) as [Hin | Hout];
      cbn [length]; rewrite IH; clear IH.
    + repeat (apply elem_of_cons in Hin as [-> | Hin];
              [repeat case_decide; try discriminate; try congruence; lia |]).
      by apply elem_of_nil in Hin.
    + repeat case_decide; try lia;
        exfalso; apply Hout;
        match goal with H : player_category r = Some _ |- _ => rewrite H end;
        rewrite !elem_of_cons; tauto.
Qed.

Lemma category_bar_chart_counts_listed_categories_witness :
  ("Elite", 2%nat, "#FFD700") ∈ create_category_bar_chart [adams; baker; dunn] /\
  2%nat = count_category [adams; baker; dunn] "Elite" /\
  CATEGORY_COLORS !! "Elite" = Some "#FFD700".
Proof.
  assert (H : ("Elite", 2%nat, "#FFD700")
              ∈ create_category_bar_chart [adams; baker; dunn])
    by apply list_elem_of_here.
  split; [exact H |].
  exact (proj1 (proj2 (category_bar_chart_counts_listed_categories
                         [adams; baker; dunn])) "Elite" 2%nat "#FFD700" H).
Defined.

Lemma elem_of_value_counts (df : list Prospect) (c : string) (n : nat) :
  (c, n) ∈ value_counts df <->
  n = count_category df c /\ exists r, r ∈ df /\ player_category r = Some c.
Proof.
  unfold value_counts. rewrite sort_by_perm, list_elem_of_omap.
  split.
  - intros (y & Hy & Hf). destruct y as [c' |]; [| discriminate].
    cbn in Hf. injection Hf as <- <-. split; [reflexivity |].
    apply elem_of_unique_from in Hy as [Hy _].
    apply elem_of_map in Hy as (r & Hr & Hin). eauto.
  - intros (-> & r & Hin & Hr). exists (Some c). split; [| reflexivity].
    apply elem_of_unique_from. split; [| apply not_elem_of_nil].
    apply elem_of_map. eauto.
Qed.

Lemma idxmax_from_spec (best : string * nat) (l : list (string * nat)) :
  exists e, e ∈ best :: l /\ idxmax_from best l = e.1 /\
            forall x, x ∈ best :: l -> (x.2 <= e.2)%nat.
Proof.
  revert best. induction l as [| y l IH]; intros best.
  - exists best. split; [left |]. split; [reflexivity |].
    intros x [-> | H]%elem_of_cons; [lia | by apply elem_of_nil in H].
  - cbn [idxmax_from].
    destruct (IH (if (best.2 <? y.2)%nat then y else best)) as (e & He & Hi & Hm).
    exists e. split; [| split; [exact Hi |]].
    + apply elem_of_cons in He as [-> | He].
      * destruct (best.2 <? y.2)%nat; [right; left | left].
      * right; right; exact He.
    + intros x Hx.
      assert (Hb : ((if (best.2 <? y.2)%nat then y else best).2 <= e.2)%nat)
        by (apply Hm; left).
      apply elem_of_cons in Hx as [-> | [-> | Hx]%elem_of_cons].
      * destruct (Nat.ltb_spec best.2 y.2); lia.
      * destruct (Nat.ltb_spec best.2 y.2); lia.
      * apply Hm. right. exact Hx.
Qed.

Lemma count_category_zero (df : list Prospect) (c : string) :
  count_category df c = 0%nat \/ exists r, r ∈ df /\ player_category r = Some c.
Proof.
  unfold count_category.
  destruct (filter _ df) as [| r l] eqn:E; [by left | right].
  assert (H : r ∈ filter (fun r => player_category r = Some c) df)
    by (rewrite E; left).
  apply list_elem_of_filter in H as [Hc Hin]. eauto.
Qed.

(** X17: The "Top Category" card: "N/A" for an empty table; a category that no
    other category outnumbers as soon as one row has a category; and a
    [ValueError] when there are rows and every one of them lacks a
    category. *)
Theorem top_category_is_most_frequent (filtered_df : list Prospect) :
  (filtered_df = [] -> top_category filtered_df = Ok "N/A") /\
  (filtered_df <> [] ->
   (forall r, r ∈ filtered_df -> player_category r = None) ->
   top_category filtered_df = Raise ValueError) /\
  (forall r c0, r ∈ filtered_df -> player_category r = Some c0 ->
     exists c, top_category filtered_df = Ok c /\
       (exists r', r' ∈ filtered_df /\ player_category r' = Some c) /\
       forall c', (count_category filtered_df c' <= count_category filtered_df c)%nat).
Proof.
  split; [intros ->; reflexivity |]. split.
  - intros Hne Hnone. unfold top_category.
    destruct filtered_df as [| r0 df]; [done |]. cbn [length Nat.ltb Nat.leb].
    destruct (value_counts (r0 :: df)) as [| [c n] l] eqn:E; [reflexivity |].
    assert (H : (c, n) ∈ value_counts (r0 :: df)) by (rewrite E; left).
    apply elem_of_value_counts in H as (_ & r & Hin & Hr).
    rewrite (Hnone r Hin) in Hr. discriminate.
  - intros r c0 Hin Hr. unfold top_category.
    destruct filtered_df as [| r0 df]; [by apply elem_of_nil in Hin |].
    cbn [length Nat.ltb Nat.leb].
    assert (H0 : (c0, count_category (r0 :: df) c0) ∈ value_counts (r0 :: df))
      by (apply elem_of_value_counts; eauto).
    destruct (value_counts (r0 :: df)) as [| x l] eqn:E;
      [by apply elem_of_nil in H0 |].
    cbn [idxmax]. destruct (idxmax_from_spec x l) as ([c n] & He & Hi & Hm).
    rewrite <- E in He. apply elem_of_value_counts in He as (-> & Hex).
    exists c. split; [by rewrite Hi |]. split; [exact Hex |].
    intros c'. destruct (count_category_zero (r0 :: df) c') as [-> | Hex'];
      [lia |].
    assert (H' : (c', count_category (r0 :: df) c') ∈ x :: l)
      by (rewrite <- E; apply elem_of_value_counts; eauto).
    exact (Hm _ H').
Qed.

Lemma top_category_is_most_frequent_witness :
  [cole; adams; baker] <> [] /\
  top_category [cole; adams; baker] = Ok "Elite" /\
  (exists c, top_category [cole; adams; baker] = Ok c /\
     (exists r', r' ∈ [cole; adams; baker] /\ player_category r' = Some c) /\
     forall c', (count_category [cole; adams; baker] c'
                 <= count_category [cole; adams; baker] c)%nat).
Proof.
  split; [discriminate |]. split; [vm_compute; reflexivity |].
  apply (proj2 (proj2 (top_category_is_most_frequent [cole; adams; baker]))
           cole "Sleeper"); [apply list_elem_of_here | reflexivity].
Defined.

(** *** Player options *)

Lemma split_once_option (p n : string) :
  no_blank p -> split_once " - " (p +:+ " - " +:+ n) = Some (p, n).
Proof.
  unfold no_blank. induction p as [| a p IH]; intros Hp; [reflexivity |].
  cbn [list_ascii_of_string] in Hp. apply Forall_cons in Hp as [Ha Hp].
  change (String a p +:+ " - " +:+ n) with (String a (p +:+ " - " +:+ n)).
  cbn [split_once strip_prefix].
  destruct (Ascii.eqb_spec " " a) as [E | _]; [by symmetry in E |].
  fold (split_once " - " (p +:+ " - " +:+ n)). by rewrite (IH Hp).
Qed.

(** X18: Choosing the option built for a row of the filtered table (a position
    without blanks, the name free) gives back the first row of the filtered
    table with that player's name: the row itself when no other row has the
    name, and otherwise the earliest namesake whatever its position. *)
Theorem selected_player_is_first_with_that_name
    (filtered_df : list Prospect) (row : Prospect) :
  row ∈ filtered_df -> no_blank (position row) ->
  exists found before after,
    selected_player filtered_df (player_option row) = Ok found /\
    filtered_df = before ++ found :: after /\
    player_display_name found = player_display_name row /\
    (forall r, r ∈ before -> player_display_name r <> player_display_name row) /\
    ((forall r, r ∈ filtered_df ->
        player_display_name r = player_display_name row -> r = row) ->
     found = row).
Proof.
  intros Hin Hp. unfold selected_player, player_option, option_name.
  rewrite (split_once_option _ _ Hp). cbn [bind]. unfold player_by_name.
  induction filtered_df as [| r df IH]; [by apply elem_of_nil in Hin |].
  rewrite filter_cons.
  destruct (decide (player_display_name r = player_display_name row)) as [E | NE].
  - exists r, [], df. split; [reflexivity |]. split; [reflexivity |].
    split; [exact E |]. split; [intros r' H; by apply elem_of_nil in H |].
    intros Huniq. apply Huniq; [left | exact E].
  - apply elem_of_cons in Hin as [-> | Hin]; [done |].
    destruct (IH Hin) as (found & before & after & Hsel & Hsplit & Hname & Hbefore & Hu).
    exists found, (r :: before), after.
    split; [exact Hsel |]. split; [by rewrite Hsplit |].
    split; [exact Hname |]. split.
    + intros r' [-> | H]%elem_of_cons; [exact NE | by apply Hbefore].
    + intros Huniq. apply Hu. intros r' Hr'. apply Huniq. by right.
Qed.

Lemma selected_player_is_first_with_that_name_witness :
  baker ∈ [adams; baker; dunn] /\ no_blank (position baker) /\
  player_option baker = "CB - Baker" /\
  exists found before after,
    selected_player [adams; baker; dunn] (player_option baker) = Ok found /\
    [adams; baker; dunn] = before ++ found :: after /\
    player_display_name found = player_display_name baker /\
    (forall r, r ∈ before -> player_display_name r <> player_display_name baker) /\
    ((forall r, r ∈ [adams; baker; dunn] ->
        player_display_name r = player_display_name baker -> r = baker) ->
     found = baker).
Proof.
  assert (Hin : baker ∈ [adams; baker; dunn]) by (right; left).
  assert (Hp : no_blank (position baker)).
  { unfold no_blank. cbn. repeat constructor; discriminate. }
  split; [exact Hin |]. split; [exact Hp |]. split; [reflexivity |].
  exact (selected_player_is_first_with_that_name [adams; baker; dunn] baker Hin Hp).
Defined.

(** *** The texts of the table and of the profile *)

(** X19: The draft text of the profile agrees with the "Round" and "Pick" columns
    of the table: "UDFA" without a round, the two column texts joined by a
    blank with a round and a pick; with a round and no pick, where the table
    shows the round and a dash, the profile raises. *)
Theorem draft_text_agrees_with_table_columns
    (row : gmap string (option Q)) (r p : option Q) :
  row !! "draft_round" = Some r ->
  row !! "draft_overall_selection" = Some p ->
  format_draft_pick row =
  match r, p with
  | None, _ => Ok (round_text r)
  | Some _, Some _ => Ok (round_text r +:+ " " +:+ pick_text p)
  | Some _, None => Raise ValueError
  end.
Proof.
  intros Hr Hp. unfold format_draft_pick, isna_get, getitem. rewrite Hr, Hp.
  destruct r as [r |], p as [p |]; reflexivity.
Qed.

Lemma draft_text_agrees_with_table_columns_witness :
  first_round_pick !! "draft_round" = Some (Some 1%Q) /\
  first_round_pick !! "draft_overall_selection" = Some (Some 15%Q) /\
  format_draft_pick first_round_pick
  = Ok (round_text (Some 1%Q) +:+ " " +:+ pick_text (Some 15%Q)).
Proof.
  assert (Hr : first_round_pick !! "draft_round" = Some (Some 1%Q)) by reflexivity.
  assert (Hp : first_round_pick !! "draft_overall_selection" = Some (Some 15%Q))
    by reflexivity.
  split; [exact Hr |]. split; [exact Hp |].
  exact (draft_text_agrees_with_table_columns first_round_pick _ _ Hr Hp).
Defined.

Lemma length_append (s t : string) :
  String.length (s +:+ t) = (String.length s + String.length t)%nat.
Proof.
  induction s as [| a s IH]; [reflexivity |].
  change (String a s +:+ t) with (String a (s +:+ t)).
  cbn [String.length Nat.add]. by f_equal.
Qed.

Lemma length_substring_0 (n : nat) (s : string) :
  (n <= String.length s)%nat -> String.length (substring 0 n s) = n.
Proof.
  revert s. induction n as [| n IH]; intros s Hn.
  - by destruct s.
  - destruct s as [| a s]; cbn in Hn; [lia |]. cbn. rewrite IH; lia.
Qed.

(** X20: The "NFL Team" and "College" texts are never longer than 18 characters:
    a text of up to 18 characters is shown as it is, a longer one as its
    first 15 characters and three dots; formatting a formatted text changes
    nothing. *)
Theorem name_text_fits_18_characters (x : option string) :
  (String.length (name_text x) <= 18)%nat /\
  (forall s, x = Some s -> (String.length s <= 18)%nat -> name_text x = s) /\
  (forall s, x = Some s -> (18 < String.length s)%nat ->
     name_text x = substring 0 15 s +:+ "..." /\ String.length (name_text x) = 18%nat) /\
  name_text (Some (name_text x)) = name_text x.
Proof.
  assert (Hlen : (String.length (name_text x) <= 18)%nat).
  { destruct x as [s |]; [| cbn; lia]. unfold name_text.
    destruct (Nat.ltb_spec 18 (String.length s)); [| lia].
    rewrite length_append, length_substring_0; cbn; lia. }
  split; [exact Hlen |]. split; [| split].
  - intros s -> Hs. unfold name_text.
    destruct (Nat.ltb_spec 18 (String.length s)); [lia | reflexivity].
  - intros s -> Hs. unfold name_text.
    destruct (Nat.ltb_spec 18 (String.length s)); [| lia].
    split; [reflexivity |].
    rewrite length_append, length_substring_0; cbn; lia.
  - unfold name_text at 1.
    destruct (Nat.ltb_spec 18 (String.length (name_text x))); [lia | reflexivity].
Qed.

Lemma name_text_fits_18_characters_witness :
  (18 < String.length "Massachusetts Institute")%nat /\
  name_text (Some "Massachusetts Institute") = "Massachusetts I..." /\
  String.length (name_text (Some "Massachusetts Institute")) = 18%nat.
Proof.
  assert (H : (18 < String.length "Massachusetts Institute")%nat) by (cbn; lia).
  split; [exact H |].
  destruct (proj1 (proj2 (proj2 (name_text_fits_18_characters
                                   (Some "Massachusetts Institute"))))
              "Massachusetts Institute" eq_refl H) as [E L].
  split; [exact E | exact L].
Defined.

End RankingsExtras.

(** ** Further properties of the comparison table *)

Module CompareExtras.
Import Py Compare Samples CompareCells ViewsSpec CompareProofs.

Section Highlight.
Variable py_float : string -> option PrimFloat.float.
Variable py_str : PrimFloat.float -> string.

Local Abbreviation parse_cell := (parse_cell py_float py_str).
Local Abbreviation numeric_cells := (numeric_cells py_float py_str).
Local Abbreviation highlight_cells := (highlight_cells py_float py_str).

Lemma style_cell_cases (higher_better : bool) (best_val : PrimFloat.float)
    (values : list PrimFloat.float) (val : PrimFloat.float) (st : option string) :
  style_cell higher_better best_val values val = Ok st ->
  (PrimFloat.eqb val best_val = true /\ st = Some BEST) \/
  (PrimFloat.eqb val best_val = false /\ (st = Some NEAR \/ st = None)).
Proof.
  unfold style_cell. destruct (PrimFloat.eqb val best_val).
  - intros [= <-]. by left.
  - intros H. right. split; [reflexivity |].
    repeat match type of H with
    | context [bind ?r _] => destruct r; cbn [bind] in H
    | context [if ?b then _ else _] => destruct b
    end; try discriminate; injection H as <-; tauto.
Qed.

Lemma style_loop_shape (higher_better : bool) (best_val : PrimFloat.float)
    (values : list PrimFloat.float) (todo : list (nat * PrimFloat.float))
    (styles0 styles : list string) :
  style_loop higher_better best_val values todo styles0 = Ok styles ->
  length styles = length styles0 /\
  (Forall (fun s => s ∈ [""; BEST; NEAR]) styles0 ->
   Forall (fun s => s ∈ [""; BEST; NEAR]) styles).
Proof.
  revert styles0. induction todo as [| [idx val] todo IH]; intros styles0 H.
  - cbn in H. injection H as <-. tauto.
  - cbn [style_loop] in H.
    destruct (style_cell higher_better best_val values val) as [st |] eqn:E;
      cbn [bind] in H; [| discriminate].
    apply IH in H as [Hlen Hvoc].
    apply style_cell_cases in E as [[_ ->] | [_ [-> | ->]]].
    + rewrite length_insert in Hlen. split; [exact Hlen |].
      intros H0. apply Hvoc.
      destruct (decide (idx < length styles0)%nat) as [Hlt | Hge].
      * apply Forall_insert; [exact H0 |]. right; left.
      * rewrite list_insert_ge by lia. exact H0.
    + rewrite length_insert in Hlen. split; [exact Hlen |].
      intros H0. apply Hvoc.
      destruct (decide (idx < length styles0)%nat) as [Hlt | Hge].
      * apply Forall_insert; [exact H0 |]. right; right; left.
      * rewrite list_insert_ge by lia. exact H0.
    + tauto.
Qed.




(** X21: When [highlight_cells] returns, it returns one style per cell of the
    row, each of them the empty style, the style of the best value or the
    style of a near-best value, and the metric name keeps the empty style. *)
Theorem highlight_cells_one_known_style_per_cell
    (metrics_config : gmap string bool) (row : list cell) (styles : list string) :
  highlight_cells metrics_config row = Ok styles ->
  length styles = length row /\
  Forall (fun s => s ∈ [""; BEST; NEAR]) styles /\
  styles !! 0%nat = Some "".
Proof.
  unfold Compare.highlight_cells. destruct row as [| metric cells]; [discriminate |].
  assert (Hplain : forall n, Forall (fun s => s ∈ [""; BEST; NEAR]) (replicate n "")).
  { intros n. apply Forall_replicate. left. }
  assert (Hrep : forall st, Ok (replicate (length (metric :: cells)) "") = Ok st ->
            length st = length (metric :: cells) /\
            Forall (fun s => s ∈ [""; BEST; NEAR]) st /\ st !! 0%nat = Some "").
  { intros st [= <-].
    split; [cbn [length]; by rewrite length_replicate |].
    split; [apply (Hplain (S (length cells))) | reflexivity]. }
  destruct (config_of metrics_config metric) as [hb |]; [| apply Hrep].
  pose proof (numeric_cells_indices py_float py_str 1 cells 0) as Hidx.
  destruct (numeric_cells 1 cells) as [values indices]. cbn [snd] in Hidx.
  destruct (length values <? 2)%nat; [apply Hrep |].
  intros H. destruct (style_loop_shape _ _ _ _ _ _ H) as [Hlen Hvoc].
  rewrite length_replicate in Hlen.
  split; [exact Hlen |]. split; [apply Hvoc, Hplain |].
  rewrite (style_loop_untouched _ _ _ _ _ _ 0%nat H); [reflexivity |].
  intros Hin. apply zip_fst_subset, Hidx in Hin as [Hle _]. lia.
Qed.


End Highlight.

Lemma highlight_cells_one_known_style_per_cell_witness :
  highlight_cells decimal_float no_float_cells ras_config ras_row
  = Ok [""; BEST; ""; ""; NEAR] /\
  length [""; BEST; ""; ""; NEAR] = length ras_row /\
  Forall (fun s => s ∈ [""; BEST; NEAR]) [""; BEST; ""; ""; NEAR] /\
  [""; BEST; ""; ""; NEAR] !! 0%nat = Some "".
Proof.
  assert (H : highlight_cells decimal_float no_float_cells ras_config ras_row
              = Ok [""; BEST; ""; ""; NEAR]) by (vm_compute; reflexivity).
  split; [exact H |].
  exact (highlight_cells_one_known_style_per_cell decimal_float no_float_cells
           ras_config ras_row _ H).
Defined.


(** *** Rank cells *)

Lemma numeral_char_plain (a : ascii) :
  numeral_char a = true ->
  Ascii.eqb a "#" = false /\ Ascii.eqb a "%" = false /\ is_space a = false.
Proof.
  destruct a as [[] [] [] [] [] [] [] []]; vm_compute; intros H;
    (discriminate || (repeat split; reflexivity)).
Qed.

Lemma numeral_uint (d : Decimal.uint) :
  numeral_text (NilEmpty.string_of_uint d) = true.
Proof. induction d; cbn; auto. Qed.

Lemma numeral_str_of_int (n : Z) :
  numeral_text (str_of_int n) = true /\ str_of_int n <> "".
Proof.
  assert (Hu : forall d, numeral_text (NilZero.string_of_uint d) = true /\
                         NilZero.string_of_uint d <> "").
  { intros d. split; [| destruct d; discriminate].
    destruct d; try reflexivity;
      match goal with
      | |- numeral_text (NilZero.string_of_uint ?x) = true =>
          change (numeral_text (NilEmpty.string_of_uint x) = true);
          apply numeral_uint
      end. }
  unfold str_of_int, NilZero.string_of_int.
  destruct (Z.to_int n) as [d | d]; [apply Hu |].
  split; [| discriminate]. cbn [numeral_text]. by rewrite (proj1 (Hu d)).
Qed.

Lemma remove_char_numeral (c : ascii) (s : string) :
  c = "#"%char \/ c = "%"%char -> numeral_text s = true -> remove_char c s = s.
Proof.
  intros Hc. induction s as [| a s IH]; [reflexivity |].
  cbn [numeral_text remove_char]. intros [Ha Hs]%andb_true_iff.
  apply numeral_char_plain in Ha as (H1 & H2 & _).
  destruct Hc as [-> | ->]; [rewrite H1 | rewrite H2]; by rewrite (IH Hs).
Qed.

Lemma strip_numeral (s : string) : numeral_text s = true -> strip s = s.
Proof.
  intros H. unfold strip.
  assert (Hl : lstrip s = s).
  { destruct s as [| a s]; [reflexivity |]. cbn in H |- *.
    apply andb_true_iff in H as [Ha _].
    apply numeral_char_plain in Ha as (_ & _ & ->). reflexivity. }
  rewrite Hl. clear Hl. induction s as [| a s IH]; [reflexivity |].
  cbn [numeral_text] in H. apply andb_true_iff in H as [Ha Hs].
  cbn [rstrip]. rewrite (IH Hs).
  apply numeral_char_plain in Ha as (_ & _ & ->). by destruct s.
Qed.

Section Cells.
Variable py_float : string -> option PrimFloat.float.
Variable py_str : PrimFloat.float -> string.
Variable format_1f : Q -> string.

(** X23: The comparison table and its highlighter agree on the cell texts: a
    rank is written with a leading ['#'] and compared as [float] of its
    integer numeral, an integer value is compared as [float] of its numeral,
    and a missing value, written ["N/A"], takes no part in the comparison. *)
Theorem rank_cells_are_compared_as_integers (is_rank : bool) (v : Q) (n : Z) :
  parse_cell py_float py_str (CStr (comparison_cell format_1f true (VFloat v)))
  = py_float (str_of_int (int_of v)) /\
  parse_cell py_float py_str (CStr (comparison_cell format_1f is_rank (VInt n)))
  = py_float (str_of_int n) /\
  parse_cell py_float py_str (CStr (comparison_cell format_1f is_rank VMissing))
  = None.
Proof.
  assert (Hnum : forall k t, numeral_text (str_of_int k) = true ->
            str_of_int k <> "" -> t = str_of_int k \/ t = "#" +:+ str_of_int k ->
            Compare.parse_cell py_float py_str (CStr t) = py_float (str_of_int k)).
  { intros k t Hk Hne Ht. unfold Compare.parse_cell. cbn [notna str andb].
    assert (Hclean : clean t = str_of_int k).
    { unfold clean. destruct Ht as [-> | ->].
      - rewrite (remove_char_numeral "%" _ (or_intror eq_refl) Hk).
        rewrite (remove_char_numeral "#" _ (or_introl eq_refl) Hk).
        by apply strip_numeral.
      - change ("#" +:+ str_of_int k) with (String "#" (str_of_int k)).
        change (remove_char "%" (String "#" (str_of_int k)))
          with (String "#" (remove_char "%" (str_of_int k))).
        rewrite (remove_char_numeral "%" _ (or_intror eq_refl) Hk).
        change (remove_char "#" (String "#" (str_of_int k)))
          with (remove_char "#" (str_of_int k)).
        rewrite (remove_char_numeral "#" _ (or_introl eq_refl) Hk).
        by apply strip_numeral. }
    rewrite Hclean.
    case_bool_decide as Hin; [| reflexivity]. exfalso.
    rewrite !elem_of_cons, elem_of_nil in Hin.
    destruct Ht as [-> | ->].
    + destruct Hin as [E | [E | [E | []]]]; rewrite E in Hk; try done;
        vm_compute in Hk; discriminate.
    + destruct Hin as [E | [E | [E | []]]]; discriminate. }
  split; [| split].
  - destruct (numeral_str_of_int (int_of v)) as [Hk Hne].
    cbn [comparison_cell]. apply Hnum; auto.
  - destruct (numeral_str_of_int n) as [Hk Hne].
    cbn [comparison_cell]. apply Hnum; auto.
  - reflexivity.
Qed.

End Cells.

End CompareExtras.
